(** * Zero-shot classification with a modified GPT-2: tokenizer, model and evaluation

    A shallow embedding of the parts of
    [zeroshot_encoder/baseline/gpt2.py] and [zeroshot_classifier/util/util.py]
    that carry the index bookkeeping of the pipeline: the structured
    (question / text / answer) tokenizer with its cropping policy, the doubled
    positional embedding, the length-grouped batching of the evaluation loop,
    the parsing of generated text into a predicted label, the pair maps of the
    training strategies and the accuracy extraction of [eval_res2df]; and,
    around them, the training arguments of [get_train_setup], the block
    grouping of [group_texts], the label cache of the tokenizer, the label
    list of a question and the model paths of [util.py].

    Python integers are [Z], Python lists are [list], Python strings are
    [string]; exceptions and emitted warnings are threaded through a small
    writer-and-error monad.  Calls into HuggingFace, PyTorch, NumPy's random
    generator and scikit-learn are parameters of the embedding. *)

From Stdlib Require Import ZArith List String Ascii Bool Lia Permutation Sorted.
From stdpp Require Import base option list strings gmap.

Local Open Scope string_scope.
Local Open Scope list_scope.
Local Open Scope Z_scope.

(** ** Python values and exceptions *)

Module Py.

Inductive exn : Type :=
| AssertionError
| IndexError
| KeyError
| NameError
| RuntimeError
| StopIteration
| AttributeError
| TypeError
| ValueError.

(** [len l] *)
Definition len {A : Type} (l : list A) : Z := Z.of_nat (length l).

(** [l[:n]], with Python's reading of a negative bound. *)
Definition slice_to {A : Type} (l : list A) (n : Z) : list A :=
  if n <? 0 then take (Z.to_nat (len l + n)) l else take (Z.to_nat n) l.

(** [l[n:]] *)
Definition slice_from {A : Type} (l : list A) (n : Z) : list A :=
  if n <? 0 then drop (Z.to_nat (len l + n)) l else drop (Z.to_nat n) l.

(** [[x] * n]: empty when [n <= 0]. *)
Definition replicate_py {A : Type} (x : A) (n : Z) : list A :=
  replicate (Z.to_nat n) x.

(** [list(range(n))]: empty when [n <= 0]. *)
Definition range (n : Z) : list Z :=
  map Z.of_nat (seq 0 (Z.to_nat n)).

(** [list(range(start, stop, step))]; a zero step raises [ValueError]. *)
Definition range3 (start stop step : Z) : exn + list Z :=
  if step =? 0 then inl ValueError
  else
    let n :=
      if 0 <? step then (stop - start + step - 1) / step
      else (start - stop - step - 1) / (- step) in
    inr (map (fun k => start + Z.of_nat k * step) (seq 0 (Z.to_nat n))).

(** [max(l)]; the empty sequence raises [ValueError]. *)
Definition max_py (l : list Z) : exn + Z :=
  match l with
  | [] => inl ValueError
  | x :: l' => inr (fold_left Z.max l' x)
  end.

(** String slices [s[n:]] and [s[:n]] for a non-negative bound. *)
Fixpoint str_drop (n : nat) (s : string) : string :=
  match n, s with
  | O, _ => s
  | S n', String _ s' => str_drop n' s'
  | S _, EmptyString => EmptyString
  end.

Fixpoint str_take (n : nat) (s : string) : string :=
  match n, s with
  | O, _ => EmptyString
  | S n', String c s' => String c (str_take n' s')
  | S _, EmptyString => EmptyString
  end.

(** [s.endswith(suffix)] *)
Fixpoint endswith (s suffix : string) : bool :=
  String.eqb s suffix ||
  match s with
  | EmptyString => false
  | String _ s' => endswith s' suffix
  end.

End Py.

Import Py.

(** ** Warnings and the effect monad *)

(** The record logged per batch by [evaluate_trained] ([d_log]). *)
Record LogDict : Type := mkLogDict {
  log_step : Z;
  log_n_bch : Z;
  log_batch_len : Z;
  log_batch_size : Z;
  log_sequence_length : Z;
  log_n_acc : Z;
  log_ids_pred : list Z;
  log_ids_true : list Z
}.

(** Every [warn(...)] and [logger.warning(...)] call site of the two files,
    with the values its message interpolates. *)
Inductive warning : Type :=
| WarnCropInference (dset_nm : string) (ln_cont model_max_length ln_t ln_t_ : Z)
| WarnCropTraining (dset_nm : string) (ln_ids_6 model_max_length ln_t ln_t_ : Z)
| WarnPositionalNotLoaded
| WarnBoaCount (n_boa : Z) (answer_with_eos : string)
| WarnLogDict (d_log : LogDict)
| WarnNoEos (answer_with_eos : string).

(** A computation emits warnings and either raises or returns.  The warnings
    emitted before an exception stay in the trace. *)
Definition M (A : Type) : Type := (list warning * (exn + A))%type.

Definition ret {A : Type} (a : A) : M A := ([], inr a).

Definition bind {A B : Type} (m : M A) (f : A -> M B) : M B :=
  match m with
  | (w, inl e) => (w, inl e)
  | (w, inr a) => let '(w', r) := f a in (w ++ w', r)
  end.

#[global] Instance M_ret : MRet M := @ret.
#[global] Instance M_bind : MBind M := fun A B f m => bind m f.

Definition raise {A : Type} (e : exn) : M A := ([], inl e).

Definition warn (w : warning) : M unit := ([w], inr tt).

Definition assert_py (b : bool) : M unit :=
  if b then ret tt else raise AssertionError.

Definition lift {A : Type} (r : exn + A) : M A := ([], r).

Definition warnings_of {A : Type} (m : M A) : list warning := fst m.
Definition outcome_of {A : Type} (m : M A) : exn + A := snd m.

(** ** The tokenizer: [ZsGPT2Tokenizer] *)

Module Tokenizer.

(** [ZsGPT2Tokenizer.SPEC_TOKS] *)
Definition pref_ques : string := "<|question|>".
Definition pref_text : string := "<|text|>".
Definition pref_answ : string := "<|answer|>".
Definition type_ques : string := "[QUES]".
Definition type_text : string := "[TEXT]".
Definition type_answ : string := "[ANSW]".

(** The state of a tokenizer instance that [__call__] reads.  [call_paren]
    is the parent [GPT2TokenizerFast.__call__(s, **kwargs)['input_ids']],
    which sees the [max_length] keyword when the caller gave one; [encode]
    is the parent's [encode]. *)
Record t : Type := mk {
  model_max_length : Z;
  call_paren : option Z -> string -> list Z;
  encode : string -> list Z;
  eos_token : string;
  pad_token : string
}.

Definition boq_token (tk : t) : string := pref_ques.
Definition bot_token (tk : t) : string := pref_text.
Definition boa_token (tk : t) : string := pref_answ.
Definition question_type_token (tk : t) : string := type_ques.
Definition text_type_token (tk : t) : string := type_text.
Definition answer_type_token (tk : t) : string := type_answ.

(** [max_len_single_sentence]: three pairs of (start token, eos token). *)
Definition max_len_single_sentence (tk : t) : Z :=
  model_max_length tk - 2 * 3.

(** [enc_spec]: encode a special token, with its sanity check. *)
Definition enc_spec (tk : t) (tok : string) : M Z :=
  match encode tk tok with
  | [id_] => ret id_
  | _ => raise AssertionError
  end.

(** [Cache.__getitem__], the entry read by [__call__]: the longest encoding
    among the label names of the dataset. *)
Definition max_label_id_length (tk : t) (names : list string) : M Z :=
  lift (max_py (map (fun lb => len (call_paren tk None lb)) names)).

(** What [call_single] returns for one sample. *)
Record encoding : Type := mkEncoding {
  input_ids : list Z;
  attention_mask : list Z;
  token_type_ids : list Z;
  position_ids : list Z;
  dataset_id : Z
}.

Inductive feature : Type :=
| f_input_ids | f_attention_mask | f_token_type_ids | f_position_ids.

(** The inner [pad]: pad to [max_length], truncate if necessary. *)
Definition pad_with (max_length int_pad : Z) (ints : list Z) : list Z :=
  if len ints >? max_length then slice_to ints max_length
  else ints ++ replicate_py int_pad (max_length - len ints).

Definition pad (tk : t) (max_length : Z) (ints : list Z) (name : feature)
  : M (list Z) :=
  int_pad ← match name with
             | f_attention_mask => ret 0
             | f_position_ids => ret 0
             | _ => enc_spec tk (pad_token tk)
             end;
  ret (pad_with max_length int_pad ints).

(** The cropping step of [call_single] (lines 180-201): the text ids that
    go into the sequence. *)
Definition crop_text (tk : t) (for_prediction : bool) (dset_nm : string)
    (names : list string) (ids_ques ids_text ids_answ : list Z)
  : M (list Z) :=
  let ln_q := len ids_ques in
  let ln_t := len ids_text in
  let ln_a := len ids_answ in
  if for_prediction then
    let ln_cont := (1 + ln_q + 1) + (1 + ln_t + 1) + 1 in
    max_label ← max_label_id_length tk names;
    let room := model_max_length tk - 1 - max_label in
    if ln_cont >? room then
      let ln_t_ := room - ((1 + ln_q + 1) + (1 + 1) + 1) in
      assert_py (ln_t_ >? 0);;
      warn (WarnCropInference dset_nm ln_cont (model_max_length tk) ln_t ln_t_);;
      ret (slice_to ids_text ln_t_)
    else ret ids_text
  else
    let ln_ids := ln_q + ln_t + ln_a in
    if ln_ids >? max_len_single_sentence tk then
      let ln_t_ := max_len_single_sentence tk - (ln_q + ln_a) in
      assert_py (ln_t_ >? 0);;
      warn (WarnCropTraining dset_nm (ln_ids + 6) (model_max_length tk) ln_t ln_t_);;
      ret (slice_to ids_text ln_t_)
    else ret ids_text.

(** [call_single], from the three encodings on (lines 175-239).  What the
    lines before them compute from the configuration, the dataset on disk
    and two random draws is an input here: [dset_nm], the question string (a
    random template filled with the shuffled label descriptions) and the
    answer string (the description of the label).  [names] are the label
    names of the sample's dataset, read by the cache; [kw_max_length] is the
    [max_length] keyword of [__call__], [did] the [dataset_id] of the
    sample. *)
Definition call_single (tk : t) (kw_max_length : option Z)
    (for_prediction : bool) (dset_nm : string) (names : list string)
    (did : Z) (question text answer : string) : M encoding :=
  let max_length := default (model_max_length tk) kw_max_length in
  let n_token := model_max_length tk in
  let ids_ques := call_paren tk kw_max_length question in
  let ids_text := call_paren tk kw_max_length text in
  let ids_answ := call_paren tk kw_max_length answer in
  ids_text ← crop_text tk for_prediction dset_nm names ids_ques ids_text ids_answ;
  let n_ques := 1 + len ids_ques + 1 in
  let n_text := 1 + len ids_text + 1 in
  let n_answ := 1 + len ids_answ + 1 in
  let n_cont := n_ques + n_text + 1 in
  boq ← enc_spec tk (boq_token tk);
  eos1 ← enc_spec tk (eos_token tk);
  bot ← enc_spec tk (bot_token tk);
  eos2 ← enc_spec tk (eos_token tk);
  boa ← enc_spec tk (boa_token tk);
  eos3 ← enc_spec tk (eos_token tk);
  let ids := [boq] ++ ids_ques ++ [eos1] ++
             [bot] ++ ids_text ++ [eos2] ++
             [boa] ++ ids_answ ++ [eos3] in
  tq ← enc_spec tk (question_type_token tk);
  tt_ ← enc_spec tk (text_type_token tk);
  ta ← enc_spec tk (answer_type_token tk);
  let tids := replicate_py tq n_ques ++ replicate_py tt_ n_text ++
              replicate_py ta n_answ in
  '(ids, tids) ←
     (if for_prediction then
        let ids' := slice_to ids (- (n_answ - 1)) in
        let tids' := slice_to tids (- (n_answ - 1)) in
        assert_py (len ids' =? n_ques + n_text + 1);;
        ret (ids', tids')
      else ret (ids, tids));
  let msks := replicate_py 1 (len ids) in
  let pids := range n_cont ++
              map (fun i => i + n_token) (range (len ids - n_cont)) in
  assert_py (forallb (fun lst_ids => len lst_ids =? len ids)
               [ids; tids; msks; pids]);;
  let out (ints : list Z) (k : feature) : M (list Z) :=
    if for_prediction then ret ints else pad tk max_length ints k in
  o_ids ← out ids f_input_ids;
  o_msks ← out msks f_attention_mask;
  o_tids ← out tids f_token_type_ids;
  o_pids ← out pids f_position_ids;
  ret (mkEncoding o_ids o_msks o_tids o_pids did).

End Tokenizer.

(** ** The model: [ZsGPT2Model] and [ZsGPT2LMHeadModel] *)

Module Model.

(** The fields of the GPT-2 configuration that the two classes read. *)
Record config : Type := mkConfig {
  max_position_embeddings : Z;
  embed_dim : Z
}.

Section Weights.

(** One row of an embedding matrix: a vector of [embed_dim] floats.  The
    code only allocates and copies rows, so their content stays abstract. *)
Context {row : Type}.

(** The rest of a GPT-2 model (token embeddings, blocks, head). *)
Context {rest : Type}.

Record model : Type := mkModel {
  wpe : list row;
  others : rest
}.

(** [nn.Embedding(num_embeddings, dim).weight]: freshly initialised rows. *)
Variable init_row : Z -> nat -> row.

Definition nn_Embedding (num_embeddings dim : Z) : list row :=
  map (init_row dim) (seq 0 (Z.to_nat num_embeddings)).

(** [GPT2Model.__init__] up to the positional embedding. *)
Variable init_others : config -> rest.

Definition GPT2Model_init (config_ : config) : model :=
  mkModel (nn_Embedding (max_position_embeddings config_) (embed_dim config_))
          (init_others config_).

(** [ZsGPT2Model.__init__]: the positional embedding is overridden by one
    of twice the size. *)
Definition ZsGPT2Model_init (config_ : config) : model :=
  let self := GPT2Model_init config_ in
  mkModel (nn_Embedding (max_position_embeddings config_ * 2) (embed_dim config_))
          (others self).

(** [w[:n, :] = src] and [w[n:, :] = src] on a matrix held as its list of
    rows: the source has as many rows as the target slice, or one row that
    is broadcast; anything else is a shape error. *)
Definition assign_rows (target src : list row) : option (list row) :=
  if len src =? len target then Some src
  else match src with
       | [r] => Some (replicate (length target) r)
       | _ => None
       end.

Definition setitem_rows_to (w : list row) (n : Z) (src : list row)
  : exn + list row :=
  match assign_rows (slice_to w n) src with
  | Some rows => inr (rows ++ slice_from w n)
  | None => inl RuntimeError
  end.

Definition setitem_rows_from (w : list row) (n : Z) (src : list row)
  : exn + list row :=
  match assign_rows (slice_from w n) src with
  | Some rows => inr (slice_to w n ++ rows)
  | None => inl RuntimeError
  end.

(** The parent [from_pretrained]: loads a checkpoint into a freshly built
    model.  With [ignore_mismatched_sizes] the shapes of the built model
    are kept. *)
Variable load_checkpoint : model -> model.

(** [ZsGPT2LMHeadModel.from_pretrained] *)
Definition from_pretrained (is_zs_gpt2 : bool) (config_ : config) : M model :=
  if is_zs_gpt2 then ret (load_checkpoint (ZsGPT2Model_init config_))
  else
    let md_ := load_checkpoint (ZsGPT2Model_init config_) in
    let md_ori := load_checkpoint (GPT2Model_init config_) in
    let weight_pretrained := wpe md_ori in
    let n_tok := len (wpe md_) in
    if n_tok =? 1024 * 2 then
      w1 ← lift (setitem_rows_to (wpe md_) 1024 weight_pretrained);
      w2 ← lift (setitem_rows_from w1 1024 weight_pretrained);
      ret (mkModel w2 (others md_))
    else
      warn WarnPositionalNotLoaded;;
      ret md_.

End Weights.

End Model.

(** ** The evaluation loop: [evaluate_trained] *)

Module Evaluate.

Definition getitem {A : Type} (l : list A) (i : nat) : exn + A :=
  match l !! i with
  | Some x => inr x
  | None => inl IndexError
  end.

(** [l[i] = x] on an array: out of range raises. *)
Definition setitem {A : Type} (l : list A) (i : nat) (x : A) : exn + list A :=
  if bool_decide (i < length l)%nat then inr (<[i := x]> l)
  else inl IndexError.

(** [np.unique]: the sorted distinct values. *)
Fixpoint insert_uniq (x : Z) (l : list Z) : list Z :=
  match l with
  | [] => [x]
  | y :: l' =>
      if x <? y then x :: l
      else if x =? y then l
      else y :: insert_uniq x l'
  end.

Definition np_unique (l : list Z) : list Z := foldr insert_uniq [] l.

(** [np.where(len_ids == ln)[0]]: the positions holding [ln], ascending. *)
Definition np_where_eq (len_ids : list Z) (ln : Z) : list nat :=
  filter (fun i => len_ids !! i = Some ln) (seq 0 (length len_ids)).

(** [np.split(ary, points)]: the pieces [ary[:p0]], [ary[p0:p1]], ...,
    [ary[pk:]]. *)
Fixpoint np_split_from {A : Type} (st : nat) (points : list nat) (ary : list A)
  : list (list A) :=
  match points with
  | [] => [drop st ary]
  | p :: ps => take (p - st) (drop st ary) :: np_split_from p ps ary
  end.

Definition np_split {A : Type} (ary : list A) (points : list nat)
  : list (list A) :=
  np_split_from 0 points ary.

(** One summand of [idxs_batches]. *)
Definition split_group (batch_size : Z) (idxs : list nat)
  : exn + list (list nat) :=
  if len idxs >? batch_size then
    match range3 batch_size (len idxs) batch_size with
    | inl e => inl e
    | inr points => inr (np_split idxs (map Z.to_nat points))
    end
  else inr [idxs].

(** [sum((... for idxs in ln2idxs), start=[])] *)
Fixpoint sum_groups (batch_size : Z) (ln2idxs : list (list nat))
  : exn + list (list nat) :=
  match ln2idxs with
  | [] => inr []
  | idxs :: groups =>
      match split_group batch_size idxs with
      | inl e => inl e
      | inr bs =>
          match sum_groups batch_size groups with
          | inl e => inl e
          | inr bss => inr (bs ++ bss)
          end
      end
  end.

Definition idxs_batches (len_ids : list Z) (batch_size : Z)
  : exn + list (list nat) :=
  let uniq_lens := np_unique len_ids in
  let ln2idxs := map (np_where_eq len_ids) uniq_lens in
  sum_groups batch_size ln2idxs.

(** One row of the tokenized evaluation set. *)
Record sample : Type := mkSample {
  s_input_ids : list Z;
  s_labels : list Z
}.

(** What the loop over batches carries: the [lb2id] dictionary (a
    [defaultdict] stores the default it hands out) and the two result
    arrays. *)
Record state : Type := mkState {
  lb2id : gmap string Z;
  preds : list Z;
  trues : list Z
}.

Section Loop.

(** [get_substr_indices(s, s_sub)] of the project's utilities: the start
    positions of [s_sub] in [s]. *)
Variable get_substr_indices : string -> string -> list nat.

(** [str.lower] *)
Variable lower : string -> string.

Variable tkzer : Tokenizer.t.

(** [lb2id.update({lb.lower(): i for i, lb in enumerate(labels)})] on an
    empty [defaultdict(lambda: -1)]: a later label overrides an earlier
    one with the same lower-case form. *)
Definition lb2id_of (labels : list string) : gmap string Z :=
  fold_left (fun m '(i, lb) => <[lower lb := Z.of_nat i]> m)
            (imap pair labels) ∅.

(** [lb2id[answer]] *)
Definition lb2id_getitem (m : gmap string Z) (k : string)
  : Z * gmap string Z :=
  match m !! k with
  | Some v => (v, m)
  | None => (-1, <[k := -1]> m)
  end.

(** [set_pred_n_true].  [d_log] is the variable of the enclosing function:
    it is bound only once a batch has been completed. *)
Definition set_pred_n_true (labels : list string) (dset : list sample)
    (d_log : option LogDict) (st : state) (generated : string)
    (i_sample : nat) : M (state * (Z * Z)) :=
  let boa_token := Tokenizer.boa_token tkzer in
  let idxs_boa := get_substr_indices generated boa_token in
  i0 ← lift (getitem idxs_boa 0);
  let answer_with_eos :=
    str_drop (i0 + String.length boa_token) generated in
  let id_pred := -1 in
  '(id_pred, lb2id') ←
    (if len idxs_boa >? 1 then
       warn (WarnBoaCount (len idxs_boa) answer_with_eos);;
       d ← lift (match d_log with
                 | Some d => inr d
                 | None => inl NameError
                 end);
       warn (WarnLogDict d);;
       ret (id_pred, lb2id st)
     else
       assert_py (len idxs_boa =? 1);;
       let idxs_eot :=
         get_substr_indices answer_with_eos (Tokenizer.eos_token tkzer) in
       match idxs_eot with
       | [] =>
           warn (WarnNoEos answer_with_eos);;
           ret (id_pred, lb2id st)
       | e0 :: _ =>
           let answer := lower (str_take e0 answer_with_eos) in
           let '(id_pred, lb2id') := lb2id_getitem (lb2id st) answer in
           (if id_pred =? -1 then
              assert_py (forallb
                (fun lb => negb (String.eqb (lower lb) (lower answer)))
                labels)
            else ret tt);;
           ret (id_pred, lb2id')
       end);
  smp ← lift (getitem dset i_sample);
  let lbs_true := s_labels smp in
  id_true ←
    (if existsb (Z.eqb id_pred) lbs_true then
       match find (fun lb_id => lb_id =? id_pred) lbs_true with
       | Some lb_id => ret lb_id
       | None => raise StopIteration
       end
     else lift (getitem lbs_true 0));
  preds' ← lift (setitem (preds st) i_sample id_pred);
  trues' ← lift (setitem (trues st) i_sample id_true);
  ret (mkState lb2id' preds' trues', (id_pred, id_true)).

(** The calls of one batch: [[set_pred_n_true(out, i_sample) for out,
    i_sample in zip(outputs, idxs)]]. *)
Fixpoint run_batch (labels : list string) (dset : list sample)
    (d_log : option LogDict) (st : state) (pairs : list (string * nat))
  : M (state * list (Z * Z)) :=
  match pairs with
  | [] => ret (st, [])
  | (out, i_sample) :: pairs' =>
      '(st', r) ← set_pred_n_true labels dset d_log st out i_sample;
      '(st'', rs) ← run_batch labels dset d_log st' pairs';
      ret (st'', r :: rs)
  end.

(** [dset[idxs]] *)
Fixpoint select (dset : list sample) (idxs : list nat)
  : exn + list sample :=
  match idxs with
  | [] => inr []
  | i :: idxs' =>
      match getitem dset i with
      | inl e => inl e
      | inr smp =>
          match select dset idxs' with
          | inl e => inl e
          | inr smps => inr (smp :: smps)
          end
      end
  end.

(** [torch.tensor(rows)]: the rows of a tensor have one length. *)
Definition torch_tensor (rows : list (list Z)) : exn + list (list Z) :=
  match rows with
  | [] => inr []
  | r :: _ =>
      if forallb (fun r' => len r' =? len r) rows then inr rows
      else inl ValueError
  end.

(** [tkzer.batch_decode(outputs, skip_special_tokens=False)] of what
    [model.generate] returns on the [input_ids] of a batch: greedy
    decoding by the trained model. *)
Variable generate : list (list Z) -> list string.

(** The body of the loop over batches; it ends by binding [d_log]. *)
Definition eval_batch (labels : list string) (dset : list sample)
    (n_bch batch_size : Z) (st : state) (d_log : option LogDict)
    (step : nat) (idxs : list nat) : M (state * option LogDict) :=
  rows ← lift (select dset idxs);
  inputs ← lift (torch_tensor (map s_input_ids rows));
  let outputs := generate inputs in
  '(st', res) ← run_batch labels dset d_log st (zip outputs idxs);
  match res with
  | [] => raise ValueError
  | _ :: _ =>
      let preds_batch := res.*1 in
      let trues_batch := res.*2 in
      row0 ← lift (getitem inputs 0);
      let n_acc :=
        len (filter (fun pt => pt.1 = pt.2) res) in
      ret (st', Some (mkLogDict (Z.of_nat step + 1) n_bch (len idxs)
                        batch_size (len row0) n_acc
                        preds_batch trues_batch))
  end.

Fixpoint loop_batches (labels : list string) (dset : list sample)
    (n_bch batch_size : Z) (st : state) (d_log : option LogDict)
    (step : nat) (batches : list (list nat)) : M (state * option LogDict) :=
  match batches with
  | [] => ret (st, d_log)
  | idxs :: batches' =>
      '(st', d_log') ← eval_batch labels dset n_bch batch_size st d_log step idxs;
      loop_batches labels dset n_bch batch_size st' d_log' (S step) batches'
  end.

(** An entry of [config('UTCD.datasets')], with its test split. *)
Record dataset_info : Type := mkInfo {
  out_of_domain : bool;
  multi_label : bool;
  ds_labels : list string
}.

(** The report of scikit-learn and the frame written to disk. *)
Context {report frame : Type}.

(** [classification_report(y_true, y_pred, labels=..., target_names=...,
    output_dict=True)] *)
Variable classification_report :
  list Z -> list Z -> list Z -> list string -> report.

(** [pd.DataFrame(report).transpose()] *)
Variable DataFrame_T : report -> frame.

(** [get_dset(dataset_name=dnm_disk, ...)[0]]: the test split, tokenized
    for prediction. *)
Variable get_dset : string -> list sample.

(** The content of the arrays that [np.empty] hands out. *)
Variable uninit_trues uninit_preds : nat -> Z.

Definition np_empty (uninit : nat -> Z) (n : nat) : list Z :=
  map uninit (seq 0 n).

(** [os.path.join(dir, name)] on a POSIX system: a name that starts with a
    slash stands alone, a name after an empty directory or after a directory
    that ends with a slash is appended as it is, any other one after a
    slash. *)
Definition os_path_join (dir name : string) : string :=
  if String.prefix "/" name then name
  else if String.eqb dir "" || endswith dir "/" then dir +:+ name
  else dir +:+ "/" +:+ name.

(** The body of the loop over datasets, for a dataset that is not
    skipped: evaluate it and write its report. *)
Definition evaluate_dataset (batch_size : Z) (path_dir dnm_ : string)
    (d : dataset_info) (fs : gmap string frame) : M (gmap string frame) :=
  let labels := ds_labels d in
  let dnm_disk :=
    if multi_label d then dnm_ +:+ "-label-grouped" else dnm_ in
  let dset := get_dset dnm_disk in
  let trues := np_empty uninit_trues (length dset) in
  let preds := np_empty uninit_preds (length dset) in
  let len_ids := map (fun smp => len (s_input_ids smp)) dset in
  batches ← lift (idxs_batches len_ids batch_size);
  let n_bch := len batches in
  '(st, _) ← loop_batches labels dset n_bch batch_size
               (mkState (lb2id_of labels) preds trues) None 0 batches;
  let df := DataFrame_T
              (classification_report (Evaluate.trues st) (Evaluate.preds st)
                 (-1 :: range (len labels))
                 ("Label not in dataset" :: labels)) in
  let path := os_path_join path_dir (dnm_ +:+ ".csv") in
  ret (<[path := df]> fs).

(** How a run of [evaluate_trained] ends when no exception is raised. *)
Inductive completion : Type :=
| Returned
| Exited (code : Z).

(** [evaluate_trained]: the loop over the configured datasets. *)
Fixpoint evaluate_loop (in_domain : bool) (batch_size : Z)
    (path_dir : string) (datasets : list (string * dataset_info))
    (fs : gmap string frame) : M (gmap string frame * completion) :=
  match datasets with
  | [] => ret (fs, Returned)
  | (dnm_, d) :: datasets' =>
      if Bool.eqb (out_of_domain d) (negb in_domain) then
        if negb (String.eqb dnm_ "multi_eurlex") then
          evaluate_loop in_domain batch_size path_dir datasets' fs
        else
          fs' ← evaluate_dataset batch_size path_dir dnm_ d fs;
          ret (fs', Exited 1)
      else evaluate_loop in_domain batch_size path_dir datasets' fs
  end.

Definition evaluate_trained (in_domain : bool) (batch_size : Z)
    (path_dir : string) (datasets : list (string * dataset_info))
    (fs : gmap string frame) : M (gmap string frame * completion) :=
  evaluate_loop in_domain batch_size path_dir datasets fs.

End Loop.

End Evaluate.

(** ** Utilities: [TrainStrategy2PairMap] and [eval_res2df] *)

Module Util.

(** The class attributes read from the configuration, and the values that
    the argument checker [ca] accepts as a training strategy. *)
Record strategy_config : Type := mkStrategyConfig {
  sep_token : string;
  aspect2aspect_token : gmap string string;
  accepted_strategies : list string
}.

(** An f-string field holding an optional string. *)
Definition fmt (aspect : option string) : string :=
  default "None" aspect.

(** [TrainStrategy2PairMap.aspect2aspect_token[aspect]] *)
Definition aspect_token (cfg : strategy_config) (aspect : option string)
  : exn + string :=
  match aspect with
  | None => inl KeyError
  | Some a =>
      match aspect2aspect_token cfg !! a with
      | Some tok => inr tok
      | None => inl KeyError
      end
  end.

(** A list comprehension whose body may raise. *)
Fixpoint comprehension {A B : Type} (f : A -> exn + B) (l : list A)
  : exn + list B :=
  match l with
  | [] => inr []
  | x :: l' =>
      match f x with
      | inl e => inl e
      | inr y =>
          match comprehension f l' with
          | inl e => inl e
          | inr ys => inr (y :: ys)
          end
      end
  end.

Module TrainStrategy2PairMap.

Record t : Type := mk { train_strategy : string }.

(** [__init__] *)
Definition init (cfg : strategy_config) (train_strategy : string) : exn + t :=
  if bool_decide (train_strategy ∈ accepted_strategies cfg)
  then inr (mk train_strategy)
  else inl ValueError.

Definition query : Type := string -> list string -> exn + list (list string).

(** [__call__] *)
Definition call (cfg : strategy_config) (self : t) (aspect : option string)
  : exn + query :=
  if bool_decide (train_strategy self ∈ ["vanilla"; "explicit"]) then
    inr (fun txt lbs => inr (map (fun lb => [txt; lb]) lbs))
  else if String.eqb (train_strategy self) "implicit" then
    inr (fun txt lbs =>
           inr (map (fun lb => [txt; lb +:+ " " +:+ fmt aspect]) lbs))
  else if String.eqb (train_strategy self) "implicit-on-text-encode-aspect" then
    inr (fun txt lbs =>
           comprehension
             (fun lb =>
                match aspect_token cfg aspect with
                | inl e => inl e
                | inr tok => inr [tok +:+ " " +:+ txt; lb]
                end) lbs)
  else
    if String.eqb (train_strategy self) "implicit-on-text-encode-sep" then
      inr (fun txt lbs =>
             inr (map (fun lb =>
                         [fmt aspect +:+ " " +:+ sep_token cfg +:+ " " +:+ txt; lb])
                      lbs))
    else inl AssertionError.

(** [map_label] *)
Definition map_label (self : t) (label : string) (aspect : option string)
  : exn + string :=
  if String.eqb (train_strategy self) "implicit" then
    match aspect with
    | None => inl AssertionError
    | Some a => inr (label +:+ " " +:+ a)
    end
  else inr label.

(** [map_text] *)
Definition map_text (cfg : strategy_config) (self : t) (text : string)
    (aspect : option string) : exn + string :=
  if bool_decide (train_strategy self ∈
                    ["implicit-on-text-encode-aspect";
                     "implicit-on-text-encode-sep"]) then
    match aspect with
    | None => inl AssertionError
    | Some a =>
        if String.eqb (train_strategy self) "implicit-on-text-encode-aspect" then
          match aspect_token cfg aspect with
          | inl e => inl e
          | inr tok => inr (tok +:+ " " +:+ text)
          end
        else inr (a +:+ " " +:+ sep_token cfg +:+ " " +:+ text)
    end
  else inr text.

End TrainStrategy2PairMap.

Section EvalRes.

(** Python floats.  [eval_res2df] compares them with [math.isclose] and
    rounds them with [round]; both stay operations of the type. *)
Context {float : Type}.

(** [math.isclose(a, b, abs_tol=t)] *)
Variable isclose : float -> float -> float -> bool.

(** The literal [1e-8]. *)
Variable tol_1e_8 : float.

(** [round(x, ndigits)] *)
Variable round_py : float -> Z -> float.

(** A value of the report dictionary: a number ([accuracy]) or a row
    of metrics. *)
Inductive value : Type :=
| Num (x : float)
| Row (metrics : list (string * float)).

(** The dictionary returned by [classification_report(...,
    output_dict=True)], in insertion order. *)
Definition report : Type := list (string * value).

(** [d[k]] on a dictionary held as its items. *)
Definition dict_get {V : Type} (d : list (string * V)) (k : string)
  : option V :=
  snd <$> List.find (fun kv => String.eqb kv.1 k) d.

Context {frame : Type}.

(** [sklearn.metrics.classification_report(labels, preds, **report_args)] *)
Context {report_args : Type}.
Variable classification_report : list Z -> list Z -> report_args -> report.

(** [pd.DataFrame(report).transpose()] *)
Variable DataFrame_T : report -> frame.

(** The accuracy that [eval_res2df] reads off the report. *)
Definition report_accuracy (rep : report) : exn + value :=
  match dict_get rep "accuracy" with
  | Some acc => inr acc
  | None =>
      match dict_get rep "micro avg" with
      | None => inl KeyError
      | Some (Num _) => inl AttributeError
      | Some (Row metrics) =>
          let vals :=
            map snd (filter (fun kv => kv.1 ≠ "support") metrics) in
          match vals with
          | [] => inl IndexError
          | v0 :: _ =>
              if forallb (fun v => isclose v v0 tol_1e_8) vals
              then inr (Num v0)
              else inl AssertionError
          end
      end
  end.

(** [round(acc, 3) if pretty else acc] *)
Definition rounded (acc : value) (pretty : bool) : exn + value :=
  if pretty then
    match acc with
    | Num x => inr (Num (round_py x 3))
    | Row _ => inl TypeError
    end
  else inr acc.

(** [eval_res2df] *)
Definition eval_res2df (labels preds : list Z) (args : report_args)
    (pretty : bool) : exn + (frame * value) :=
  let rep := classification_report labels preds args in
  match report_accuracy rep with
  | inl e => inl e
  | inr acc =>
      let df := DataFrame_T rep in
      match rounded acc pretty with
      | inl e => inl e
      | inr acc' => inr (df, acc')
      end
  end.

End EvalRes.

End Util.

(** ** Python strings, dictionaries and paths *)

Module PyStr.

(** [sub in s] on strings. *)
Fixpoint str_in (sub s : string) : bool :=
  String.prefix sub s ||
  match s with
  | EmptyString => false
  | String _ s' => str_in sub s'
  end.

(** [s.split(sep)] for a separator of one character: the pieces between
    the occurrences of [sep], empty pieces included. *)
Fixpoint split (sep : ascii) (s : string) : list string :=
  match s with
  | EmptyString => [EmptyString]
  | String c s' =>
      if Ascii.eqb c sep then EmptyString :: split sep s'
      else match split sep s' with
           | [] => [String c EmptyString]
           | piece :: pieces => String c piece :: pieces
           end
  end.


(** The truth value of an optional string: [None] and [''] are false. *)
Definition truthy (s : option string) : bool :=
  match s with
  | Some s => negb (String.eqb s "")
  | None => false
  end.

(** [l[i:j]] for bounds that are not negative. *)
Definition slice {A : Type} (l : list A) (i j : Z) : list A :=
  take (Z.to_nat j - Z.to_nat i) (drop (Z.to_nat i) l).

(** [d[k] = v] on a dictionary held as its items: an existing key keeps
    its place, a new one goes last. *)
Fixpoint dict_set {V : Type} (d : list (string * V)) (k : string) (v : V)
  : list (string * V) :=
  match d with
  | [] => [(k, v)]
  | (k', v') :: d' =>
      if String.eqb k' k then (k, v) :: d' else (k', v') :: dict_set d' k v
  end.

End PyStr.

Import PyStr.

(** ** The setup of a training run: [get_model_n_tokenizer],
    [get_train_setup] and [group_texts] *)

Module Training.

(** A value of the keyword arguments of [TrainingArguments].  A float is
    kept as its literal, [mantissa]e[exponent]. *)
Inductive value : Type :=
| VInt (n : Z)
| VFloat (mantissa exponent : Z)
| VBool (b : bool)
| VStr (s : string)
| VSchedulerType (member : string)
| VOptimizerNames (member : string).

(** One entry of [d_train_args]; a field is [None] when the entry has no
    such key, as [dict.get(k, None)] reads it. *)
Record entry : Type := mkEntry {
  learning_rate : option value;
  batch_size : option Z;
  train_batch_size : option Z;
  eval_batch_size : option Z;
  gradient_accumulation_steps : option Z;
  weight_decay : option value;
  num_train_epochs : option Z;
  lr_scheduler_type : option value
}.

Definition d_train_args : gmap string entry :=
  <["debug" :=
      mkEntry (Some (VFloat 1 (-4))) (Some 4) None None None
        (Some (VFloat 1 (-2))) (Some 4) (Some (VSchedulerType "CONSTANT"))]>
  (<["debug-large" :=
      mkEntry (Some (VFloat 5 (-5))) (Some 4) None None None
        (Some (VFloat 1 (-2))) (Some 40) (Some (VSchedulerType "CONSTANT"))]>
  (<["gpt2" :=
      mkEntry (Some (VFloat 3 (-5))) (Some 32) None None None
        (Some (VFloat 1 (-2))) (Some 5) (Some (VSchedulerType "COSINE"))]>
  (<["gpt2-medium" :=
      mkEntry (Some (VFloat 4 (-5))) None (Some 16) (Some 40) (Some 8)
        (Some (VFloat 1 (-2))) (Some 10) (Some (VSchedulerType "COSINE"))]>
   ∅))).

Section Setup.

(** [torch.cuda.is_available()] and [torch.cuda.device_count()]; a machine
    has one device at least when CUDA is available. *)
Variable cuda_is_available : bool.
Variable cuda_device_count : positive.

(** [os.path.join(get_output_base(), DIR_PROJ, DIR_MDL, 'gpt2', model_name,
    now(sep='-'))] *)
Variable output_dir : string -> string.

(** [bsz_tr /= torch.cuda.device_count()] followed by the assertion that
    the quotient [is_integer()] and by [int(bsz_tr)]: the quotient of two
    integers of this size is a whole float exactly when the division is
    exact. *)
Definition distribute (bsz_tr : Z) : exn + Z :=
  if cuda_is_available then
    if bsz_tr mod Z.pos cuda_device_count =? 0
    then inr (bsz_tr / Z.pos cuda_device_count)
    else inl AssertionError
  else inr bsz_tr.

(** [get_train_setup]: the keyword arguments that it hands to
    [TrainingArguments]. *)
Definition get_train_setup (model_name : string) (do_eval : bool)
    (train_args : option (gmap string value)) (save_gpu_memory : bool)
  : exn + gmap string value :=
  let name_ :=
    if String.eqb model_name "debug-gpt-ori" then "gpt2" else model_name in
  match d_train_args !! name_ with
  | None => inl KeyError
  | Some conf =>
      let lr := learning_rate conf in
      let bsz := batch_size conf in
      let decay := weight_decay conf in
      let n_ep := num_train_epochs conf in
      let sch := lr_scheduler_type conf in
      let gas := gradient_accumulation_steps conf in
      match
        match bsz with
        | None =>
            match train_batch_size conf, eval_batch_size conf with
            | Some bsz_tr, Some bsz_vl => inr (bsz_tr, bsz_vl)
            | _, _ => inl AssertionError
            end
        | Some bsz => inr (bsz, bsz)
        end
      with
      | inl e => inl e
      | inr (bsz_tr, bsz_vl) =>
          match distribute bsz_tr with
          | inl e => inl e
          | inr bsz_tr =>
              let args : list (string * option value) :=
                [("output_dir", Some (VStr (output_dir model_name)));
                 ("do_train", Some (VBool true));
                 ("do_eval", Some (VBool do_eval));
                 ("evaluation_strategy",
                  Some (VStr (if do_eval then "steps" else "no")));
                 ("per_device_train_batch_size", Some (VInt bsz_tr));
                 ("per_device_eval_batch_size", Some (VInt bsz_vl));
                 ("gradient_accumulation_steps", VInt <$> gas);
                 ("eval_accumulation_steps", Some (VInt 128));
                 ("learning_rate", lr);
                 ("weight_decay", decay);
                 ("adam_beta1", Some (VFloat 9 (-1)));
                 ("adam_beta2", Some (VFloat 999 (-3)));
                 ("adam_epsilon", Some (VFloat 1 (-8)));
                 ("max_grad_norm", Some (VInt 1));
                 ("num_train_epochs", VInt <$> n_ep);
                 ("lr_scheduler_type", sch);
                 ("warmup_ratio", Some (VFloat 1 (-2)));
                 ("log_level", Some (VStr "info"));
                 ("log_level_replica", Some (VStr "info"));
                 ("logging_strategy", Some (VStr "steps"));
                 ("logging_steps", Some (VInt 1));
                 ("save_strategy", Some (VStr "epoch"));
                 ("fp16", Some (VBool cuda_is_available));
                 ("fp16_full_eval", Some (VBool true));
                 ("optim", Some (VOptimizerNames "ADAMW_TORCH"));
                 ("disable_tqdm", Some (VBool true));
                 ("remove_unused_columns", Some (VBool false));
                 ("report_to", Some (VStr "none"));
                 ("gradient_checkpointing",
                  Some (VBool (cuda_is_available && save_gpu_memory)))] in
              let train_args := default ∅ train_args in
              let args : gmap string value :=
                fold_left (fun m '(k, v) =>
                             match v with
                             | Some v => <[k := v]> m
                             | None => m
                             end) args ∅ in
              inr (train_args ∪ args)
          end
      end
  end.

(** The tokenizer of [get_all_setup] for ['debug-gpt-ori']: a plain GPT-2
    tokenizer, called on a list of texts; it returns one list of ids per
    text under each of its keys. *)
Variable tokenizer_ : list string -> list (string * list (list Z)).

(** [group_texts], the map function of [get_all_setup] for
    ['debug-gpt-ori']: the texts of a batch are tokenized, concatenated and
    cut into blocks of 512. *)
Definition group_texts (examples : list (string * list string))
  : exn + list (string * list (list Z)) :=
  match Util.dict_get examples "text" with
  | None => inl KeyError
  | Some texts =>
      let examples := tokenizer_ texts in
      let block_size := 512 in
      let concatenated_examples :=
        map (fun '(k, v) => (k, concat v)) examples in
      match concatenated_examples with
      | [] => inl IndexError
      | (_, t0) :: _ =>
          let total_length := len t0 in
          let total_length := (total_length / block_size) * block_size in
          match range3 0 total_length block_size with
          | inl e => inl e
          | inr starts =>
              let result :=
                map (fun '(k, t) =>
                       (k, map (fun i => slice t i (i + block_size)) starts))
                    concatenated_examples in
              match Util.dict_get result "input_ids" with
              | None => inl KeyError
              | Some ids => inr (dict_set result "labels" ids)
              end
          end
      end
  end.

End Setup.

End Training.

(** ** The label cache of the tokenizer: [ZsGPT2Tokenizer.Cache] *)

Module Cache.

(** The label column of a dataset on disk, as [__getitem__] reads it:
    whether the column is ['labels'], its [num_classes] and its [names]. *)
Record features : Type := mkFeatures {
  is_multi_label : bool;
  num_classes : Z;
  names : list string
}.

(** One entry of the cache.  [label2description] maps the position of a
    label to its description. *)
Record entry : Type := mkEntry {
  n_classes : Z;
  label2description : list string;
  max_label_id_length : Z
}.

Definition newline : string := String (ascii_of_nat 10) EmptyString.

(** [tpl_grouped.match(s).group('dataset_name')] for the pattern
    [^(?P<dataset_name>.?)-label-grouped$]: [.?] takes one character that
    is not a newline where the rest then matches, and none otherwise; [$]
    matches at the end of the string and before a newline that ends it. *)
Definition tpl_grouped_match (s : string) : option string :=
  let at_end (s' : string) : bool :=
    String.eqb s' "-label-grouped" ||
    String.eqb s' ("-label-grouped" +:+ newline) in
  match s with
  | String c s' =>
      if negb (Ascii.eqb c (ascii_of_nat 10)) && at_end s'
      then Some (String c EmptyString)
      else if at_end s then Some EmptyString else None
  | EmptyString => None
  end.

Section Cache.

Variable tokenizer : Tokenizer.t.

(** [datasets.load_from_disk(<path of dataset_name>)[split]], read down to
    the label column. *)
Variable load_from_disk : string -> string -> exn + features.

(** [config(f'UTCD.datasets.{dataset_name}.splits.{split}.labels')] *)
Variable config_labels : string -> string -> exn + list string.

(** [__getitem__]: the entry of [(dataset_name, split)], computed and
    stored on the first access. *)
Definition getitem (self : gmap string entry) (dataset_name split : string)
  : exn + (entry * gmap string entry) :=
  let key := dataset_name +:+ "-" +:+ split in
  match self !! key with
  | Some e => inr (e, self)
  | None =>
      match load_from_disk dataset_name split with
      | inl e => inl e
      | inr feats =>
          let n_cls := num_classes feats in
          match
            (if is_multi_label feats then
               match tpl_grouped_match dataset_name with
               | Some group => inr group
               | None => inl AttributeError
               end
             else inr dataset_name)
          with
          | inl e => inl e
          | inr dataset_name =>
              match config_labels dataset_name split with
              | inl e => inl e
              | inr labels =>
                  if bool_decide (names feats = labels) then
                    match max_py (map (fun lb =>
                                         len (Tokenizer.call_paren tokenizer None lb))
                                      (names feats)) with
                    | inl e => inl e
                    | inr max_len =>
                        let e := mkEntry n_cls (names feats) max_len in
                        inr (e, <[key := e]> self)
                    end
                  else inl AssertionError
              end
          end
      end
  end.

End Cache.

End Cache.

(** ** The question of a sample: lines 170-173 of [call_single] *)

Module Question.





End Question.

(** ** Paths of models and evaluations: [util.py] *)

Module Paths.

Section Paths.

(** [get_hostname()] of the project's utilities. *)
Variable get_hostname : string.

Variable BASE_PATH : string.

(** [u.proj_dir] and [u.model_dir] *)
Variable proj_dir model_dir : string.

(** [now(for_path=True)] and [now(fmt='short-date')] *)
Variable now_for_path now_short_date : string.

(** [os_join(a, *p)] *)
Definition os_join (a : string) (p : list string) : string :=
  fold_left Evaluate.os_path_join p a.

(** [on_great_lakes] *)
Definition on_great_lakes : bool := str_in "arc-ts" get_hostname.

(** [get_base_path] *)
Definition get_base_path : string :=
  let hnm := get_hostname in
  if str_in "clarity" hnm then "/data"
  else if on_great_lakes then
    os_join "/scratch" ["profmars_root"; "profmars0"; "stefanhg"]
  else BASE_PATH.

(** [map_model_dir_nm] *)
Definition map_model_dir_nm (model_name name mode sampling : option string)
    (normalize_aspect : bool) : string :=
  let out := now_for_path +:+ "_" +:+ Util.fmt model_name in
  let out := if truthy name then out +:+ "-" +:+ Util.fmt name else out in
  let out := if truthy mode then out +:+ "-" +:+ Util.fmt mode else out in
  let out := if truthy sampling then out +:+ "-" +:+ Util.fmt sampling else out in
  let out := if normalize_aspect then out +:+ "-aspect-norm" else out in
  out.

(** [map_model_output_path]; [os.sep] is the slash. *)
Definition map_model_output_path (model_name output_path mode sampling : option string)
    (normalize_aspect : bool) : exn + string :=
  let _map dir_nm :=
    map_model_dir_nm model_name dir_nm mode sampling normalize_aspect in
  match output_path with
  | Some output_path' =>
      if negb (String.eqb output_path' "") then
        let paths := split "/" output_path' in
        match last paths with
        | None => inl IndexError
        | Some dir_nm =>
            let output_dir := _map (Some dir_nm) in
            match slice_to paths (-1) with
            | [] => inr (os_join output_dir [])
            | a :: p => inr (os_join a (p ++ [output_dir]))
            end
        end
      else inr (os_join get_base_path [proj_dir; model_dir; _map None])
  | None => inr (os_join get_base_path [proj_dir; model_dir; _map None])
  end.

(** [domain2eval_dir_nm] *)
Definition domain2eval_dir_nm (domain : string) : string :=
  let domain_str :=
    if String.eqb domain "in" then "in-domain" else "out-of-domain" in
  let date := now_short_date in
  date +:+ "_" +:+ domain_str.

End Paths.

End Paths.

(** * The vocabulary of the properties *)

(** Computations that emit no warning. *)
Definition silent {A : Type} (m : M A) : Prop := warnings_of m = [].

Section TokenizerVocabulary.

Import Tokenizer.

Variable tk : Tokenizer.t.

(** The id of a special token. *)
Definition spec_id (tok : string) : Z := hd 0 (encode tk tok).

Definition special_tokens : list string :=
  [boq_token tk; bot_token tk; boa_token tk; eos_token tk; pad_token tk;
   question_type_token tk; text_type_token tk; answer_type_token tk].

(** Every special token is one token of the vocabulary, as after
    [add_special_tokens] in [__init__]: the sanity check of [enc_spec]
    holds. *)
Definition well_formed : Prop :=
  Forall (fun tok => length (encode tk tok) = 1%nat) special_tokens.

(** The sequences that [call_single] builds from the question ids, the
    (cropped) text ids and the answer ids, before padding. *)
Definition seq_ids (for_prediction : bool) (ids_ques ids_text ids_answ : list Z)
  : list Z :=
  [spec_id (boq_token tk)] ++ ids_ques ++ [spec_id (eos_token tk)] ++
  [spec_id (bot_token tk)] ++ ids_text ++ [spec_id (eos_token tk)] ++
  [spec_id (boa_token tk)] ++
  (if for_prediction then [] else ids_answ ++ [spec_id (eos_token tk)]).

Definition seq_tids (for_prediction : bool) (ids_ques ids_text ids_answ : list Z)
  : list Z :=
  replicate_py (spec_id (question_type_token tk)) (1 + len ids_ques + 1) ++
  replicate_py (spec_id (text_type_token tk)) (1 + len ids_text + 1) ++
  replicate_py (spec_id (answer_type_token tk))
    (if for_prediction then 1 else 1 + len ids_answ + 1).

(** The number of context tokens, up to the answer token, inclusive. *)
Definition n_cont (ids_ques ids_text : list Z) : Z :=
  (1 + len ids_ques + 1) + (1 + len ids_text + 1) + 1.

Definition seq_pids (for_prediction : bool) (ids_ques ids_text ids_answ : list Z)
  : list Z :=
  range (n_cont ids_ques ids_text) ++
  map (fun i => i + model_max_length tk)
      (range (if for_prediction then 0 else len ids_answ + 1)).

Definition seq_len (for_prediction : bool) (ids_ques ids_text ids_answ : list Z)
  : Z :=
  n_cont ids_ques ids_text + (if for_prediction then 0 else len ids_answ + 1).

(** What [call_single] returns once the text is cropped: the built
    sequences, padded unless the call is for prediction. *)
Definition padded (kw_max_length : option Z) (for_prediction : bool)
    (int_pad : Z) (ints : list Z) : list Z :=
  if for_prediction then ints
  else pad_with (default (model_max_length tk) kw_max_length) int_pad ints.

Definition built (kw_max_length : option Z) (for_prediction : bool) (did : Z)
    (ids_ques ids_text ids_answ : list Z) : encoding :=
  let fin := padded kw_max_length for_prediction in
  let ids := seq_ids for_prediction ids_ques ids_text ids_answ in
  mkEncoding
    (fin (spec_id (pad_token tk)) ids)
    (fin 0 (replicate_py 1 (len ids)))
    (fin (spec_id (pad_token tk)) (seq_tids for_prediction ids_ques ids_text ids_answ))
    (fin 0 (seq_pids for_prediction ids_ques ids_text ids_answ))
    did.

(** The number of text ids that the cropping step leaves room for (the
    [ln_t_] of the code): in training what [max_len_single_sentence] leaves
    after the question and the answer, in prediction what is left once the
    longest label of the dataset and an end token can still be generated. *)
Definition text_budget (for_prediction : bool) (names : list string)
    (ids_ques ids_answ : list Z) : exn + Z :=
  if for_prediction then
    match max_py (map (fun lb => len (call_paren tk None lb)) names) with
    | inl e => inl e
    | inr max_label =>
        inr (model_max_length tk - 1 - max_label -
             ((1 + len ids_ques + 1) + (1 + 1) + 1))
    end
  else inr (max_len_single_sentence tk - (len ids_ques + len ids_answ)).

Definition crop_warning (for_prediction : bool) (dset_nm : string)
    (ids_ques ids_text ids_answ : list Z) (ln_t_ : Z) : warning :=
  if for_prediction then
    WarnCropInference dset_nm (n_cont ids_ques ids_text) (model_max_length tk)
      (len ids_text) ln_t_
  else
    WarnCropTraining dset_nm (len ids_ques + len ids_text + len ids_answ + 6)
      (model_max_length tk) (len ids_text) ln_t_.


(** The cropping step raises nothing. *)
Definition crop_ok (for_prediction : bool) (names : list string)
    (ids_ques ids_text ids_answ : list Z) : Prop :=
  exists b, text_budget for_prediction names ids_ques ids_answ = inr b /\
            (b < len ids_text -> 0 < b).

(** The text ids that enter the sequence. *)
Definition text_kept (ids_text : list Z) (b : Z) : list Z :=
  if len ids_text >? b then slice_to ids_text b else ids_text.

End TokenizerVocabulary.

(** A small tokenizer to run the examples on: the special tokens get the ids
    that follow GPT-2's vocabulary, any other string is encoded character by
    character. *)
Definition toy_encode (s : string) : list Z :=
  if String.eqb s "<|endoftext|>" then [50256]
  else if String.eqb s "[PAD]" then [50257]
  else if String.eqb s Tokenizer.pref_ques then [50258]
  else if String.eqb s Tokenizer.pref_text then [50259]
  else if String.eqb s Tokenizer.pref_answ then [50260]
  else if String.eqb s Tokenizer.type_ques then [50261]
  else if String.eqb s Tokenizer.type_text then [50262]
  else if String.eqb s Tokenizer.type_answ then [50263]
  else map (fun c => Z.of_nat (nat_of_ascii c)) (list_ascii_of_string s).

Definition toy_tokenizer (model_max_length : Z) : Tokenizer.t :=
  Tokenizer.mk model_max_length (fun _ => toy_encode) toy_encode
    "<|endoftext|>" "[PAD]".

(** A checkpoint loader to run the example on: row [i] of every positional
    embedding it loads holds the number [i]. *)
Definition toy_load (m : @Model.model Z unit) : @Model.model Z unit :=
  Model.mkModel (imap (fun i _ => Z.of_nat i) (Model.wpe m)) (Model.others m).

(** Stand-ins to run the examples on.  [substr_indices] lists the start
    positions of the occurrences of a non-empty [sub], scanning from the left
    and resuming after each occurrence; [ascii_lower] lowers the letters A-Z. *)
Fixpoint substr_indices_from (sub : string) (skip pos : nat) (s : string)
  : list nat :=
  match s with
  | EmptyString => []
  | String _ s' =>
      match skip with
      | S skip' => substr_indices_from sub skip' (S pos) s'
      | O =>
          if String.prefix sub s
          then pos :: substr_indices_from sub (String.length sub - 1) (S pos) s'
          else substr_indices_from sub 0 (S pos) s'
      end
  end.

Definition substr_indices (s sub : string) : list nat :=
  substr_indices_from sub 0 0 s.

Definition ascii_lower_char (c : ascii) : ascii :=
  let n := nat_of_ascii c in
  if ((65 <=? n) && (n <=? 90))%nat then ascii_of_nat (n + 32) else c.

Fixpoint ascii_lower (s : string) : string :=
  match s with
  | EmptyString => EmptyString
  | String c s' => String (ascii_lower_char c) (ascii_lower s')
  end.

Section ParsingVocabulary.

Import Evaluate.

Variable get_substr_indices : string -> string -> list nat.
Variable lower : string -> string.
Variable tkzer : Tokenizer.t.

(** The generated text after the first answer token. *)
Definition answer_with_eos (generated : string) : string :=
  match get_substr_indices generated (Tokenizer.boa_token tkzer) with
  | i0 :: _ =>
      str_drop (i0 + String.length (Tokenizer.boa_token tkzer)) generated
  | [] => EmptyString
  end.

(** A malformed generation: the answer token occurs more than once, or it
    occurs once and no end token follows it. *)
Definition malformed (generated : string) : Prop :=
  1 < len (get_substr_indices generated (Tokenizer.boa_token tkzer)) \/
  (len (get_substr_indices generated (Tokenizer.boa_token tkzer)) = 1 /\
   get_substr_indices (answer_with_eos generated) (Tokenizer.eos_token tkzer) = []).

(** The text between the first answer token and the next end token, in
    lower case. *)
Definition answer_of (generated : string) : option string :=
  match get_substr_indices (answer_with_eos generated)
          (Tokenizer.eos_token tkzer) with
  | e0 :: _ => Some (lower (str_take e0 (answer_with_eos generated)))
  | [] => None
  end.

(** The dictionary [lb2id] agrees with the labels: a stored index points at
    a label with that lower-case form, a stored -1 at a key that no label
    has, and every label is a key. *)
Definition label_index (labels : list string) (k : string) (v : Z) : Prop :=
  0 <= v /\ exists lb, labels !! Z.to_nat v = Some lb /\ lower lb = k.

Definition lb2id_ok (labels : list string) (m : gmap string Z) : Prop :=
  (forall k v, m !! k = Some v ->
     (v = -1 /\ forall lb, lb ∈ labels -> lower lb <> k) \/
     label_index labels k v) /\
  (forall lb, lb ∈ labels -> is_Some (m !! lower lb)).

End ParsingVocabulary.

(** The state carried by the loop over batches fits a dataset of [n]
    samples. *)
Definition state_ok (lower : string -> string) (labels : list string) (n : nat)
    (st : Evaluate.state) : Prop :=
  lb2id_ok lower labels (Evaluate.lb2id st) /\
  length (Evaluate.preds st) = n /\ length (Evaluate.trues st) = n.

(** The trained model answers every sample of a batch, and each generation
    holds the answer token of its prompt and no other. *)
Definition generations_ok (get_substr_indices : string -> string -> list nat)
    (tkzer : Tokenizer.t) (generate : list (list Z) -> list string) : Prop :=
  forall inputs,
    length (generate inputs) = length inputs /\
    Forall (fun g =>
              length (get_substr_indices g (Tokenizer.boa_token tkzer)) = 1%nat)
           (generate inputs).

(** A configuration to run the examples on. *)
Definition toy_strategy_config : Util.strategy_config :=
  Util.mkStrategyConfig "<|ASPECT-SEP|>"
    (<["sentiment" := "<|sentiment|>"]>
       (<["intent" := "<|intent|>"]> (<["topic" := "<|topic|>"]> ∅)))
    ["vanilla"; "implicit"; "implicit-on-text-encode-aspect";
     "implicit-on-text-encode-sep"; "explicit"].

(** The loop passes over a dataset of the other domain, and over every
    dataset but ['multi_eurlex']. *)
Definition skipped (in_domain : bool) (entry : string * Evaluate.dataset_info)
  : Prop :=
  Evaluate.out_of_domain entry.2 <> negb in_domain \/ entry.1 <> "multi_eurlex".

(** A run of the loop on a toy configuration: the trained model always
    answers ["Sports"], the report is kept as the arguments it is computed
    from. *)
Definition toy_generate (inputs : list (list Z)) : list string :=
  map (fun _ =>
         "<|question|>q<|endoftext|><|text|>t<|endoftext|><|answer|>Sports<|endoftext|>")
      inputs.

Definition toy_dset (dnm_disk : string) : list Evaluate.sample :=
  [Evaluate.mkSample [50258; 1; 50260] [1];
   Evaluate.mkSample [50258; 50260] [0];
   Evaluate.mkSample [50258; 2; 50260] [0; 1]].

Definition toy_report : Type := (list Z * list Z * list Z * list string)%type.

Definition toy_classification_report (y_true y_pred labels : list Z)
    (target_names : list string) : toy_report :=
  (y_true, y_pred, labels, target_names).

Definition toy_datasets : list (string * Evaluate.dataset_info) :=
  [("ag_news", Evaluate.mkInfo false false ["World"; "Sports"]);
   ("multi_eurlex", Evaluate.mkInfo false true ["World"; "Sports"])].

(** Two runs that emit the same warnings and end alike: with the same
    exception, or with results that [R] relates. *)
Definition same_run {A : Type} (R : A -> A -> Prop) (m1 m2 : M A) : Prop :=
  warnings_of m1 = warnings_of m2 /\
  match outcome_of m1, outcome_of m2 with
  | inl e1, inl e2 => e1 = e2
  | inr a1, inr a2 => R a1 a2
  | _, _ => False
  end.

(** Two states of the loop over batches that differ at most in the entries
    of the result arrays outside [W]; both arrays have [n] entries. *)
Definition agree_on (n : nat) (W : nat -> Prop) (st1 st2 : Evaluate.state)
  : Prop :=
  Evaluate.lb2id st1 = Evaluate.lb2id st2 /\
  (length (Evaluate.preds st1) = n /\ length (Evaluate.preds st2) = n) /\
  (length (Evaluate.trues st1) = n /\ length (Evaluate.trues st2) = n) /\
  forall i, W i ->
    Evaluate.preds st1 !! i = Evaluate.preds st2 !! i /\
    Evaluate.trues st1 !! i = Evaluate.trues st2 !! i.

(** A plain tokenizer to run [group_texts] on: the ids of [toy_encode] and
    an attention mask of ones. *)
Definition toy_plain_tokenizer (texts : list string)
  : list (string * list (list Z)) :=
  [("input_ids", map toy_encode texts);
   ("attention_mask", map (fun t => map (fun _ => 1) (toy_encode t)) texts)].

(** A text of 600 characters. *)
Definition toy_long_text : string :=
  string_of_list_ascii (replicate 600 "a"%char).

(** * Properties *)

(** ** Python lists *)

Section PyLemmas.

Context {A : Type}.
Implicit Types (l : list A) (x : A) (n : Z).

Lemma len_nonneg l : 0 <= len l.
Proof. unfold len. lia. Qed.

Lemma len_app l1 l2 : len (l1 ++ l2) = len l1 + len l2.
Proof. unfold len. rewrite length_app. lia. Qed.

Lemma len_cons x l : len (x :: l) = 1 + len l.
Proof. unfold len. cbn [length]. lia. Qed.

Lemma len_nil : len (@nil A) = 0.
Proof. reflexivity. Qed.

Lemma len_replicate_py x n : len (replicate_py x n) = Z.max 0 n.
Proof. unfold len, replicate_py. rewrite length_replicate. lia. Qed.

Lemma len_slice_to_pos l n : 0 <= n -> len (slice_to l n) = Z.min n (len l).
Proof.
  intros Hn. unfold slice_to.
  destruct (Z.ltb_spec n 0) as [?|_]; [lia|].
  unfold len. rewrite length_take. lia.
Qed.

Lemma slice_to_pos l n : 0 <= n -> slice_to l n = take (Z.to_nat n) l.
Proof.
  intros Hn. unfold slice_to.
  destruct (Z.ltb_spec n 0); [lia | reflexivity].
Qed.

Lemma slice_to_neg l n : n < 0 -> slice_to l n = take (Z.to_nat (len l + n)) l.
Proof.
  intros Hn. unfold slice_to.
  destruct (Z.ltb_spec n 0); [reflexivity | lia].
Qed.

(** Dropping the last [k] elements of [l1 ++ l2] when [l2] has [k]. *)
Lemma slice_to_drop_suffix l1 l2 :
  l2 <> [] -> slice_to (l1 ++ l2) (- len l2) = l1.
Proof.
  intros Hne.
  assert (0 < len l2) by (destruct l2; [done | rewrite len_cons; pose proof (len_nonneg l2); lia]).
  rewrite slice_to_neg by lia.
  rewrite len_app.
  replace (Z.to_nat (len l1 + len l2 + - len l2)) with (length l1)
    by (unfold len; lia).
  by rewrite take_app_length.
Qed.

End PyLemmas.

Lemma len_range n : len (range n) = Z.max 0 n.
Proof. unfold len, range. rewrite length_map, length_seq. lia. Qed.

Lemma len_map {A B : Type} (f : A -> B) (l : list A) : len (map f l) = len l.
Proof. unfold len. by rewrite length_map. Qed.

Lemma elem_of_range (n i : Z) : i ∈ range n <-> 0 <= i < n.
Proof.
  unfold range. rewrite list_elem_of_In, in_map_iff. split.
  - intros (k & <- & Hk). apply in_seq in Hk. lia.
  - intros Hi. exists (Z.to_nat i). split; [lia|]. apply in_seq. lia.
Qed.

(** ** The effect monad *)

Lemma bind_unfold {A B : Type} (m : M A) (f : A -> M B) :
  m ≫= f = bind m f.
Proof. reflexivity. Qed.

Lemma bind_ret {A B : Type} (a : A) (f : A -> M B) : ret a ≫= f = f a.
Proof. rewrite bind_unfold. unfold bind, ret. by destruct (f a). Qed.

Lemma bind_returns {A B : Type} (m : M A) (f : A -> M B) w a :
  m = (w, inr a) -> m ≫= f = (w ++ (f a).1, (f a).2).
Proof. intros ->. rewrite bind_unfold. unfold bind. by destruct (f a). Qed.

Lemma bind_returns_to {A B : Type} (m : M A) (f : A -> M B) w1 a w2 r :
  m = (w1, inr a) -> f a = (w2, r) -> m ≫= f = (w1 ++ w2, r).
Proof. intros -> Hf. rewrite bind_unfold. unfold bind. by rewrite Hf. Qed.

Lemma bind_raises {A B : Type} (m : M A) (f : A -> M B) w e :
  m = (w, inl e) -> m ≫= f = (w, inl e).
Proof. by intros ->. Qed.

Lemma bind_silent {A B : Type} (m : M A) (f : A -> M B) a :
  m = ([], inr a) -> m ≫= f = f a.
Proof. intros ->. rewrite bind_unfold. unfold bind. by destruct (f a). Qed.

Lemma assert_py_true {B : Type} (b : bool) (k : M B) :
  b = true -> (assert_py b;; k) = k.
Proof. intros ->. apply bind_ret. Qed.

Lemma assert_py_false {B : Type} (b : bool) (k : M B) :
  b = false -> (assert_py b;; k) = ([], inl AssertionError).
Proof. by intros ->. Qed.

Lemma warnings_of_bind {A B : Type} (m : M A) (f : A -> M B) :
  warnings_of (m ≫= f) =
  warnings_of m ++ match outcome_of m with
                   | inr a => warnings_of (f a)
                   | inl _ => []
                   end.
Proof.
  rewrite bind_unfold. destruct m as [w [e|a]]; cbn.
  - by rewrite app_nil_r.
  - by destruct (f a).
Qed.

Lemma bind_inr_inv {A B : Type} (m : M A) (f : A -> M B) w b :
  m ≫= f = (w, inr b) ->
  exists w1 a w2, m = (w1, inr a) /\ f a = (w2, inr b) /\ w = w1 ++ w2.
Proof.
  rewrite bind_unfold. unfold bind.
  destruct m as [w1 [e|a]]; [discriminate|].
  destruct (f a) as [w2 r] eqn:Hf. intros [= <- ->].
  by exists w1, a, w2.
Qed.

Lemma silent_ret {A : Type} (a : A) : silent (ret a).
Proof. reflexivity. Qed.

Lemma silent_raise {A : Type} (e : exn) : silent (@raise A e).
Proof. reflexivity. Qed.

Lemma silent_lift {A : Type} (r : exn + A) : silent (lift r).
Proof. reflexivity. Qed.

Lemma silent_assert_py (b : bool) : silent (assert_py b).
Proof. by destruct b. Qed.

Lemma silent_bind {A B : Type} (m : M A) (f : A -> M B) :
  silent m -> (forall a, silent (f a)) -> silent (m ≫= f).
Proof.
  unfold silent. intros Hm Hf. rewrite warnings_of_bind, Hm.
  destruct (outcome_of m); [reflexivity | apply Hf].
Qed.

Ltac silent_step :=
  first
    [ apply silent_ret
    | apply silent_raise
    | apply silent_lift
    | apply silent_assert_py
    | assumption
    | apply silent_bind; [| intros ?]
    | match goal with
      | |- silent (if ?b then _ else _) => destruct b
      | |- silent (match ?x with _ => _ end) => destruct x
      end ].

(** ** The tokenizer *)

Lemma replicate_py_add {A : Type} (x : A) (a b : Z) :
  0 <= a -> 0 <= b ->
  replicate_py x (a + b) = replicate_py x a ++ replicate_py x b.
Proof.
  intros Ha Hb. unfold replicate_py.
  rewrite Z2Nat.inj_add by lia. apply replicate_add.
Qed.

Lemma replicate_py_nonempty {A : Type} (x : A) (n : Z) :
  0 < n -> replicate_py x n <> [].
Proof.
  intros Hn Heq. apply (f_equal len) in Heq.
  rewrite len_replicate_py in Heq. change (len (@nil A)) with 0 in Heq. lia.
Qed.

Section TokenizerProperties.

Import Tokenizer.

Variable tk : Tokenizer.t.

Lemma enc_spec_single tok :
  length (encode tk tok) = 1%nat -> enc_spec tk tok = ret (spec_id tk tok).
Proof.
  unfold enc_spec, spec_id. intros Hlen.
  destruct (encode tk tok) as [|id_ [|? ?]]; cbn in Hlen; try lia.
  reflexivity.
Qed.


Lemma len_seq_ids fp q t a : len (seq_ids tk fp q t a) = seq_len fp q t a.
Proof.
  unfold seq_ids, seq_len, n_cont, len.
  destruct fp; rewrite ?length_app; cbn [length]; rewrite ?length_app;
    cbn [length]; lia.
Qed.

Lemma len_seq_tids fp q t a : len (seq_tids tk fp q t a) = seq_len fp q t a.
Proof.
  unfold seq_tids, seq_len, n_cont.
  pose proof (len_nonneg q). pose proof (len_nonneg t). pose proof (len_nonneg a).
  rewrite !len_app, !len_replicate_py. destruct fp; lia.
Qed.

Lemma len_seq_pids fp q t a : len (seq_pids tk fp q t a) = seq_len fp q t a.
Proof.
  unfold seq_pids, seq_len, n_cont.
  pose proof (len_nonneg q). pose proof (len_nonneg t). pose proof (len_nonneg a).
  rewrite len_app, len_map, !len_range. destruct fp; lia.
Qed.

Lemma call_single_after_crop kw fp dset_nm names did question text answer ws ids_text :
  well_formed tk ->
  crop_text tk fp dset_nm names (call_paren tk kw question)
    (call_paren tk kw text) (call_paren tk kw answer) = (ws, inr ids_text) ->
  call_single tk kw fp dset_nm names did question text answer =
  (ws, inr (built tk kw fp did (call_paren tk kw question) ids_text
              (call_paren tk kw answer))).
Proof.
  intros Hwf Hcrop. unfold call_single.
  unfold well_formed, special_tokens in Hwf.
  repeat match goal with
         | H : Forall _ (_ :: _) |- _ => apply Forall_cons in H as [? H]
         end.
  set (q := call_paren tk kw question) in *.
  set (a := call_paren tk kw answer) in *.
  rewrite (bind_returns _ _ _ _ Hcrop).
  rewrite !enc_spec_single by assumption. rewrite !bind_ret.
  pose proof (len_nonneg q) as Hq. pose proof (len_nonneg ids_text) as Ht.
  pose proof (len_nonneg a) as Ha.
  assert (forall m : M encoding, m = ([], inr (built tk kw fp did q ids_text a)) ->
            (ws ++ m.1, m.2) = (ws, inr (built tk kw fp did q ids_text a))) as Hfin.
  { intros m ->. cbn. by rewrite app_nil_r. }
  apply Hfin. clear Hfin.
  destruct fp.
  - (* prediction: the answer segment is cut back to its start token *)
    assert (slice_to
              ([spec_id tk (boq_token tk)] ++ q ++ [spec_id tk (eos_token tk)] ++
               [spec_id tk (bot_token tk)] ++ ids_text ++ [spec_id tk (eos_token tk)] ++
               [spec_id tk (boa_token tk)] ++ a ++ [spec_id tk (eos_token tk)])
              (- (1 + len a + 1 - 1)) = seq_ids tk true q ids_text a) as ->.
    { unfold seq_ids. rewrite app_nil_r.
      replace (1 + len a + 1 - 1) with (len (a ++ [spec_id tk (eos_token tk)]))
        by (unfold len; rewrite length_app; cbn [length]; lia).
      rewrite <- slice_to_drop_suffix
        with (l2 := a ++ [spec_id tk (eos_token tk)]) by (by destruct a).
      f_equal. by rewrite <- !app_assoc. }
    assert (slice_to
              (replicate_py (spec_id tk (question_type_token tk)) (1 + len q + 1) ++
               replicate_py (spec_id tk (text_type_token tk)) (1 + len ids_text + 1) ++
               replicate_py (spec_id tk (answer_type_token tk)) (1 + len a + 1))
              (- (1 + len a + 1 - 1)) = seq_tids tk true q ids_text a) as ->.
    { unfold seq_tids.
      replace (1 + len a + 1) with (1 + (len a + 1)) by lia.
      rewrite (replicate_py_add _ 1 (len a + 1)) by lia.
      replace (1 + (len a + 1) - 1)
        with (len (replicate_py (spec_id tk (answer_type_token tk)) (len a + 1)))
        by (rewrite len_replicate_py; lia).
      rewrite <- slice_to_drop_suffix
        with (l2 := replicate_py (spec_id tk (answer_type_token tk)) (len a + 1))
        by (apply replicate_py_nonempty; lia).
      f_equal. by rewrite <- !app_assoc. }
    rewrite assert_py_true
      by (apply Z.eqb_eq; rewrite len_seq_ids; unfold seq_len, n_cont; lia).
    rewrite bind_ret.
    rewrite assert_py_true.
    2:{ cbn [forallb]. rewrite len_replicate_py, len_seq_tids, len_app, len_map,
          !len_range, len_seq_ids. unfold seq_len, n_cont.
        rewrite !andb_true_iff, !Z.eqb_eq. lia. }
    rewrite !bind_ret. unfold built, padded, seq_pids.
    rewrite len_seq_ids. unfold seq_len, n_cont, ret.
    repeat f_equal; lia.
  - rewrite bind_ret.
    change ([spec_id tk (boq_token tk)] ++ q ++ [spec_id tk (eos_token tk)] ++
            [spec_id tk (bot_token tk)] ++ ids_text ++ [spec_id tk (eos_token tk)] ++
            [spec_id tk (boa_token tk)] ++ a ++ [spec_id tk (eos_token tk)])
      with (seq_ids tk false q ids_text a).
    change (replicate_py (spec_id tk (question_type_token tk)) (1 + len q + 1) ++
            replicate_py (spec_id tk (text_type_token tk)) (1 + len ids_text + 1) ++
            replicate_py (spec_id tk (answer_type_token tk)) (1 + len a + 1))
      with (seq_tids tk false q ids_text a).
    rewrite assert_py_true.
    2:{ cbn [forallb]. rewrite len_replicate_py, len_seq_tids, len_app, len_map,
          !len_range, len_seq_ids. unfold seq_len, n_cont.
        rewrite !andb_true_iff, !Z.eqb_eq. lia. }
    unfold pad. rewrite !enc_spec_single by assumption. rewrite !bind_ret.
    unfold built, padded, seq_pids.
    rewrite len_seq_ids. unfold seq_len, n_cont, ret.
    repeat f_equal; lia.
Qed.

Lemma crop_text_budget fp dset_nm names q t a b :
  text_budget tk fp names q a = inr b ->
  crop_text tk fp dset_nm names q t a =
  if len t >? b then
    if b >? 0 then ([crop_warning tk fp dset_nm q t a b], inr (slice_to t b))
    else ([], inl AssertionError)
  else ([], inr t).
Proof.
  unfold text_budget, crop_text, crop_warning, max_label_id_length, n_cont,
    max_len_single_sentence.
  destruct fp.
  - destruct (max_py _) as [e|m]; [discriminate|].
    intros [= <-]. unfold lift. rewrite bind_silent with (a := m) by done.
    destruct (Z.gtb_spec (1 + len q + 1 + (1 + len t + 1) + 1)
                (model_max_length tk - 1 - m));
      destruct (Z.gtb_spec (len t)
                  (model_max_length tk - 1 - m - (1 + len q + 1 + (1 + 1) + 1)));
      try lia; [|reflexivity].
    destruct (_ >? 0); reflexivity.
  - intros [= <-].
    destruct (Z.gtb_spec (len q + len t + len a) (model_max_length tk - 2 * 3));
      destruct (Z.gtb_spec (len t)
                  (model_max_length tk - 2 * 3 - (len q + len a)));
      try lia; [|reflexivity].
    destruct (_ >? 0); reflexivity.
Qed.

Lemma crop_text_error fp dset_nm names q t a e :
  text_budget tk fp names q a = inl e ->
  crop_text tk fp dset_nm names q t a = ([], inl e).
Proof.
  unfold text_budget, crop_text, max_label_id_length.
  destruct fp; [|discriminate].
  destruct (max_py _) as [e'|m]; [|discriminate].
  by intros [= <-].
Qed.

Lemma crop_text_ok fp dset_nm names q t a b :
  text_budget tk fp names q a = inr b ->
  (b < len t -> 0 < b) ->
  crop_text tk fp dset_nm names q t a =
  (if len t >? b then [crop_warning tk fp dset_nm q t a b] else [],
   inr (text_kept t b)).
Proof.
  intros Hb Hpos. rewrite (crop_text_budget _ _ _ _ _ _ _ Hb).
  unfold text_kept.
  destruct (Z.gtb_spec (len t) b); [|reflexivity].
  destruct (Z.gtb_spec b 0); [reflexivity | lia].
Qed.

Lemma len_text_kept t b :
  (b < len t -> 0 < b) -> len (text_kept t b) = Z.min (len t) b.
Proof.
  intros Hpos. unfold text_kept.
  destruct (Z.gtb_spec (len t) b); [|lia].
  rewrite len_slice_to_pos by lia. lia.
Qed.




End TokenizerProperties.

Lemma max_py_ge (l : list Z) (m x : Z) :
  max_py l = inr m -> x ∈ l -> x <= m.
Proof.
  destruct l as [|y l]; [discriminate|]. cbn. intros [= <-].
  assert (forall l' acc, acc <= fold_left Z.max l' acc) as Hacc.
  { induction l' as [|z l' IH]; intros acc; cbn; [lia|].
    etransitivity; [|apply IH]. lia. }
  assert (forall l' acc, x ∈ l' -> x <= fold_left Z.max l' acc) as Hin.
  { induction l' as [|z l' IH]; intros acc; [by intros ?%elem_of_nil|].
    intros [->|?]%elem_of_cons; cbn; [|by apply IH].
    etransitivity; [|apply Hacc]. lia. }
  intros [->|?]%elem_of_cons; [apply Hacc | by apply Hin].
Qed.

Lemma len_pad_with_le (m p : Z) (l : list Z) :
  len l <= m -> Tokenizer.pad_with m p l = l ++ replicate_py p (m - len l).
Proof.
  intros Hle. unfold Tokenizer.pad_with.
  destruct (Z.gtb_spec (len l) m); [lia | reflexivity].
Qed.

Lemma len_pad_with_congr (m p1 p2 : Z) (l1 l2 : list Z) :
  len l1 = len l2 ->
  len (Tokenizer.pad_with m p1 l1) = len (Tokenizer.pad_with m p2 l2).
Proof.
  intros Hlen. unfold Tokenizer.pad_with, slice_to. rewrite Hlen.
  destruct (len l2 >? m).
  - destruct (m <? 0); unfold len in *; rewrite !length_take; lia.
  - rewrite !len_app, !len_replicate_py. lia.
Qed.

Lemma len_padded_congr tk kw fp (p1 p2 : Z) (l1 l2 : list Z) :
  len l1 = len l2 ->
  len (padded tk kw fp p1 l1) = len (padded tk kw fp p2 l2).
Proof.
  intros Hlen. unfold padded. destruct fp; [done|].
  by apply len_pad_with_congr.
Qed.

(** Whenever the cropping step raises nothing, [call_single] returns the
    built sequences. *)
Lemma call_single_returns tk kw fp dset_nm names did question text answer b :
  well_formed tk ->
  text_budget tk fp names (Tokenizer.call_paren tk kw question)
    (Tokenizer.call_paren tk kw answer) = inr b ->
  (b < len (Tokenizer.call_paren tk kw text) -> 0 < b) ->
  Tokenizer.call_single tk kw fp dset_nm names did question text answer =
  (if len (Tokenizer.call_paren tk kw text) >? b
   then [crop_warning tk fp dset_nm (Tokenizer.call_paren tk kw question)
           (Tokenizer.call_paren tk kw text) (Tokenizer.call_paren tk kw answer) b]
   else [],
   inr (built tk kw fp did (Tokenizer.call_paren tk kw question)
          (text_kept (Tokenizer.call_paren tk kw text) b)
          (Tokenizer.call_paren tk kw answer))).
Proof.
  intros Hwf Hb Hpos.
  apply call_single_after_crop; [done|].
  by apply crop_text_ok.
Qed.

(** When the assertion of the cropping step fails, nothing is returned. *)
Lemma call_single_raises tk kw fp dset_nm names did question text answer b :
  text_budget tk fp names (Tokenizer.call_paren tk kw question)
    (Tokenizer.call_paren tk kw answer) = inr b ->
  b < len (Tokenizer.call_paren tk kw text) -> b <= 0 ->
  Tokenizer.call_single tk kw fp dset_nm names did question text answer =
  ([], inl AssertionError).
Proof.
  intros Hb Hlt Hle. unfold Tokenizer.call_single.
  rewrite (crop_text_budget _ _ _ _ _ _ _ _ Hb).
  destruct (Z.gtb_spec (len (Tokenizer.call_paren tk kw text)) b); [|lia].
  destruct (Z.gtb_spec b 0); [lia | reflexivity].
Qed.

(** Whatever [call_single] returns, the cropping step raised nothing and the
    result is the built sequences. *)
Lemma call_single_returned tk kw fp dset_nm names did question text answer ws out :
  well_formed tk ->
  Tokenizer.call_single tk kw fp dset_nm names did question text answer
    = (ws, inr out) ->
  exists b,
    text_budget tk fp names (Tokenizer.call_paren tk kw question)
      (Tokenizer.call_paren tk kw answer) = inr b /\
    (b < len (Tokenizer.call_paren tk kw text) -> 0 < b) /\
    ws = (if len (Tokenizer.call_paren tk kw text) >? b
          then [crop_warning tk fp dset_nm (Tokenizer.call_paren tk kw question)
                  (Tokenizer.call_paren tk kw text)
                  (Tokenizer.call_paren tk kw answer) b]
          else []) /\
    out = built tk kw fp did (Tokenizer.call_paren tk kw question)
            (text_kept (Tokenizer.call_paren tk kw text) b)
            (Tokenizer.call_paren tk kw answer).
Proof.
  intros Hwf Hcall.
  destruct (text_budget tk fp names (Tokenizer.call_paren tk kw question)
              (Tokenizer.call_paren tk kw answer)) as [e|b] eqn:Hb.
  { unfold Tokenizer.call_single in Hcall.
    rewrite (crop_text_error _ _ _ _ _ _ _ _ Hb) in Hcall. discriminate Hcall. }
  assert (b < len (Tokenizer.call_paren tk kw text) -> 0 < b) as Hpos.
  { intros Hlt. destruct (Z_lt_le_dec 0 b) as [|Hle]; [done|].
    rewrite (call_single_raises _ _ _ _ _ _ _ _ _ _ Hb Hlt Hle) in Hcall.
    discriminate Hcall. }
  exists b. split; [done|]. split; [done|].
  rewrite (call_single_returns _ _ _ _ _ _ _ _ _ _ Hwf Hb Hpos) in Hcall.
  by injection Hcall as <- <-.
Qed.

(** [call_single] returns exactly when the cropping step raises nothing. *)
Lemma call_single_returns_iff tk kw fp dset_nm names did question text answer :
  well_formed tk ->
  crop_ok tk fp names (Tokenizer.call_paren tk kw question)
    (Tokenizer.call_paren tk kw text) (Tokenizer.call_paren tk kw answer) <->
  exists ws out,
    Tokenizer.call_single tk kw fp dset_nm names did question text answer
      = (ws, inr out).
Proof.
  intros Hwf. split.
  - intros (b & Hb & Hpos). eexists _, _.
    by apply (call_single_returns _ _ _ _ _ _ _ _ _ b).
  - intros (ws & out & Hcall).
    destruct (call_single_returned _ _ _ _ _ _ _ _ _ _ _ Hwf Hcall)
      as (b & Hb & Hpos & _). by exists b.
Qed.


Lemma toy_tokenizer_well_formed n : well_formed (toy_tokenizer n).
Proof. unfold well_formed, special_tokens. repeat constructor. Qed.

Example call_single_fits :
  Tokenizer.call_single (toy_tokenizer 12) None false "d" ["a"; "bb"] 7 "q" "ab" "z" =
  ([], inr (Tokenizer.mkEncoding
              [50258; 113; 50256; 50259; 97; 98; 50256; 50260; 122; 50256; 50257; 50257]
              [1; 1; 1; 1; 1; 1; 1; 1; 1; 1; 0; 0]
              [50261; 50261; 50261; 50262; 50262; 50262; 50262; 50263; 50263; 50263; 50257; 50257]
              [0; 1; 2; 3; 4; 5; 6; 7; 12; 13; 0; 0]
              7)).
Proof. reflexivity. Qed.

Example call_single_crops :
  Tokenizer.call_single (toy_tokenizer 12) None false "d" ["a"; "bb"] 7 "q" "abcde" "z" =
  ([WarnCropTraining "d" 13 12 5 4],
   inr (Tokenizer.mkEncoding
          [50258; 113; 50256; 50259; 97; 98; 99; 100; 50256; 50260; 122; 50256]
          [1; 1; 1; 1; 1; 1; 1; 1; 1; 1; 1; 1]
          [50261; 50261; 50261; 50262; 50262; 50262; 50262; 50262; 50262; 50263; 50263; 50263]
          [0; 1; 2; 3; 4; 5; 6; 7; 8; 9; 12; 13]
          7)).
Proof. reflexivity. Qed.

Example call_single_for_prediction :
  Tokenizer.call_single (toy_tokenizer 12) None true "d" ["a"; "bb"] 7 "q" "abcde" "z" =
  ([WarnCropInference "d" 11 12 5 3],
   inr (Tokenizer.mkEncoding
          [50258; 113; 50256; 50259; 97; 98; 99; 50256; 50260]
          [1; 1; 1; 1; 1; 1; 1; 1; 1]
          [50261; 50261; 50261; 50262; 50262; 50262; 50262; 50262; 50263]
          [0; 1; 2; 3; 4; 5; 6; 7; 8]
          7)).
Proof. reflexivity. Qed.

Example call_single_no_room :
  Tokenizer.call_single (toy_tokenizer 8) None false "d" ["a"; "bb"] 7 "q" "abcde" "z" =
  ([], inl AssertionError).
Proof. reflexivity. Qed.

(** The text is longer than its budget exactly when the sample exceeds the
    length limit: in training the three encodings together exceed
    [max_len_single_sentence], in prediction the context exceeds what
    [model_max_length] leaves once the longest label and an end token are
    set aside. *)
Lemma budget_exceeded_iff tk fp names (q t a : list Z) b :
  text_budget tk fp names q a = inr b ->
  b < len t <->
  if fp then
    exists max_label,
      max_py (map (fun lb => len (Tokenizer.call_paren tk None lb)) names)
        = inr max_label /\
      n_cont q t > Tokenizer.model_max_length tk - 1 - max_label
  else len q + len t + len a > Tokenizer.max_len_single_sentence tk.
Proof.
  unfold text_budget, n_cont. destruct fp.
  - destruct (max_py _) as [e|m]; [discriminate|]. intros [= <-]. split.
    + intros Hlt. exists m. split; [done | lia].
    + intros (m' & [= <-] & Hgt). lia.
  - intros [= <-]. lia.
Qed.

(** C1, as amended.  When the text is cropped, and in training mode the
    [max_length] of the call is not below [model_max_length] (as with its
    default), only the text ids are cut: the returned [input_ids] hold the
    complete question ids and, in training mode, the complete answer ids
    around the first [ln_t_] text ids; in prediction mode the context ends
    with the answer token and leaves room, within [model_max_length], for the
    encoding of every label of the dataset and an end token. *)
Theorem crop_keeps_question_and_answer
    tk kw fp dset_nm names did question text answer b :
  well_formed tk ->
  text_budget tk fp names (Tokenizer.call_paren tk kw question)
    (Tokenizer.call_paren tk kw answer) = inr b ->
  0 < b < len (Tokenizer.call_paren tk kw text) ->
  (fp = false -> Tokenizer.model_max_length tk
                 <= default (Tokenizer.model_max_length tk) kw) ->
  exists ws out,
    Tokenizer.call_single tk kw fp dset_nm names did question text answer
      = (ws, inr out) /\
    Tokenizer.input_ids out =
      [spec_id tk (Tokenizer.boq_token tk)] ++
      Tokenizer.call_paren tk kw question ++
      [spec_id tk (Tokenizer.eos_token tk)] ++
      [spec_id tk (Tokenizer.bot_token tk)] ++
      take (Z.to_nat b) (Tokenizer.call_paren tk kw text) ++
      [spec_id tk (Tokenizer.eos_token tk)] ++
      [spec_id tk (Tokenizer.boa_token tk)] ++
      (if fp then []
       else Tokenizer.call_paren tk kw answer ++
            [spec_id tk (Tokenizer.eos_token tk)] ++
            replicate_py (spec_id tk (Tokenizer.pad_token tk))
              (default (Tokenizer.model_max_length tk) kw
               - Tokenizer.model_max_length tk)) /\
    (fp = true ->
     forall lb, lb ∈ names ->
       len (Tokenizer.input_ids out) + len (Tokenizer.call_paren tk None lb) + 1
       <= Tokenizer.model_max_length tk).
Proof.
  intros Hwf Hb Hlt Hmax.
  eexists _, _. split.
  { apply (call_single_returns _ _ _ _ _ _ _ _ _ b); [done | done | lia]. }
  set (q := Tokenizer.call_paren tk kw question) in *.
  set (t := Tokenizer.call_paren tk kw text) in *.
  set (a := Tokenizer.call_paren tk kw answer) in *.
  assert (text_kept t b = take (Z.to_nat b) t) as Hkept.
  { unfold text_kept. destruct (Z.gtb_spec (len t) b); [|lia].
    apply slice_to_pos. lia. }
  assert (len (take (Z.to_nat b) t) = b) as Hlen.
  { rewrite <- slice_to_pos by lia. rewrite len_slice_to_pos by lia. lia. }
  cbn [built Tokenizer.input_ids]. rewrite Hkept.
  pose proof (len_nonneg q) as Hq. pose proof (len_nonneg a) as Ha.
  destruct fp; unfold padded.
  - split; [reflexivity|]. intros _ lb Hlb.
    rewrite len_seq_ids. unfold seq_len, n_cont. rewrite Hlen.
    unfold text_budget in Hb.
    destruct (max_py _) as [e|m] eqn:Hm; [discriminate|].
    injection Hb as <-.
    assert (len (Tokenizer.call_paren tk None lb) <= m).
    { apply (max_py_ge _ _ _ Hm).
      apply list_elem_of_In, in_map_iff. exists lb.
      split; [done | by apply list_elem_of_In]. }
    lia.
  - split; [|discriminate].
    unfold text_budget, Tokenizer.max_len_single_sentence in Hb.
    injection Hb as Hb.
    rewrite len_pad_with_le
      by (rewrite len_seq_ids; unfold seq_len, n_cont; specialize (Hmax eq_refl); lia).
    rewrite len_seq_ids. unfold seq_len, n_cont, seq_ids. rewrite Hlen.
    rewrite <- !app_assoc.
    replace (1 + len q + 1 + (1 + b + 1) + 1 + (len a + 1))
      with (Tokenizer.model_max_length tk) by lia.
    reflexivity.
Qed.

Lemma crop_keeps_question_and_answer_witness :
  well_formed (toy_tokenizer 12) /\
  text_budget (toy_tokenizer 12) false ["a"; "bb"] (toy_encode "q") (toy_encode "z")
    = inr 4 /\
  0 < 4 < len (toy_encode "abcde") /\
  exists ws out,
    Tokenizer.call_single (toy_tokenizer 12) None false "d" ["a"; "bb"] 7
      "q" "abcde" "z" = (ws, inr out) /\
    Tokenizer.input_ids out =
      [50258; 113; 50256; 50259; 97; 98; 99; 100; 50256; 50260; 122; 50256].
Proof.
  split; [apply toy_tokenizer_well_formed|].
  split; [reflexivity|].
  split; [vm_compute; split; reflexivity|].
  destruct (crop_keeps_question_and_answer (toy_tokenizer 12) None false "d"
              ["a"; "bb"] 7 "q" "abcde" "z" 4)
    as (ws & out & Hcall & Hids & _).
  - apply toy_tokenizer_well_formed.
  - reflexivity.
  - vm_compute; split; reflexivity.
  - intros _. vm_compute. discriminate.
  - exists ws, out. split; [exact Hcall|]. rewrite Hids. reflexivity.
Defined.

(** C1, as stated, fails in two ways.  In training mode, when the call gives
    a [max_length] below [model_max_length]: the combined ids exceed the
    limit, the text is cropped so that the sequence fills
    [model_max_length], and the padding step then truncates the sequence,
    answer included.  In prediction mode: the answer segment is cut back to
    its start token, so that the answer ids of the sample are not part of
    the returned [input_ids]. *)
Lemma short_max_length_crops_the_answer :
  (exists ws out,
     Tokenizer.call_single (toy_tokenizer 10) (Some 8) false "d" ["a"; "bb"] 7
       "q" "abc" "z" = (ws, inr out) /\
     len (toy_encode "q") + len (toy_encode "abc") + len (toy_encode "z")
       > Tokenizer.max_len_single_sentence (toy_tokenizer 10) /\
     toy_encode "z" = [122] /\
     Tokenizer.input_ids out = [50258; 113; 50256; 50259; 97; 98; 50256; 50260] /\
     122 ∉ Tokenizer.input_ids out) /\
  (exists ws out,
     Tokenizer.call_single (toy_tokenizer 12) None true "d" ["a"; "bb"] 7
       "q" "abcde" "z" = (ws, inr out) /\
     ws = [WarnCropInference "d" 11 12 5 3] /\
     toy_encode "z" = [122] /\
     Tokenizer.input_ids out
       = [50258; 113; 50256; 50259; 97; 98; 99; 50256; 50260] /\
     122 ∉ Tokenizer.input_ids out).
Proof.
  split.
  - eexists _, _. split; [reflexivity|].
    split; [reflexivity|]. split; [reflexivity|]. split; [reflexivity|].
    intros H%list_elem_of_In. cbn in H.
    repeat (destruct H as [H|H]; [discriminate H|]). exact H.
  - eexists _, _. split; [reflexivity|].
    split; [reflexivity|]. split; [reflexivity|]. split; [reflexivity|].
    intros H%list_elem_of_In. cbn in H.
    repeat (destruct H as [H|H]; [discriminate H|]). exact H.
Qed.

(** C2.  [call_single] returns exactly when the cropping step raises nothing.
    The [input_ids] of every sample it returns are the concatenation of the
    question, text and answer segments, each between its start token and an
    end token (the answer segment being its start token alone in prediction
    mode), and the [position_ids] count the context from 0 and the answer
    part from [model_max_length], padded like every returned sequence in
    training mode.  Every position id of the answer part lies in
    [[model_max_length, 2 * model_max_length)]. *)
Theorem call_single_sequence
    tk kw fp dset_nm names did question text answer :
  well_formed tk ->
  (crop_ok tk fp names (Tokenizer.call_paren tk kw question)
     (Tokenizer.call_paren tk kw text) (Tokenizer.call_paren tk kw answer) <->
   exists ws out,
     Tokenizer.call_single tk kw fp dset_nm names did question text answer
       = (ws, inr out)) /\
  forall ws out,
  Tokenizer.call_single tk kw fp dset_nm names did question text answer
    = (ws, inr out) ->
  exists ids_text,
    Tokenizer.crop_text tk fp dset_nm names (Tokenizer.call_paren tk kw question)
      (Tokenizer.call_paren tk kw text) (Tokenizer.call_paren tk kw answer)
      = (ws, inr ids_text) /\
    let ids :=
      [spec_id tk (Tokenizer.boq_token tk)] ++
      Tokenizer.call_paren tk kw question ++
      [spec_id tk (Tokenizer.eos_token tk)] ++
      [spec_id tk (Tokenizer.bot_token tk)] ++
      ids_text ++
      [spec_id tk (Tokenizer.eos_token tk)] ++
      [spec_id tk (Tokenizer.boa_token tk)] ++
      (if fp then []
       else Tokenizer.call_paren tk kw answer ++
            [spec_id tk (Tokenizer.eos_token tk)]) in
    let n_cont := len (Tokenizer.call_paren tk kw question) + len ids_text + 5 in
    let pids_answer :=
      map (fun i => i + Tokenizer.model_max_length tk) (range (len ids - n_cont)) in
    Tokenizer.input_ids out = padded tk kw fp (spec_id tk (Tokenizer.pad_token tk)) ids /\
    Tokenizer.position_ids out = padded tk kw fp 0 (range n_cont ++ pids_answer) /\
    len pids_answer = (if fp then 0 else len (Tokenizer.call_paren tk kw answer) + 1) /\
    Forall (fun p => Tokenizer.model_max_length tk <= p
                     < 2 * Tokenizer.model_max_length tk) pids_answer.
Proof.
  intros Hwf. split; [by apply call_single_returns_iff|].
  intros ws out Hcall.
  destruct (call_single_returned _ _ _ _ _ _ _ _ _ _ _ Hwf Hcall)
    as (b & Hb & Hpos & -> & ->).
  set (q := Tokenizer.call_paren tk kw question) in *.
  set (t := Tokenizer.call_paren tk kw text) in *.
  set (a := Tokenizer.call_paren tk kw answer) in *.
  exists (text_kept t b).
  split; [by apply crop_text_ok|].
  cbn zeta. cbn [built Tokenizer.input_ids Tokenizer.position_ids].
  pose proof (len_nonneg q) as Hq. pose proof (len_nonneg a) as Ha.
  pose proof (len_nonneg (text_kept t b)) as Hk.
  pose proof (len_text_kept t b Hpos) as Hkept.
  fold (seq_ids tk fp q (text_kept t b) a). rewrite len_seq_ids.
  unfold seq_len, n_cont.
  replace (1 + len q + 1 + (1 + len (text_kept t b) + 1) + 1 +
           (if fp then 0 else len a + 1) - (len q + len (text_kept t b) + 5))
    with (if fp then 0 else len a + 1) by (destruct fp; lia).
  split; [reflexivity|]. split.
  { unfold seq_pids, n_cont. fold q t a. do 3 f_equal. lia. }
  split.
  { rewrite len_map, len_range. destruct fp; lia. }
  apply Forall_forall. intros p Hp.
  apply list_elem_of_In, in_map_iff in Hp as (i & <- & Hi).
  apply list_elem_of_In, elem_of_range in Hi.
  destruct fp; [lia|].
  unfold text_budget, Tokenizer.max_len_single_sentence in Hb.
  injection Hb as Hb. lia.
Qed.

Lemma call_single_sequence_witness :
  well_formed (toy_tokenizer 12) /\
  exists ws out,
    Tokenizer.call_single (toy_tokenizer 12) None false "d" ["a"; "bb"] 7
      "q" "ab" "z" = (ws, inr out) /\
    Tokenizer.input_ids out =
      [50258; 113; 50256; 50259; 97; 98; 50256; 50260; 122; 50256; 50257; 50257] /\
    Tokenizer.position_ids out = [0; 1; 2; 3; 4; 5; 6; 7; 12; 13; 0; 0].
Proof.
  split; [apply toy_tokenizer_well_formed|].
  destruct (call_single_sequence (toy_tokenizer 12) None false "d"
              ["a"; "bb"] 7 "q" "ab" "z" (toy_tokenizer_well_formed 12))
    as [Hreturns Hbuilt].
  destruct (proj1 Hreturns) as (ws & out & Hcall).
  { exists 4. split; [reflexivity|]. intros _. reflexivity. }
  destruct (Hbuilt ws out Hcall) as (ids_text & Hcropped & Hids & Hpids & _).
  injection Hcropped as <- <-.
  exists [], out. split; [exact Hcall|].
  split; [rewrite Hids | rewrite Hpids]; reflexivity.
Defined.

(** C8.  [call_single] returns exactly when the cropping step raises nothing,
    and the four sequences it returns for a sample have one length.  In
    training mode with the default [max_length] each of them is the built
    sequence followed by padding up to [model_max_length]: the pad token id
    for [input_ids] and [token_type_ids], 0 for [attention_mask] and
    [position_ids].  In prediction mode the built sequences are returned as
    they are. *)
Theorem call_single_lengths
    tk kw fp dset_nm names did question text answer :
  well_formed tk ->
  (crop_ok tk fp names (Tokenizer.call_paren tk kw question)
     (Tokenizer.call_paren tk kw text) (Tokenizer.call_paren tk kw answer) <->
   exists ws out,
     Tokenizer.call_single tk kw fp dset_nm names did question text answer
       = (ws, inr out)) /\
  forall ws out,
  Tokenizer.call_single tk kw fp dset_nm names did question text answer
    = (ws, inr out) ->
  exists ids_text,
    Tokenizer.crop_text tk fp dset_nm names (Tokenizer.call_paren tk kw question)
      (Tokenizer.call_paren tk kw text) (Tokenizer.call_paren tk kw answer)
      = (ws, inr ids_text) /\
    len (Tokenizer.attention_mask out) = len (Tokenizer.input_ids out) /\
    len (Tokenizer.token_type_ids out) = len (Tokenizer.input_ids out) /\
    len (Tokenizer.position_ids out) = len (Tokenizer.input_ids out) /\
    let q := Tokenizer.call_paren tk kw question in
    let a := Tokenizer.call_paren tk kw answer in
    let ids := seq_ids tk fp q ids_text a in
    let msks := replicate_py 1 (len ids) in
    let tids := seq_tids tk fp q ids_text a in
    let pids := seq_pids tk fp q ids_text a in
    let int_pad := spec_id tk (Tokenizer.pad_token tk) in
    (fp = false -> kw = None ->
     let n := Tokenizer.model_max_length tk - len ids in
     0 <= n /\
     len (Tokenizer.input_ids out) = Tokenizer.model_max_length tk /\
     Tokenizer.input_ids out = ids ++ replicate_py int_pad n /\
     Tokenizer.attention_mask out = msks ++ replicate_py 0 n /\
     Tokenizer.token_type_ids out = tids ++ replicate_py int_pad n /\
     Tokenizer.position_ids out = pids ++ replicate_py 0 n) /\
    (fp = true ->
     Tokenizer.input_ids out = ids /\
     Tokenizer.attention_mask out = msks /\
     Tokenizer.token_type_ids out = tids /\
     Tokenizer.position_ids out = pids).
Proof.
  intros Hwf. split; [by apply call_single_returns_iff|].
  intros ws out Hcall.
  destruct (call_single_returned _ _ _ _ _ _ _ _ _ _ _ Hwf Hcall)
    as (b & Hb & Hpos & -> & ->).
  set (q := Tokenizer.call_paren tk kw question) in *.
  set (t := Tokenizer.call_paren tk kw text) in *.
  set (a := Tokenizer.call_paren tk kw answer) in *.
  exists (text_kept t b).
  split; [by apply crop_text_ok|].
  cbn zeta.
  cbn [built Tokenizer.input_ids Tokenizer.position_ids
       Tokenizer.attention_mask Tokenizer.token_type_ids].
  fold q t a.
  split; [apply len_padded_congr; by rewrite len_replicate_py, len_seq_ids;
          pose proof (len_nonneg (seq_ids tk fp q (text_kept t b) a));
          rewrite len_seq_ids in *; lia|].
  split; [apply len_padded_congr; by rewrite len_seq_tids, len_seq_ids|].
  split; [apply len_padded_congr; by rewrite len_seq_pids, len_seq_ids|].
  split.
  - intros -> ->. unfold padded. cbn [default].
    pose proof (len_nonneg q) as Hq. pose proof (len_nonneg a) as Ha.
    pose proof (len_nonneg (text_kept t b)) as Hk.
    pose proof (len_text_kept t b Hpos) as Hkept.
    unfold text_budget, Tokenizer.max_len_single_sentence in Hb.
    injection Hb as Hb.
    assert (seq_len false q (text_kept t b) a <= Tokenizer.model_max_length tk)
      as Hle by (unfold seq_len, n_cont; lia).
    rewrite !len_pad_with_le
      by (rewrite ?len_replicate_py, ?len_seq_ids, ?len_seq_tids, ?len_seq_pids; lia).
    rewrite len_app, !len_replicate_py, len_seq_ids, len_seq_tids, len_seq_pids.
    unfold seq_len, n_cont in *.
    repeat split; first [reflexivity | lia | (do 2 f_equal; lia)].
  - intros ->. unfold padded. repeat split.
Qed.

Lemma call_single_lengths_witness :
  well_formed (toy_tokenizer 12) /\
  exists ws out,
    Tokenizer.call_single (toy_tokenizer 12) None false "d" ["a"; "bb"] 7
      "q" "ab" "z" = (ws, inr out) /\
    len (Tokenizer.input_ids out) = 12 /\
    len (Tokenizer.attention_mask out) = 12 /\
    len (Tokenizer.token_type_ids out) = 12 /\
    len (Tokenizer.position_ids out) = 12.
Proof.
  split; [apply toy_tokenizer_well_formed|].
  destruct (call_single_lengths (toy_tokenizer 12) None false "d"
              ["a"; "bb"] 7 "q" "ab" "z" (toy_tokenizer_well_formed 12))
    as [Hreturns Hbuilt].
  destruct (proj1 Hreturns) as (ws & out & Hcall).
  { exists 4. split; [reflexivity|]. intros _. reflexivity. }
  destruct (Hbuilt ws out Hcall)
    as (ids_text & _ & Hm & Ht & Hp & Htrain & _).
  destruct (Htrain eq_refl eq_refl) as (_ & Hlen & _).
  exists ws, out. split; [exact Hcall|].
  rewrite Hm, Ht, Hp, Hlen. repeat split.
Defined.

(** ** The doubled positional embedding *)

Section ModelProperties.

Context {row rest : Type}.
Variable init_row : Z -> nat -> row.
Variable init_others : Model.config -> rest.
Variable load_checkpoint : @Model.model row rest -> @Model.model row rest.
Hypothesis load_checkpoint_shape :
  forall m, length (Model.wpe (load_checkpoint m)) = length (Model.wpe m).

Lemma len_nn_Embedding (num_embeddings dim : Z) :
  len (Model.nn_Embedding init_row num_embeddings dim) = Z.max 0 num_embeddings.
Proof. unfold Model.nn_Embedding, len. rewrite length_map, length_seq. lia. Qed.

Lemma assign_rows_same (target src : list row) :
  len src = len target -> Model.assign_rows target src = Some src.
Proof. intros Hlen. unfold Model.assign_rows. by rewrite Hlen, Z.eqb_refl. Qed.

(** Writing [src] over the first [n] rows and then over the rows from [n]
    on, when the matrix has [2 * n] rows and [src] has [n]. *)
Lemma setitem_both_halves (w src : list row) (n : Z) :
  0 <= n -> len w = 2 * n -> len src = n ->
  exists w1, Model.setitem_rows_to w n src = inr w1 /\
             Model.setitem_rows_from w1 n src = inr (src ++ src).
Proof.
  intros Hn Hw Hsrc.
  assert (length src = Z.to_nat n) as Hsrc' by (unfold len in Hsrc; lia).
  exists (src ++ slice_from w n). split.
  - unfold Model.setitem_rows_to.
    rewrite assign_rows_same; [done|].
    rewrite len_slice_to_pos by lia. lia.
  - unfold Model.setitem_rows_from.
    assert (slice_from (src ++ slice_from w n) n = slice_from w n) as ->.
    { unfold slice_from at 1. destruct (Z.ltb_spec n 0); [lia|].
      by rewrite drop_app_length'. }
    assert (slice_to (src ++ slice_from w n) n = src) as ->.
    { rewrite slice_to_pos by lia. by rewrite take_app_length'. }
    rewrite assign_rows_same; [done|].
    unfold slice_from. destruct (Z.ltb_spec n 0); [lia|].
    unfold len in *. rewrite length_drop. lia.
Qed.

End ModelProperties.

(** C3.  The positional embedding of [ZsGPT2Model] has twice
    [max_position_embeddings] rows; and when that doubled matrix has 2048
    rows, [from_pretrained] with [is_zs_gpt2 = False] returns a model whose
    positional embedding holds the 1024 pretrained rows twice: in rows
    0..1023 and again in rows 1024..2047. *)
Theorem positional_embedding_doubled
    {row rest : Type} (init_row : Z -> nat -> row)
    (init_others : Model.config -> rest)
    (load_checkpoint : @Model.model row rest -> @Model.model row rest)
    (config_ : Model.config) :
  (forall m, length (Model.wpe (load_checkpoint m)) = length (Model.wpe m)) ->
  0 <= Model.max_position_embeddings config_ ->
  len (Model.wpe (Model.ZsGPT2Model_init init_row init_others config_))
    = 2 * Model.max_position_embeddings config_ /\
  (len (Model.wpe (load_checkpoint
                     (Model.ZsGPT2Model_init init_row init_others config_)))
     = 2048 ->
   let weight_pretrained :=
     Model.wpe (load_checkpoint
                  (Model.GPT2Model_init init_row init_others config_)) in
   exists md,
     Model.from_pretrained init_row init_others load_checkpoint false config_
       = ([], inr md) /\
     len weight_pretrained = 1024 /\
     Model.wpe md = weight_pretrained ++ weight_pretrained /\
     forall i : nat, (i < 1024)%nat ->
       Model.wpe md !! i = weight_pretrained !! i /\
       Model.wpe md !! (1024 + i)%nat = weight_pretrained !! i).
Proof.
  intros Hshape Hpos.
  assert (len (Model.wpe (Model.ZsGPT2Model_init init_row init_others config_))
          = 2 * Model.max_position_embeddings config_) as Hdouble.
  { cbn [Model.ZsGPT2Model_init Model.wpe]. rewrite len_nn_Embedding. lia. }
  split; [exact Hdouble|].
  intros Hrows weight_pretrained.
  set (md_ := load_checkpoint (Model.ZsGPT2Model_init init_row init_others config_)) in *.
  assert (Model.max_position_embeddings config_ = 1024) as Hmax.
  { unfold len in Hrows, Hdouble. subst md_. rewrite Hshape in Hrows. lia. }
  assert (len weight_pretrained = 1024) as Hpre.
  { subst weight_pretrained. unfold len. rewrite Hshape.
    fold (len (Model.wpe (Model.GPT2Model_init init_row init_others config_))).
    cbn [Model.GPT2Model_init Model.wpe]. rewrite len_nn_Embedding. lia. }
  destruct (setitem_both_halves (Model.wpe md_) weight_pretrained 1024)
    as (w1 & Hw1 & Hw2); [lia | lia | done |].
  exists (Model.mkModel (weight_pretrained ++ weight_pretrained) (Model.others md_)).
  split.
  - unfold Model.from_pretrained. fold md_. fold weight_pretrained.
    rewrite Hrows. change (2048 =? 1024 * 2) with true. cbn match.
    rewrite Hw1. unfold lift at 1. rewrite bind_silent with (a := w1) by done.
    rewrite Hw2. unfold lift. by rewrite bind_silent
      with (a := weight_pretrained ++ weight_pretrained).
  - split; [exact Hpre|]. split; [reflexivity|].
    intros i Hi. cbn [Model.wpe].
    assert (length weight_pretrained = 1024%nat) as Hlen
      by (unfold len in Hpre; lia).
    split.
    + apply lookup_app_l. lia.
    + rewrite lookup_app_r by lia. f_equal. lia.
Qed.

Lemma positional_embedding_doubled_witness :
  (forall m, length (Model.wpe (toy_load m)) = length (Model.wpe m)) /\
  0 <= Model.max_position_embeddings (Model.mkConfig 1024 768) /\
  exists md,
    Model.from_pretrained (fun _ _ => 0) (fun _ => tt) toy_load false
      (Model.mkConfig 1024 768) = ([], inr md) /\
    len (Model.wpe md) = 2048 /\
    Model.wpe md !! 5%nat = Some 5 /\
    Model.wpe md !! 1029%nat = Some 5.
Proof.
  assert (forall m, length (Model.wpe (toy_load m)) = length (Model.wpe m))
    as Hshape by (intros m; apply length_imap).
  split; [exact Hshape|]. split; [done|].
  destruct (positional_embedding_doubled (fun _ _ => 0) (fun _ => tt) toy_load
              (Model.mkConfig 1024 768) Hshape) as [_ Hcopy]; [done|].
  destruct Hcopy as (md & Hmd & Hpre & Hwpe & Hrows); [by vm_compute|].
  exists md. split; [exact Hmd|].
  split.
  { rewrite Hwpe, len_app, Hpre. reflexivity. }
  destruct (Hrows 5%nat) as [H1 H2]; [lia|].
  change (1024 + 5)%nat with 1029%nat in H2.
  rewrite H1, H2. split; by vm_compute.
Defined.

(** ** Batching by length *)

Section Batching.

Import Evaluate.

Lemma elem_of_concat {B : Type} (x : B) (ls : list (list B)) :
  x ∈ concat ls <-> exists l, x ∈ l /\ l ∈ ls.
Proof.
  induction ls as [|l0 ls IH]; cbn.
  - split; [by intros ?%elem_of_nil | by intros (l & _ & ?%elem_of_nil)].
  - rewrite elem_of_app, IH. split.
    + intros [Hx|(l & Hx & Hl)].
      * exists l0. split; [done | apply elem_of_cons; by left].
      * exists l. split; [done | apply elem_of_cons; by right].
    + intros (l & Hx & [->|Hl]%elem_of_cons); [by left|].
      right. by exists l.
Qed.

Lemma elem_of_insert_uniq (x y : Z) (l : list Z) :
  y ∈ insert_uniq x l <-> y = x \/ y ∈ l.
Proof.
  induction l as [|z l IH]; cbn.
  - rewrite list_elem_of_singleton, elem_of_nil. tauto.
  - destruct (Z.ltb_spec x z); [by rewrite elem_of_cons|].
    destruct (Z.eqb_spec x z) as [->|Hne].
    + rewrite elem_of_cons. tauto.
    + rewrite !elem_of_cons, IH. tauto.
Qed.

Lemma insert_uniq_sorted (x : Z) (l : list Z) :
  StronglySorted Z.lt l -> StronglySorted Z.lt (insert_uniq x l).
Proof.
  induction 1 as [|z l Hsorted IH Hall]; cbn.
  - repeat constructor.
  - destruct (Z.ltb_spec x z).
    + constructor; [by constructor|].
      constructor; [done|]. eapply Forall_impl; [exact Hall|]. cbn. lia.
    + destruct (Z.eqb_spec x z); [by constructor|].
      constructor; [done|].
      apply Forall_forall. intros y [->|Hy]%elem_of_insert_uniq; [lia|].
      by eapply Forall_forall in Hall.
Qed.

(** [np.unique] returns the values of the array, sorted, each once. *)
Lemma np_unique_sorted (l : list Z) : StronglySorted Z.lt (np_unique l).
Proof.
  induction l as [|x l IH]; cbn; [constructor | by apply insert_uniq_sorted].
Qed.

Lemma elem_of_np_unique (x : Z) (l : list Z) : x ∈ np_unique l <-> x ∈ l.
Proof.
  induction l as [|y l IH]; cbn; [done|].
  rewrite elem_of_insert_uniq, elem_of_cons, IH. tauto.
Qed.

Lemma sorted_lt_NoDup (l : list Z) : StronglySorted Z.lt l -> NoDup l.
Proof.
  induction 1 as [|x l _ IH Hall]; constructor; [|done].
  intros Hx. eapply Forall_forall in Hall; [|exact Hx]. lia.
Qed.

Lemma np_unique_NoDup (l : list Z) : NoDup (np_unique l).
Proof. apply sorted_lt_NoDup, np_unique_sorted. Qed.

Lemma elem_of_np_where_eq (len_ids : list Z) (ln : Z) (i : nat) :
  i ∈ np_where_eq len_ids ln <-> len_ids !! i = Some ln.
Proof.
  unfold np_where_eq. rewrite list_elem_of_filter, elem_of_seq.
  split; [tauto|]. intros Hi. split; [done|].
  apply lookup_lt_Some in Hi. lia.
Qed.

Lemma np_where_eq_NoDup (len_ids : list Z) (ln : Z) :
  NoDup (np_where_eq len_ids ln).
Proof. apply NoDup_filter, NoDup_seq. Qed.

Lemma NoDup_concat_map {K B : Type} (f : K -> list B) (keys : list K) :
  NoDup keys ->
  (forall k, NoDup (f k)) ->
  (forall k1 k2 x, x ∈ f k1 -> x ∈ f k2 -> k1 = k2) ->
  NoDup (concat (map f keys)).
Proof.
  intros Hkeys Hf Hdisj.
  induction Hkeys as [|k keys Hk _ IH]; cbn; [constructor|].
  apply NoDup_app. split; [apply Hf|]. split; [|exact IH].
  intros x Hx Hx'. apply elem_of_concat in Hx' as (l & Hxl & Hl).
  apply list_elem_of_fmap in Hl as (k' & -> & Hk').
  by rewrite (Hdisj _ _ _ Hx Hxl) in Hk.
Qed.

(** The groups by length hold every index once. *)
Lemma groups_permutation (len_ids : list Z) :
  concat (map (np_where_eq len_ids) (np_unique len_ids))
    ≡ₚ seq 0 (length len_ids).
Proof.
  apply NoDup_Permutation.
  - apply NoDup_concat_map.
    + apply np_unique_NoDup.
    + apply np_where_eq_NoDup.
    + intros k1 k2 i H1%elem_of_np_where_eq H2%elem_of_np_where_eq. congruence.
  - apply NoDup_seq.
  - intros i. rewrite elem_of_seq. split.
    + intros (l & Hil & Hl)%elem_of_concat.
      apply list_elem_of_fmap in Hl as (ln & -> & _).
      apply elem_of_np_where_eq, lookup_lt_Some in Hil. lia.
    + intros [_ Hi]. destruct (lookup_lt_is_Some_2 len_ids i) as [ln Hln]; [lia|].
      apply elem_of_concat. exists (np_where_eq len_ids ln). split.
      * by apply elem_of_np_where_eq.
      * apply list_elem_of_fmap. exists ln. split; [done|].
        apply elem_of_np_unique. by eapply list_elem_of_lookup_2.
Qed.

(** Every piece of [np.split] is cut out of the array. *)
Lemma np_split_from_subseteq {A : Type} (st : nat) (points : list nat) (ary : list A) :
  Forall (fun piece => piece ⊆ ary) (np_split_from st points ary).
Proof.
  revert st. induction points as [|p ps IH]; intros st; cbn.
  - constructor; [|constructor]. apply subseteq_drop.
  - constructor; [|apply IH].
    etransitivity; [apply subseteq_take | apply subseteq_drop].
Qed.

(** Splitting at [st + b], [st + 2 b], ..., [st + n b]: the pieces make up
    the array from [st] on and none is longer than [b], as long as the array
    ends within [b] of the last point. *)
Lemma np_split_from_steps {A : Type} (b n st : nat) (ary : list A) :
  (length ary <= st + (n + 1) * b)%nat ->
  let pieces :=
    np_split_from st (map (fun k => (st + (k + 1) * b)%nat) (seq 0 n)) ary in
  concat pieces = drop st ary /\
  Forall (fun piece => (length piece <= b)%nat) pieces.
Proof.
  revert st. induction n as [|n IH]; intros st Hlen; cbn zeta.
  - cbn. rewrite app_nil_r. split; [done|].
    constructor; [|constructor]. rewrite length_drop. lia.
  - rewrite <- cons_seq, <- fmap_S_seq. cbn [map].
    change (map ?f (S <$> ?l)) with (map f (map S l)). rewrite map_map.
    cbn [np_split_from concat].
    replace (st + (0 + 1) * b - st)%nat with b by lia.
    replace (st + (0 + 1) * b)%nat with (st + b)%nat by lia.
    rewrite (map_ext (fun k => (st + (S k + 1) * b)%nat)
                     (fun k => (st + b + (k + 1) * b)%nat)) by (intros; lia).
    destruct (IH (st + b)%nat) as [Hconcat Hall]; [lia|].
    rewrite Hconcat. split.
    + rewrite <- (take_drop b (drop st ary)) at 2. by rewrite drop_drop.
    + constructor; [|exact Hall]. rewrite length_take. lia.
Qed.

Lemma range3_steps (b size : Z) :
  0 < b -> 0 < size ->
  exists n : nat,
    range3 b size b = inr (map (fun k => b + Z.of_nat k * b) (seq 0 n)) /\
    size <= (Z.of_nat n + 1) * b.
Proof.
  intros Hb Hsize. unfold range3.
  destruct (Z.eqb_spec b 0); [lia|].
  destruct (Z.ltb_spec 0 b); [|lia].
  exists (Z.to_nat ((size - b + b - 1) / b)). split; [done|].
  replace (size - b + b - 1) with (size - 1) by lia.
  assert (0 <= (size - 1) / b) by (apply Z.div_pos; lia).
  rewrite Z2Nat.id by done.
  pose proof (Z.mul_succ_div_gt (size - 1) b Hb). lia.
Qed.

(** One group is split into batches of at most [batch_size]. *)
Lemma split_group_spec (batch_size : Z) (idxs : list nat) :
  0 < batch_size ->
  exists bs, split_group batch_size idxs = inr bs /\
             concat bs = idxs /\
             Forall (fun batch => len batch <= batch_size) bs /\
             Forall (fun batch => batch ⊆ idxs) bs.
Proof.
  intros Hb. unfold split_group.
  destruct (Z.gtb_spec (len idxs) batch_size) as [Hgt|Hle].
  - destruct (range3_steps batch_size (len idxs)) as (n & -> & Hn); [lia | lia |].
    eexists. split; [reflexivity|].
    unfold np_split. rewrite map_map.
    rewrite (map_ext _ (fun k => (0 + (k + 1) * Z.to_nat batch_size)%nat))
      by (intros; lia).
    destruct (np_split_from_steps (Z.to_nat batch_size) n 0 idxs)
      as [Hconcat Hall]; [unfold len in Hn; nia|].
    split; [exact Hconcat|]. split.
    + eapply Forall_impl; [exact Hall|]. cbn. unfold len. lia.
    + apply np_split_from_subseteq.
  - exists [idxs]. split; [done|]. cbn. rewrite app_nil_r.
    split; [done|]. split; repeat constructor; done.
Qed.

Lemma sum_groups_spec (batch_size : Z) (groups : list (list nat)) :
  0 < batch_size ->
  exists batches, sum_groups batch_size groups = inr batches /\
                  concat batches = concat groups /\
                  Forall (fun batch => len batch <= batch_size) batches /\
                  Forall (fun batch => exists g, g ∈ groups /\ batch ⊆ g) batches.
Proof.
  intros Hb. induction groups as [|idxs groups IH]; cbn.
  - exists []. repeat split; constructor.
  - destruct (split_group_spec batch_size idxs Hb) as (bs & -> & Hc & Hsz & Hsub).
    destruct IH as (bss & -> & Hc' & Hsz' & Hsub').
    exists (bs ++ bss). split; [done|].
    split; [by rewrite concat_app, Hc, Hc'|].
    split; [by apply Forall_app|].
    apply Forall_app. split.
    + eapply Forall_impl; [exact Hsub|]. cbn. intros batch Hbatch.
      exists idxs. split; [apply elem_of_cons; by left | done].
    + eapply Forall_impl; [exact Hsub'|]. cbn. intros batch (g & Hg & Hbatch).
      exists g. split; [apply elem_of_cons; by right | done].
Qed.

(** In a list of lists without a repeated element, an element sits in one
    list only. *)
Lemma NoDup_concat_unique {B : Type} (ls : list (list B)) (k k' : nat)
    (l l' : list B) (x : B) :
  NoDup (concat ls) ->
  ls !! k = Some l -> ls !! k' = Some l' -> x ∈ l -> x ∈ l' -> k = k'.
Proof.
  revert k k'. induction ls as [|l0 ls IH]; intros k k' Hnd Hk Hk' Hx Hx';
    [done|].
  cbn in Hnd. apply NoDup_app in Hnd as (_ & Hdisj & Hnd).
  destruct k as [|k], k' as [|k']; cbn in Hk, Hk'; simplify_eq; [done| | |].
  - exfalso. apply (Hdisj x Hx). apply elem_of_concat.
    exists l'. split; [done | by eapply list_elem_of_lookup_2].
  - exfalso. apply (Hdisj x Hx'). apply elem_of_concat.
    exists l. split; [done | by eapply list_elem_of_lookup_2].
  - f_equal. by eapply IH.
Qed.

(** No piece is empty when the array goes on past the last point. *)
Lemma np_split_from_steps_nonempty {A : Type} (b n st : nat) (ary : list A) :
  (0 < b)%nat -> (st + n * b < length ary)%nat ->
  Forall (fun piece => piece <> [])
    (np_split_from st (map (fun k => (st + (k + 1) * b)%nat) (seq 0 n)) ary).
Proof.
  intros Hb. revert st. induction n as [|n IH]; intros st Hlen.
  - cbn. constructor; [|constructor].
    intros Hnil%(f_equal length). rewrite length_drop in Hnil. cbn in Hnil. lia.
  - rewrite <- cons_seq, <- fmap_S_seq. cbn [map].
    change (map ?f (S <$> ?l)) with (map f (map S l)). rewrite map_map.
    cbn [np_split_from].
    replace (st + (0 + 1) * b - st)%nat with b by lia.
    replace (st + (0 + 1) * b)%nat with (st + b)%nat by lia.
    rewrite (map_ext (fun k => (st + (S k + 1) * b)%nat)
                     (fun k => (st + b + (k + 1) * b)%nat)) by (intros; lia).
    constructor; [|apply IH; lia].
    intros Hnil%(f_equal length).
    rewrite length_take, length_drop in Hnil. cbn in Hnil. lia.
Qed.

Lemma range3_steps_below (b size : Z) (n : nat) :
  0 < b -> 0 < size ->
  range3 b size b = inr (map (fun k => b + Z.of_nat k * b) (seq 0 n)) ->
  Z.of_nat n * b < size.
Proof.
  intros Hb Hsize. unfold range3.
  destruct (Z.eqb_spec b 0); [lia|].
  destruct (Z.ltb_spec 0 b); [|lia].
  intros Heq. injection Heq as Heq.
  apply (f_equal length) in Heq. rewrite !length_map, !length_seq in Heq.
  replace (size - b + b - 1) with (size - 1) in Heq by lia.
  assert (0 <= (size - 1) / b) by (apply Z.div_pos; lia).
  pose proof (Z.mul_div_le (size - 1) b Hb). nia.
Qed.

Lemma split_group_nonempty (batch_size : Z) (idxs : list nat) bs :
  0 < batch_size -> idxs <> [] ->
  split_group batch_size idxs = inr bs ->
  Forall (fun batch => batch <> []) bs.
Proof.
  intros Hb Hne. unfold split_group.
  destruct (Z.gtb_spec (len idxs) batch_size) as [Hgt|Hle].
  - destruct (range3_steps batch_size (len idxs)) as (n & Hrange & _);
      [lia | lia |].
    assert (0 < len idxs) as Hsize by lia.
    pose proof (range3_steps_below _ _ _ Hb Hsize Hrange) as Hbelow.
    rewrite Hrange. intros [= <-].
    unfold np_split. rewrite map_map.
    rewrite (map_ext _ (fun k => (0 + (k + 1) * Z.to_nat batch_size)%nat))
      by (intros; lia).
    apply np_split_from_steps_nonempty; [lia|]. unfold len in Hbelow. nia.
  - intros [= <-]. by repeat constructor.
Qed.

Lemma sum_groups_nonempty (batch_size : Z) (groups batches : list (list nat)) :
  0 < batch_size ->
  Forall (fun g => g <> []) groups ->
  sum_groups batch_size groups = inr batches ->
  Forall (fun batch => batch <> []) batches.
Proof.
  intros Hb Hne. revert batches.
  induction Hne as [|idxs groups Hidxs _ IH]; intros batches; cbn.
  - intros [= <-]. constructor.
  - destruct (split_group batch_size idxs) as [e|bs] eqn:Hbs; [discriminate|].
    destruct (sum_groups batch_size groups) as [e|bss]; [discriminate|].
    intros [= <-]. apply Forall_app. split; [|by apply IH].
    by eapply split_group_nonempty.
Qed.

(** The groups by length are not empty. *)
Lemma groups_nonempty (len_ids : list Z) :
  Forall (fun g => g <> [])
    (map (np_where_eq len_ids) (np_unique len_ids)).
Proof.
  apply Forall_forall. intros g (ln & -> & Hln)%list_elem_of_fmap.
  apply (proj1 (elem_of_np_unique _ _)) in Hln.
  apply list_elem_of_lookup in Hln as [i Hi].
  apply (proj2 (elem_of_np_where_eq _ _ _)) in Hi. intros Hnil.
  rewrite Hnil in Hi. by apply elem_of_nil in Hi.
Qed.

End Batching.

(** C4.  For a positive batch size the batching scheme returns batches such
    that (1) the samples of a batch have [input_ids] of one length, (2) no
    batch holds more than [batch_size] samples, and (3) the batches hold
    every index of the dataset in exactly one batch. *)
Theorem idxs_batches_partition (len_ids : list Z) (batch_size : Z) :
  0 < batch_size ->
  exists batches,
    Evaluate.idxs_batches len_ids batch_size = inr batches /\
    (forall batch i j, batch ∈ batches -> i ∈ batch -> j ∈ batch ->
       exists ln, len_ids !! i = Some ln /\ len_ids !! j = Some ln) /\
    (forall batch, batch ∈ batches -> len batch <= batch_size) /\
    concat batches ≡ₚ seq 0 (length len_ids) /\
    (forall i, (i < length len_ids)%nat ->
       exists k batch,
         batches !! k = Some batch /\ i ∈ batch /\
         forall k' batch', batches !! k' = Some batch' -> i ∈ batch' -> k' = k).
Proof.
  intros Hb. unfold Evaluate.idxs_batches.
  destruct (sum_groups_spec batch_size
              (map (Evaluate.np_where_eq len_ids) (Evaluate.np_unique len_ids)) Hb)
    as (batches & -> & Hconcat & Hsize & Hsub).
  exists batches. split; [done|].
  assert (concat batches ≡ₚ seq 0 (length len_ids)) as Hperm
    by (rewrite Hconcat; apply groups_permutation).
  split; [|split; [|split; [exact Hperm|]]].
  - intros batch i j Hbatch Hi Hj.
    eapply Forall_forall in Hsub as (g & Hg & Hsubset); [|exact Hbatch].
    apply list_elem_of_fmap in Hg as (ln & -> & _).
    exists ln. split; apply elem_of_np_where_eq; by apply Hsubset.
  - intros batch Hbatch. by eapply Forall_forall in Hsize.
  - intros i Hi.
    assert (i ∈ concat batches) as Hin
      by (rewrite Hperm; apply elem_of_seq; lia).
    apply elem_of_concat in Hin as (batch & Hibatch & Hbatch).
    apply list_elem_of_lookup in Hbatch as [k Hk].
    exists k, batch. split; [done|]. split; [done|].
    intros k' batch' Hk' Hi'.
    eapply NoDup_concat_unique; [|exact Hk'|exact Hk|exact Hi'|exact Hibatch].
    rewrite Hperm. apply NoDup_seq.
Qed.

Lemma idxs_batches_partition_witness :
  0 < 2 /\
  exists batches,
    Evaluate.idxs_batches [3; 5; 3; 3; 5; 2; 3; 3] 2 = inr batches /\
    batches = [[5]; [0; 2]; [3; 6]; [7]; [1; 4]]%nat /\
    concat batches ≡ₚ seq 0 8.
Proof.
  split; [done|].
  destruct (idxs_batches_partition [3; 5; 3; 3; 5; 2; 3; 3] 2)
    as (batches & Hbatches & _ & _ & Hperm & _); [done|].
  exists batches. split; [exact Hbatches|].
  split; [|exact Hperm].
  vm_compute in Hbatches. by injection Hbatches as <-.
Defined.

(** Outside the theorem: a zero batch size makes [range] raise, and a
    negative one leaves every group whole. *)
Example idxs_batches_zero :
  Evaluate.idxs_batches [3; 5; 3; 3; 5; 2; 3; 3] 0 = inl ValueError.
Proof. reflexivity. Qed.

Example idxs_batches_negative :
  Evaluate.idxs_batches [3; 5; 3; 3; 5; 2; 3; 3] (-1)
  = inr [[5]; [0; 2; 3; 6; 7]; [1; 4]]%nat.
Proof. reflexivity. Qed.

(** ** Parsing a generation *)

Example substr_indices_example :
  substr_indices "<|answer|>Sports<|endoftext|><|endoftext|>" "<|endoftext|>"
  = [16; 29]%nat.
Proof. reflexivity. Qed.

Section Parsing.

Import Evaluate.

Variable get_substr_indices : string -> string -> list nat.
Variable lower : string -> string.
Variable tkzer : Tokenizer.t.

Lemma silent_tail (dset : list sample) (st : state) (i_sample : nat)
    (id_pred : Z) (lb2id' : gmap string Z) :
  silent
    (smp ← lift (getitem dset i_sample);
     let lbs_true := s_labels smp in
     id_true ←
       (if existsb (Z.eqb id_pred) lbs_true then
          match find (fun lb_id => lb_id =? id_pred) lbs_true with
          | Some lb_id => ret lb_id
          | None => raise StopIteration
          end
        else lift (getitem lbs_true 0));
     preds' ← lift (setitem (preds st) i_sample id_pred);
     trues' ← lift (setitem (trues st) i_sample id_true);
     ret (mkState lb2id' preds' trues', (id_pred, id_true))).
Proof. repeat silent_step. Qed.


(** The failing case of C5: on the first batch, where [d_log] is still
    unbound, a generation with more than one answer token makes
    [set_pred_n_true] raise after its first warning; nothing is recorded. *)
Theorem set_pred_n_true_unbound_d_log labels dset st generated i_sample :
  1 < len (get_substr_indices generated (Tokenizer.boa_token tkzer)) ->
  set_pred_n_true get_substr_indices lower tkzer labels dset None st
    generated i_sample =
  ([WarnBoaCount (len (get_substr_indices generated (Tokenizer.boa_token tkzer)))
      (answer_with_eos get_substr_indices tkzer generated)],
   inl NameError).
Proof.
  intros Hgt. unfold set_pred_n_true, answer_with_eos.
  destruct (get_substr_indices generated (Tokenizer.boa_token tkzer))
    as [|i0 rest] eqn:Hboa; [by cbn in Hgt|].
  unfold getitem at 1. cbn [lookup list_lookup]. unfold lift at 1.
  rewrite bind_silent with (a := i0) by done.
  destruct (Z.gtb_spec (len (i0 :: rest)) 1); [|lia].
  reflexivity.
Qed.

Lemma lb2id_fold_index labels (ps : list (nat * string)) (m : gmap string Z) :
  (forall i lb, (i, lb) ∈ ps -> labels !! i = Some lb) ->
  (forall k v, m !! k = Some v -> label_index lower labels k v) ->
  forall k v,
    fold_left (fun m '(i, lb) => <[lower lb := Z.of_nat i]> m) ps m !! k = Some v ->
    label_index lower labels k v.
Proof.
  revert m. induction ps as [|[i lb] ps IH]; intros m Hps Hm; [exact Hm|].
  cbn [fold_left]. apply IH.
  - intros i' lb' Hin. apply Hps. by apply elem_of_cons; right.
  - intros k v. destruct (decide (lower lb = k)) as [<-|Hne].
    + rewrite lookup_insert_eq. intros [= <-]. split; [lia|].
      exists lb. rewrite Nat2Z.id. split; [|done].
      apply Hps. by apply elem_of_cons; left.
    + rewrite lookup_insert_ne by done. apply Hm.
Qed.

Lemma lb2id_fold_keys (ps : list (nat * string)) (m : gmap string Z) (k : string) :
  is_Some (m !! k) \/ (exists i lb, (i, lb) ∈ ps /\ lower lb = k) ->
  is_Some (fold_left (fun m '(i, lb) => <[lower lb := Z.of_nat i]> m) ps m !! k).
Proof.
  revert m. induction ps as [|[i lb] ps IH]; intros m Hk.
  - destruct Hk as [?|(i & lb & Hin & _)]; [done|]. by apply elem_of_nil in Hin.
  - cbn [fold_left]. apply IH.
    destruct (decide (lower lb = k)) as [<-|Hne].
    + left. rewrite lookup_insert_eq. by eexists.
    + rewrite lookup_insert_ne by done.
      destruct Hk as [?|(i' & lb' & Hin & Hlb')]; [by left|].
      apply elem_of_cons in Hin as [[= -> ->]|Hin]; [done|].
      right. by exists i', lb'.
Qed.

(** The dictionary built from the labels agrees with them. *)
Lemma lb2id_of_ok labels : lb2id_ok lower labels (lb2id_of lower labels).
Proof.
  unfold lb2id_of. split.
  - intros k v Hkv. right. revert k v Hkv. apply lb2id_fold_index.
    + intros i lb (i' & lb' & [= -> ->] & Hlb)%elem_of_lookup_imap. exact Hlb.
    + intros k v Hkv. by rewrite lookup_empty in Hkv.
  - intros lb Hlb. apply lb2id_fold_keys. right.
    apply list_elem_of_lookup in Hlb as [i Hi].
    exists i, lb. split; [|done]. by apply elem_of_lookup_imap_2.
Qed.

(** Reading the dictionary keeps it in agreement, and hands out -1 exactly
    for a key that no label has. *)
Lemma lb2id_getitem_ok labels (m m' : gmap string Z) (k : string) (v : Z) :
  lb2id_ok lower labels m ->
  lb2id_getitem m k = (v, m') ->
  lb2id_ok lower labels m' /\
  ((v = -1 /\ forall lb, lb ∈ labels -> lower lb <> k) \/ label_index lower labels k v).
Proof.
  intros [Hval Hkeys]. unfold lb2id_getitem.
  destruct (m !! k) as [v0|] eqn:Hk; intros [= <- <-].
  - split; [by split | by apply Hval].
  - assert (forall lb, lb ∈ labels -> lower lb <> k) as Hnone.
    { intros lb Hlb <-. destruct (Hkeys lb Hlb) as [? ?]. congruence. }
    split; [|by left]. split.
    + intros k' v'. destruct (decide (k = k')) as [<-|Hne].
      * rewrite lookup_insert_eq. intros [= <-]. by left.
      * rewrite lookup_insert_ne by done. apply Hval.
    + intros lb Hlb. rewrite lookup_insert_ne by (by apply not_eq_sym, Hnone).
      by apply Hkeys.
Qed.

(** A call that returns has written its two results at [i_sample]. *)
Lemma set_pred_n_true_state labels dset d_log st generated i_sample
    ws st' id_pred id_true :
  set_pred_n_true get_substr_indices lower tkzer labels dset d_log st
    generated i_sample = (ws, inr (st', (id_pred, id_true))) ->
  preds st' = <[i_sample := id_pred]> (preds st) /\
  trues st' = <[i_sample := id_true]> (trues st) /\
  (i_sample < length (preds st))%nat /\ (i_sample < length (trues st))%nat.
Proof.
  unfold set_pred_n_true.
  destruct (get_substr_indices generated (Tokenizer.boa_token tkzer))
    as [|i0 rest]; [discriminate|].
  unfold getitem at 1. cbn [lookup list_lookup]. unfold lift at 1.
  rewrite bind_silent with (a := i0) by done.
  intros Hrun.
  apply bind_inr_inv in Hrun as (w1 & [p m] & w2 & _ & Htail & _).
  apply bind_inr_inv in Htail as (? & smp & ? & _ & Htail & _).
  apply bind_inr_inv in Htail as (? & t0 & ? & _ & Htail & _).
  apply bind_inr_inv in Htail as (? & ps & ? & Hps & Htail & _).
  apply bind_inr_inv in Htail as (? & ts & ? & Hts & Htail & _).
  unfold lift, setitem in Hps, Hts.
  case_bool_decide; [|discriminate]. case_bool_decide; [|discriminate].
  unfold ret in Htail. by simplify_eq.
Qed.

(** What [set_pred_n_true] records when it returns: the sentinel -1 exactly
    when the generation is malformed or its answer is the lower-case form
    of no label, and the index of a label with the answer's lower-case form
    otherwise. *)
Lemma set_pred_n_true_sentinel labels dset d_log st generated i_sample
    ws st' id_pred id_true :
  lb2id_ok lower labels (lb2id st) ->
  set_pred_n_true get_substr_indices lower tkzer labels dset d_log st
    generated i_sample = (ws, inr (st', (id_pred, id_true))) ->
  lb2id_ok lower labels (lb2id st') /\
  preds st' !! i_sample = Some id_pred /\
  (id_pred = -1 <->
   malformed get_substr_indices tkzer generated \/
   exists answer, answer_of get_substr_indices lower tkzer generated = Some answer /\
                  forall lb, lb ∈ labels -> lower lb <> answer) /\
  (id_pred <> -1 ->
   exists answer, answer_of get_substr_indices lower tkzer generated = Some answer /\
                  label_index lower labels answer id_pred).
Proof.
  intros Hok. unfold set_pred_n_true, malformed, answer_of, answer_with_eos.
  destruct (get_substr_indices generated (Tokenizer.boa_token tkzer))
    as [|i0 rest] eqn:Hboa; [discriminate|].
  unfold getitem at 1. cbn [lookup list_lookup]. unfold lift at 1.
  rewrite bind_silent with (a := i0) by done.
  set (awe := str_drop (i0 + String.length (Tokenizer.boa_token tkzer)) generated).
  intros Hrun.
  apply bind_inr_inv in Hrun as (w1 & [p m] & w2 & Hbranch & Htail & _).
  assert (st' = mkState m (<[i_sample := id_pred]> (preds st))
                          (<[i_sample := id_true]> (trues st)) /\
          p = id_pred /\ (i_sample < length (preds st))%nat) as (-> & -> & Hlt).
  { apply bind_inr_inv in Htail as (? & smp & ? & _ & Htail & _).
    apply bind_inr_inv in Htail as (? & t0 & ? & _ & Htail & _).
    apply bind_inr_inv in Htail as (? & ps & ? & Hps & Htail & _).
    apply bind_inr_inv in Htail as (? & ts & ? & Hts & Htail & _).
    unfold lift, setitem in Hps, Hts.
    case_bool_decide; [|discriminate]. case_bool_decide; [|discriminate].
    unfold ret in Htail. by simplify_eq. }
  cbn [lb2id preds].
  assert (<[i_sample := id_pred]> (preds st) !! i_sample = Some id_pred)
    as Hrec by (by apply list_lookup_insert_eq).
  destruct (Z.gtb_spec (len (i0 :: rest)) 1) as [Hgt|Hle].
  - (* more than one answer token *)
    apply bind_inr_inv in Hbranch as (? & ? & ? & _ & Hbranch & _).
    apply bind_inr_inv in Hbranch as (? & ? & ? & _ & Hbranch & _).
    apply bind_inr_inv in Hbranch as (? & ? & ? & _ & Hbranch & _).
    injection Hbranch as _ <- <-.
    split; [done|]. split; [done|]. split; [|done].
    split; [intros _; left; by left | done].
  - assert (rest = []) as ->.
    { destruct rest; [done|]. unfold len in Hle. cbn in Hle. lia. }
    change (len [i0] =? 1) with true in Hbranch.
    rewrite assert_py_true in Hbranch by done.
    destruct (get_substr_indices awe (Tokenizer.eos_token tkzer))
      as [|e0 eots] eqn:Heot.
    + (* no end token after the answer token *)
      apply bind_inr_inv in Hbranch as (? & ? & ? & _ & Hbranch & _).
      injection Hbranch as _ <- <-.
      split; [done|]. split; [done|]. split; [|done].
      split; [intros _; left; right; by split | done].
    + destruct (lb2id_getitem (lb2id st) (lower (str_take e0 awe)))
        as [v m'] eqn:Hget.
      apply bind_inr_inv in Hbranch as (? & ? & ? & _ & Hbranch & _).
      injection Hbranch as _ <- <-.
      destruct (lb2id_getitem_ok _ _ _ _ _ Hok Hget) as [Hok' Hv].
      split; [done|]. split; [done|]. split.
      * split.
        -- intros ->. right. exists (lower (str_take e0 awe)). split; [done|].
           destruct Hv as [[_ Hnone]|[Hpos _]]; [done | lia].
        -- intros [[H|[_ H]]|(answer & [= <-] & Hnone)];
             [by cbn in H | discriminate |].
           destruct Hv as [[-> _]|(_ & lb & Hlb & Hlower)]; [done|].
           exfalso. apply (Hnone lb); [|done].
           by eapply list_elem_of_lookup_2.
      * intros Hne. exists (lower (str_take e0 awe)). split; [done|].
        destruct Hv as [[-> _]|Hidx]; [done | exact Hidx].
Qed.

Lemma find_of_existsb (x : Z) (l : list Z) :
  existsb (Z.eqb x) l = true -> find (fun y => y =? x) l = Some x.
Proof.
  induction l as [|y l IH]; cbn; [discriminate|].
  rewrite (Z.eqb_sym x y).
  destruct (Z.eqb_spec y x) as [->|_]; [done | exact IH].
Qed.

(** [set_pred_n_true] returns on every generation that holds the answer
    token of its prompt, as long as the sample exists and has a label, and
    [d_log] is bound whenever the multiple-token branch reads it. *)
Lemma set_pred_n_true_returns labels dset d_log st generated i_sample smp :
  (forall s, lower (lower s) = lower s) ->
  lb2id_ok lower labels (lb2id st) ->
  get_substr_indices generated (Tokenizer.boa_token tkzer) <> [] ->
  (1 < len (get_substr_indices generated (Tokenizer.boa_token tkzer)) ->
   d_log <> None) ->
  dset !! i_sample = Some smp ->
  s_labels smp <> [] ->
  (i_sample < length (preds st))%nat ->
  (i_sample < length (trues st))%nat ->
  exists ws st' id_pred id_true,
    set_pred_n_true get_substr_indices lower tkzer labels dset d_log st
      generated i_sample = (ws, inr (st', (id_pred, id_true))).
Proof.
  intros Hidem Hok Hboa Hlog Hsmp Hlbs Hp Ht.
  assert (forall (p : Z) (m : gmap string Z), exists st' id_true,
    (smp ← lift (getitem dset i_sample);
     let lbs_true := s_labels smp in
     id_true ←
       (if existsb (Z.eqb p) lbs_true then
          match find (fun lb_id => lb_id =? p) lbs_true with
          | Some lb_id => ret lb_id
          | None => raise StopIteration
          end
        else lift (getitem lbs_true 0));
     preds' ← lift (setitem (preds st) i_sample p);
     trues' ← lift (setitem (trues st) i_sample id_true);
     ret (mkState m preds' trues', (p, id_true)))
    = ([], inr (st', (p, id_true)))) as Htail.
  { intros p m. unfold getitem. rewrite Hsmp. unfold lift at 1.
    rewrite bind_silent with (a := smp) by done. cbn zeta.
    assert (forall id_true,
      (preds' ← lift (setitem (preds st) i_sample p);
       trues' ← lift (setitem (trues st) i_sample id_true);
       ret (mkState m preds' trues', (p, id_true)))
      = ([], inr (mkState m (<[i_sample:=p]> (preds st))
                            (<[i_sample:=id_true]> (trues st)),
                  (p, id_true)))) as Hset.
    { intros id_true. unfold setitem. rewrite !bool_decide_eq_true_2 by done.
      unfold lift.
      rewrite bind_silent with (a := <[i_sample:=p]> (preds st)) by done.
      by rewrite bind_silent with (a := <[i_sample:=id_true]> (trues st)). }
    destruct (existsb _ _) eqn:Hex.
    - rewrite (find_of_existsb _ _ Hex), bind_ret, Hset. by eexists _, _.
    - destruct (s_labels smp) as [|lb0 ?]; [done|]. cbn [lookup list_lookup].
      unfold lift at 1. rewrite bind_silent with (a := lb0) by done.
      rewrite Hset. by eexists _, _. }
  unfold set_pred_n_true.
  destruct (get_substr_indices generated (Tokenizer.boa_token tkzer))
    as [|i0 rest] eqn:Heq; [done|].
  unfold getitem at 1. cbn [lookup list_lookup]. unfold lift at 1.
  rewrite bind_silent with (a := i0) by done.
  set (awe := str_drop (i0 + String.length (Tokenizer.boa_token tkzer)) generated).
  destruct (Z.gtb_spec (len (i0 :: rest)) 1) as [Hgt|Hle].
  - destruct d_log as [d|]; [|by destruct (Hlog Hgt)].
    destruct (Htail (-1) (lb2id st)) as (st' & id_true & Hrun).
    eexists _, st', (-1), id_true.
    erewrite bind_returns; [|reflexivity].
    apply (f_equal2 pair); [reflexivity|]. exact (f_equal snd Hrun).
  - assert (rest = []) as ->.
    { destruct rest; [done|]. unfold len in Hle. cbn in Hle. lia. }
    change (len [i0] =? 1) with true. rewrite assert_py_true by done.
    destruct (get_substr_indices awe (Tokenizer.eos_token tkzer))
      as [|e0 eots] eqn:Heot.
    + destruct (Htail (-1) (lb2id st)) as (st' & id_true & Hrun).
      eexists _, st', (-1), id_true.
      erewrite bind_returns; [|reflexivity].
    apply (f_equal2 pair); [reflexivity|]. exact (f_equal snd Hrun).
    + destruct (lb2id_getitem (lb2id st) (lower (str_take e0 awe)))
        as [v m'] eqn:Hget.
      destruct (lb2id_getitem_ok _ _ _ _ _ Hok Hget) as [_ Hv].
      destruct (Htail v m') as (st' & id_true & Hrun).
      eexists _, st', v, id_true.
      assert ((if v =? -1
               then assert_py (forallb
                      (fun lb => negb (String.eqb (lower lb)
                                         (lower (lower (str_take e0 awe)))))
                      labels)
               else ret tt) = ret tt) as Hcheck.
      { destruct (Z.eqb_spec v (-1)) as [->|_]; [|done].
        destruct Hv as [[_ Hnone]|[Hpos _]]; [|lia].
        assert (forallb (fun lb => negb (String.eqb (lower lb)
                                           (lower (lower (str_take e0 awe)))))
                  labels = true) as ->; [|done].
        apply forallb_forall. intros lb Hlb%list_elem_of_In.
        rewrite Hidem. apply negb_true_iff, String.eqb_neq. by apply Hnone. }
      rewrite Hcheck, bind_ret, bind_ret. exact Hrun.
Qed.

End Parsing.

Lemma set_pred_n_true_unbound_d_log_witness :
  1 < len (substr_indices
             "<|question|>q<|endoftext|><|text|>t<|endoftext|><|answer|>a<|answer|>b<|endoftext|>"
             (Tokenizer.boa_token (toy_tokenizer 1024))) /\
  Evaluate.set_pred_n_true substr_indices ascii_lower (toy_tokenizer 1024)
    ["a"; "b"] [Evaluate.mkSample [] [0]] None
    (Evaluate.mkState (Evaluate.lb2id_of ascii_lower ["a"; "b"]) [7] [7])
    "<|question|>q<|endoftext|><|text|>t<|endoftext|><|answer|>a<|answer|>b<|endoftext|>"
    0 =
  ([WarnBoaCount 2 "a<|answer|>b<|endoftext|>"], inl NameError).
Proof.
  assert (1 < len (substr_indices
             "<|question|>q<|endoftext|><|text|>t<|endoftext|><|answer|>a<|answer|>b<|endoftext|>"
             (Tokenizer.boa_token (toy_tokenizer 1024)))) as Hgt by reflexivity.
  split; [exact Hgt|].
  exact (set_pred_n_true_unbound_d_log substr_indices ascii_lower
           (toy_tokenizer 1024) ["a"; "b"] [Evaluate.mkSample [] [0]]
           (Evaluate.mkState (Evaluate.lb2id_of ascii_lower ["a"; "b"]) [7] [7])
           _ 0%nat Hgt).
Defined.

(** ** The pair maps of the training strategies *)

Section PairMaps.

Import Util.
Import Util.TrainStrategy2PairMap.

Variable cfg : strategy_config.

Lemma comprehension_total {A B : Type} (f : A -> B) (l : list A) :
  comprehension (fun x => inr (f x)) l = inr (map f l).
Proof. induction l as [|x l IH]; cbn; [done | by rewrite IH]. Qed.

Lemma comprehension_nil {A B : Type} (f : A -> exn + B) :
  comprehension f [] = inr [].
Proof. reflexivity. Qed.

Lemma init_inv (s : string) (self : t) :
  init cfg s = inr self -> train_strategy self = s /\ s ∈ accepted_strategies cfg.
Proof.
  unfold init. case_bool_decide; [|discriminate]. by intros [= <-].
Qed.

(** The five strategies that [__call__] handles return a query function. *)
Lemma call_returns (self : t) (aspect : option string) :
  train_strategy self ∈
    ["vanilla"; "explicit"; "implicit"; "implicit-on-text-encode-aspect";
     "implicit-on-text-encode-sep"] ->
  exists query, call cfg self aspect = inr query.
Proof.
  intros Hs. unfold call.
  repeat (apply elem_of_cons in Hs as [->|Hs]); [..|by apply elem_of_nil in Hs];
    cbn; eauto.
Qed.

End PairMaps.

(** C9, as amended.  For a strategy that [TrainStrategy2PairMap] accepts and
    [__call__] handles, every text and every label list, the query function
    returns one [[text, label]] pair per label, in the order of the labels:
    the text and the label themselves under ['vanilla'] and ['explicit']
    (where [map_label] and [map_text] return their input too), the text and
    the label followed by the aspect under ['implicit'], the text after the
    aspect and the separator token, and the label, under
    ['implicit-on-text-encode-sep'], and the text after the token of the
    aspect, and the label, under ['implicit-on-text-encode-aspect'] when the
    aspect is a key of [aspect2aspect_token].  When it is not, the query
    function of that strategy raises [KeyError] on every label list but the
    empty one. *)
Theorem query_one_pair_per_label
    (cfg : Util.strategy_config) (s : string) (aspect : option string)
    (self : Util.TrainStrategy2PairMap.t)
    (query : Util.TrainStrategy2PairMap.query) (txt : string) (lbs : list string) :
  Util.TrainStrategy2PairMap.init cfg s = inr self ->
  Util.TrainStrategy2PairMap.call cfg self aspect = inr query ->
  (s ∈ ["vanilla"; "explicit"] /\
   query txt lbs = inr (map (fun lb => [txt; lb]) lbs) /\
   (forall label,
      Util.TrainStrategy2PairMap.map_label self label aspect = inr label) /\
   (forall text,
      Util.TrainStrategy2PairMap.map_text cfg self text aspect = inr text)) \/
  (s = "implicit" /\
   query txt lbs =
   inr (map (fun lb => [txt; lb +:+ " " +:+ Util.fmt aspect]) lbs)) \/
  (s = "implicit-on-text-encode-aspect" /\
   ((exists a tok,
       aspect = Some a /\ Util.aspect2aspect_token cfg !! a = Some tok /\
       query txt lbs = inr (map (fun lb => [tok +:+ " " +:+ txt; lb]) lbs)) \/
    ((aspect = None \/
      exists a, aspect = Some a /\ Util.aspect2aspect_token cfg !! a = None) /\
     query txt lbs =
     match lbs with
     | [] => inr []
     | _ :: _ => inl KeyError
     end))) \/
  (s = "implicit-on-text-encode-sep" /\
   query txt lbs =
   inr (map (fun lb =>
               [Util.fmt aspect +:+ " " +:+ Util.sep_token cfg +:+ " " +:+ txt;
                lb]) lbs)).
Proof.
  intros [Hs _]%init_inv Hcall.
  unfold Util.TrainStrategy2PairMap.call in Hcall. rewrite Hs in Hcall.
  unfold Util.TrainStrategy2PairMap.map_label, Util.TrainStrategy2PairMap.map_text.
  rewrite Hs.
  case_bool_decide as Hplain.
  { injection Hcall as <-. left. split; [done|]. split; [done|].
    repeat (apply elem_of_cons in Hplain as [->|Hplain]);
      [..|by apply elem_of_nil in Hplain]; by cbn. }
  right.
  destruct (String.eqb_spec s "implicit") as [->|_].
  { injection Hcall as <-. by left. }
  right.
  destruct (String.eqb_spec s "implicit-on-text-encode-aspect") as [->|_].
  { injection Hcall as <-. left. split; [done|].
    unfold Util.aspect_token.
    destruct aspect as [a|].
    - destruct (Util.aspect2aspect_token cfg !! a) as [tok|] eqn:Htok.
      + left. exists a, tok. split; [done|]. split; [done|].
        apply (comprehension_total (fun lb => [tok +:+ " " +:+ txt; lb])).
      + right. split; [right; by exists a|]. by destruct lbs.
    - right. split; [by left|]. by destruct lbs. }
  right.
  destruct (String.eqb_spec s "implicit-on-text-encode-sep") as [->|_];
    [|discriminate].
  injection Hcall as <-. by split.
Qed.

Lemma query_one_pair_per_label_witness :
  Util.TrainStrategy2PairMap.init toy_strategy_config "implicit-on-text-encode-aspect"
    = inr (Util.TrainStrategy2PairMap.mk "implicit-on-text-encode-aspect") /\
  exists query,
    Util.TrainStrategy2PairMap.call toy_strategy_config
      (Util.TrainStrategy2PairMap.mk "implicit-on-text-encode-aspect")
      (Some "topic") = inr query /\
    query "a text" ["sports"; "world"]
    = inr [["<|topic|> a text"; "sports"]; ["<|topic|> a text"; "world"]].
Proof.
  assert (Util.TrainStrategy2PairMap.init toy_strategy_config
            "implicit-on-text-encode-aspect"
          = inr (Util.TrainStrategy2PairMap.mk "implicit-on-text-encode-aspect"))
    as Hinit by reflexivity.
  split; [exact Hinit|].
  destruct (Util.TrainStrategy2PairMap.call toy_strategy_config
              (Util.TrainStrategy2PairMap.mk "implicit-on-text-encode-aspect")
              (Some "topic")) as [e|query] eqn:Hcall; [discriminate Hcall|].
  exists query. split; [reflexivity|].
  destruct (query_one_pair_per_label toy_strategy_config
              "implicit-on-text-encode-aspect" (Some "topic") _ query
              "a text" ["sports"; "world"] Hinit Hcall)
    as [(Hs & _)|[(Hs & _)|[(_ & Henc)|(Hs & _)]]].
  - exfalso. repeat (apply elem_of_cons in Hs as [Hs|Hs]; [discriminate Hs|]).
    by apply elem_of_nil in Hs.
  - discriminate Hs.
  - destruct Henc as [(a & tok & [= <-] & Htok & ->)|([Hnone|(a & [= <-] & Hnone)] & _)].
    + vm_compute in Htok. by injection Htok as <-.
    + discriminate Hnone.
    + vm_compute in Hnone. discriminate Hnone.
  - discriminate Hs.
Defined.

(** C9, as stated, fails: under ['implicit-on-text-encode-aspect'], an
    accepted strategy, the query function built for the default aspect
    raises on a non-empty label list. *)
Lemma encode_aspect_query_raises :
  exists self query,
    Util.TrainStrategy2PairMap.init toy_strategy_config
      "implicit-on-text-encode-aspect" = inr self /\
    Util.TrainStrategy2PairMap.call toy_strategy_config self None = inr query /\
    query "a text" ["sports"; "world"] = inl KeyError.
Proof. eexists _, _. repeat split; reflexivity. Qed.

Example query_vanilla :
  exists self query,
    Util.TrainStrategy2PairMap.init toy_strategy_config "vanilla" = inr self /\
    Util.TrainStrategy2PairMap.call toy_strategy_config self None = inr query /\
    query "a text" ["sports"; "world"]
    = inr [["a text"; "sports"]; ["a text"; "world"]].
Proof. eexists _, _. repeat split; reflexivity. Qed.

Example query_implicit :
  exists self query,
    Util.TrainStrategy2PairMap.init toy_strategy_config "implicit" = inr self /\
    Util.TrainStrategy2PairMap.call toy_strategy_config self (Some "topic")
      = inr query /\
    query "a text" ["sports"; "world"]
    = inr [["a text"; "sports topic"]; ["a text"; "world topic"]].
Proof. eexists _, _. repeat split; reflexivity. Qed.

(** ** The accuracy of a report *)

Lemma forallb_Forall_true {A : Type} (f : A -> bool) (l : list A) :
  forallb f l = true <-> Forall (fun x => f x = true) l.
Proof.
  induction l as [|x l IH]; cbn; [by split; [constructor|]|].
  rewrite andb_true_iff, IH, Forall_cons. tauto.
Qed.

(** C10.  [eval_res2df] returns the accuracy of the report: the value under
    ['accuracy'] when the report has that key; otherwise the metrics of
    ['micro avg'] other than ['support'] must all be close to the first of
    them ([math.isclose] with [abs_tol=1e-8]), which is then the accuracy,
    and the call raises [AssertionError] when they are not.  The accuracy
    is rounded to 3 digits when [pretty] holds and returned as it is
    otherwise. *)
Theorem eval_res2df_accuracy
    {float frame report_args : Type}
    (isclose : float -> float -> float -> bool) (tol_1e_8 : float)
    (round_py : float -> Z -> float)
    (classification_report :
       list Z -> list Z -> report_args -> @Util.report float)
    (DataFrame_T : @Util.report float -> frame)
    (labels preds : list Z) (args : report_args) (pretty : bool) :
  let rep := classification_report labels preds args in
  let result :=
    Util.eval_res2df isclose tol_1e_8 round_py classification_report
      DataFrame_T labels preds args pretty in
  let shown (acc : float) : Util.value :=
    Util.Num (if pretty then round_py acc 3 else acc) in
  (forall acc,
     Util.dict_get rep "accuracy" = Some (Util.Num acc) ->
     result = inr (DataFrame_T rep, shown acc)) /\
  (forall metrics v0 vals,
     Util.dict_get rep "accuracy" = None ->
     Util.dict_get rep "micro avg" = Some (Util.Row metrics) ->
     map snd (filter (fun kv => kv.1 <> "support") metrics) = v0 :: vals ->
     (Forall (fun v => isclose v v0 tol_1e_8 = true) (v0 :: vals) ->
      result = inr (DataFrame_T rep, shown v0)) /\
     (~ Forall (fun v => isclose v v0 tol_1e_8 = true) (v0 :: vals) ->
      result = inl AssertionError)).
Proof.
  cbn zeta. unfold Util.eval_res2df, Util.report_accuracy. split.
  - intros acc ->. cbn. by destruct pretty.
  - intros metrics v0 vals -> -> ->. split.
    + intros Hall. apply forallb_Forall_true in Hall. rewrite Hall.
      cbn. by destruct pretty.
    + intros Hnot.
      destruct (forallb _ _) eqn:Hall; [|done].
      exfalso. apply Hnot. by apply forallb_Forall_true.
Qed.

Example eval_res2df_micro_avg :
  Util.eval_res2df (float := Z) (frame := unit) (report_args := unit)
    (fun a b tol => Z.abs (a - b) <=? tol) 0 (fun x _ => x / 10 * 10)
    (fun _ _ _ =>
       [("0", Util.Row [("precision", 500); ("recall", 1000); ("support", 2)]);
        ("micro avg",
         Util.Row [("precision", 667); ("recall", 667); ("f1-score", 667);
                   ("support", 3)])])
    (fun _ => tt) [0; 1; 1] [0; 1; 0] tt true
  = inr (tt, Util.Num 660).
Proof. reflexivity. Qed.

(** ** The evaluation loop *)

Section EvaluationLoop.

Import Evaluate.

Variable get_substr_indices : string -> string -> list nat.
Variable lower : string -> string.
Variable tkzer : Tokenizer.t.
Variable generate : list (list Z) -> list string.
Context {report frame : Type}.
Variable classification_report :
  list Z -> list Z -> list Z -> list string -> report.
Variable DataFrame_T : report -> frame.
Variable get_dset : string -> list sample.
Variable uninit_trues uninit_preds : nat -> Z.

Local Abbreviation evaluate_dataset' :=
  (evaluate_dataset get_substr_indices lower tkzer generate
     classification_report DataFrame_T get_dset uninit_trues uninit_preds).
Local Abbreviation evaluate_trained' :=
  (evaluate_trained get_substr_indices lower tkzer generate
     classification_report DataFrame_T get_dset uninit_trues uninit_preds).

Lemma evaluate_trained_skips in_domain batch_size path_dir pre rest fs :
  Forall (skipped in_domain) pre ->
  evaluate_trained' in_domain batch_size path_dir (pre ++ rest) fs =
  evaluate_trained' in_domain batch_size path_dir rest fs.
Proof.
  unfold evaluate_trained.
  induction 1 as [|[dnm d] pre Hskip _ IH]; [done|].
  cbn [app evaluate_loop].
  destruct Hskip as [Hdom|Hnm]; cbn in Hdom || cbn in Hnm.
  - destruct (Bool.eqb_spec (out_of_domain d) (negb in_domain)); [done|].
    exact IH.
  - destruct (Bool.eqb (out_of_domain d) (negb in_domain)); [|exact IH].
    destruct (String.eqb_spec dnm "multi_eurlex"); [done|]. exact IH.
Qed.

(** What an evaluation that raises nothing leaves on disk. *)
Lemma evaluate_dataset_writes batch_size path_dir dnm d fs ws fs' :
  evaluate_dataset' batch_size path_dir dnm d fs = (ws, inr fs') ->
  exists y_true y_pred,
    fs' = <[os_path_join path_dir (dnm +:+ ".csv") :=
              DataFrame_T
                (classification_report y_true y_pred
                   (-1 :: range (len (ds_labels d)))
                   ("Label not in dataset" :: ds_labels d))]> fs.
Proof.
  unfold evaluate_dataset. intros Hrun.
  apply bind_inr_inv in Hrun as (w1 & batches & w2 & _ & Hrun & _).
  apply bind_inr_inv in Hrun as (w3 & [st d_log] & w4 & _ & Hrun & _).
  injection Hrun as _ <-. by exists (trues st), (preds st).
Qed.

(** A run that raises nothing either finds no dataset to evaluate and
    returns, or evaluates the first dataset that is not skipped, writes its
    report and exits. *)
Lemma evaluate_trained_outcome in_domain batch_size path_dir datasets fs ws fs' c :
  evaluate_trained' in_domain batch_size path_dir datasets fs
    = (ws, inr (fs', c)) ->
  (c = Returned /\ fs' = fs /\ ws = [] /\ Forall (skipped in_domain) datasets) \/
  (c = Exited 1 /\
   exists pre dnm d post,
     datasets = pre ++ (dnm, d) :: post /\
     Forall (skipped in_domain) pre /\
     out_of_domain d = negb in_domain /\ dnm = "multi_eurlex" /\
     evaluate_dataset' batch_size path_dir dnm d fs = (ws, inr fs')).
Proof.
  unfold evaluate_trained.
  induction datasets as [|[dnm d] datasets IH]; cbn [evaluate_loop].
  - intros [= <- <- <-]. left. by repeat split.
  - destruct (Bool.eqb_spec (out_of_domain d) (negb in_domain)) as [Hdom|Hdom].
    + destruct (String.eqb_spec dnm "multi_eurlex") as [Hnm|Hnm]; cbn [negb].
      * intros Hrun. right.
        apply bind_inr_inv in Hrun as (w1 & fs1 & w2 & Hds & Hret & ->).
        injection Hret as <- <- <-. rewrite app_nil_r in *.
        split; [done|]. exists [], dnm, d, datasets. by repeat split.
      * intros Hrun. destruct (IH Hrun) as [(-> & -> & -> & Hall)|(-> & Hex)].
        -- left. repeat split; try done. constructor; [by right | done].
        -- right. split; [done|].
           destruct Hex as (pre & dnm' & d' & post & -> & Hall & Hrest).
           exists ((dnm, d) :: pre), dnm', d', post.
           split; [done|]. split; [|done]. constructor; [by right | done].
    + intros Hrun. destruct (IH Hrun) as [(-> & -> & -> & Hall)|(-> & Hex)].
      * left. repeat split; try done. constructor; [by left | done].
      * right. split; [done|].
        destruct Hex as (pre & dnm' & d' & post & -> & Hall & Hrest).
        exists ((dnm, d) :: pre), dnm', d', post.
        split; [done|]. split; [|done]. constructor; [by left | done].
Qed.

(** *** The evaluation of a dataset returns *)

Lemma Forall_zip_both {B C : Type} (P : B -> Prop) (Q : C -> Prop)
    (l : list B) (k : list C) :
  Forall P l -> Forall Q k -> Forall (fun x => P x.1 /\ Q x.2) (zip l k).
Proof.
  intros Hl. revert k. induction Hl as [|x l Hx _ IH]; intros k Hk; [constructor|].
  destruct Hk as [|y k Hy Hk]; [constructor|].
  cbn. constructor; [done | by apply IH].
Qed.

Lemma run_batch_returns labels dset d_log st pairs :
  (forall s, lower (lower s) = lower s) ->
  Forall (fun smp => s_labels smp <> []) dset ->
  state_ok lower labels (length dset) st ->
  Forall (fun gi =>
            length (get_substr_indices gi.1 (Tokenizer.boa_token tkzer)) = 1%nat /\
            (gi.2 < length dset)%nat) pairs ->
  exists ws st' res,
    run_batch get_substr_indices lower tkzer labels dset d_log st pairs
      = (ws, inr (st', res)) /\
    state_ok lower labels (length dset) st' /\
    length res = length pairs.
Proof.
  intros Hidem Hlbs. revert st.
  induction pairs as [|[g i] pairs IH]; intros st Hst Hpairs.
  - by exists [], st, [].
  - apply Forall_cons in Hpairs as [[Hg Hi] Hpairs]. cbn in Hg, Hi.
    destruct Hst as (Hok & Hp & Ht).
    destruct (lookup_lt_is_Some_2 dset i Hi) as [smp Hsmp].
    destruct (set_pred_n_true_returns get_substr_indices lower tkzer labels
                dset d_log st g i smp) as (ws1 & st1 & p & t & Hrun);
      try done.
    { intros Hnil. by rewrite Hnil in Hg. }
    { unfold len. lia. }
    { eapply Forall_forall in Hlbs; [exact Hlbs|].
      by eapply list_elem_of_lookup_2. }
    { by rewrite Hp. }
    { by rewrite Ht. }
    destruct (set_pred_n_true_sentinel _ _ _ _ _ _ _ _ _ _ _ _ _ Hok Hrun)
      as (Hok1 & _).
    destruct (set_pred_n_true_state _ _ _ _ _ _ _ _ _ _ _ _ _ Hrun)
      as (Hp1 & Ht1 & _ & _).
    destruct (IH st1) as (ws2 & st2 & res & Hrest & Hst2 & Hlen); [|done|].
    { split; [done|]. by rewrite Hp1, Ht1, !length_insert. }
    eexists _, st2, ((p, t) :: res).
    split; [|split; [done | cbn; by rewrite Hlen]].
    cbn [run_batch].
    eapply bind_returns_to; [exact Hrun|]. lazy beta iota.
    eapply bind_returns_to; [exact Hrest|]. reflexivity.
Qed.

Lemma select_returns (dset : list sample) (idxs : list nat) :
  Forall (fun i => (i < length dset)%nat) idxs ->
  exists rows, select dset idxs = inr rows /\
               Forall2 (fun i smp => dset !! i = Some smp) idxs rows.
Proof.
  induction 1 as [|i idxs Hi _ (rows & IH & Hrows)]; cbn.
  - by exists [].
  - destruct (lookup_lt_is_Some_2 dset i Hi) as [smp Hsmp].
    unfold getitem. rewrite Hsmp, IH. exists (smp :: rows).
    split; [done | by constructor].
Qed.

Lemma torch_tensor_returns (rows : list (list Z)) :
  (forall r r', r ∈ rows -> r' ∈ rows -> len r = len r') ->
  torch_tensor rows = inr rows.
Proof.
  intros Hsame. unfold torch_tensor. destruct rows as [|r0 rows]; [done|].
  assert (forallb (fun r' => len r' =? len r0) (r0 :: rows) = true) as ->; [|done].
  apply forallb_forall. intros r Hr%list_elem_of_In.
  apply Z.eqb_eq, Hsame; [done | apply elem_of_cons; by left].
Qed.

(** A batch of samples with [input_ids] of one length is evaluated without
    an exception, and binds [d_log]. *)
Lemma eval_batch_returns labels dset n_bch batch_size st d_log step idxs :
  (forall s, lower (lower s) = lower s) ->
  generations_ok get_substr_indices tkzer generate ->
  Forall (fun smp => s_labels smp <> []) dset ->
  state_ok lower labels (length dset) st ->
  idxs <> [] ->
  Forall (fun i => (i < length dset)%nat) idxs ->
  (forall i j, i ∈ idxs -> j ∈ idxs ->
     exists ln, map (fun smp => len (s_input_ids smp)) dset !! i = Some ln /\
                map (fun smp => len (s_input_ids smp)) dset !! j = Some ln) ->
  exists ws st' d,
    eval_batch get_substr_indices lower tkzer generate labels dset n_bch
      batch_size st d_log step idxs = (ws, inr (st', Some d)) /\
    state_ok lower labels (length dset) st'.
Proof.
  intros Hidem Hgen Hlbs Hst Hne Hidxs Hsame.
  destruct (select_returns dset idxs Hidxs) as (rows & Hsel & Hrows).
  assert (length rows = length idxs) as Hlen_rows
    by (symmetry; by eapply Forall2_length).
  assert (torch_tensor (map s_input_ids rows) = inr (map s_input_ids rows))
    as Htensor.
  { apply torch_tensor_returns.
    assert (forall r, r ∈ map s_input_ids rows ->
              exists i, i ∈ idxs /\
                map (fun smp => len (s_input_ids smp)) dset !! i = Some (len r))
      as Hrow.
    { intros r (smp & -> & Hsmp)%list_elem_of_fmap.
      apply list_elem_of_lookup in Hsmp as [k Hk].
      destruct (Forall2_lookup_r _ _ _ _ _ Hrows Hk) as (i & Hi & Hdset).
      exists i. split; [by eapply list_elem_of_lookup_2|].
      change (map ?f ?l) with (f <$> l). by rewrite list_lookup_fmap, Hdset. }
    intros r r' (i & Hi & Hri)%Hrow (j & Hj & Hrj)%Hrow.
    destruct (Hsame i j Hi Hj) as (ln & Hln & Hln'). congruence. }
  destruct (Hgen (map s_input_ids rows)) as [Hlen_out Hboa].
  rewrite length_map in Hlen_out.
  destruct (run_batch_returns labels dset d_log st
              (zip (generate (map s_input_ids rows)) idxs))
    as (ws & st' & res & Hrun & Hst' & Hlen_res); try done.
  { by apply (Forall_zip_both
                (fun g => length (get_substr_indices g (Tokenizer.boa_token tkzer))
                          = 1%nat)
                (fun i => (i < length dset)%nat)). }
  rewrite length_zip in Hlen_res.
  unfold eval_batch. rewrite Hsel. unfold lift at 1.
  rewrite bind_silent with (a := rows) by done.
  rewrite Htensor. unfold lift at 1.
  rewrite bind_silent with (a := map s_input_ids rows) by done.
  cbn zeta.
  destruct res as [|r res].
  { destruct idxs; [done|]. cbn in Hlen_res, Hlen_rows. lia. }
  destruct rows as [|smp0 rows].
  { destruct idxs; [done|]. cbn in Hlen_rows. lia. }
  eexists _, st', _. split; [|done].
  eapply bind_returns_to; [exact Hrun|]. lazy beta iota.
  cbn [map getitem lookup list_lookup]. unfold lift.
  rewrite bind_silent with (a := s_input_ids smp0) by done.
  reflexivity.
Qed.

Lemma loop_batches_returns labels dset n_bch batch_size st d_log step batches :
  (forall s, lower (lower s) = lower s) ->
  generations_ok get_substr_indices tkzer generate ->
  Forall (fun smp => s_labels smp <> []) dset ->
  state_ok lower labels (length dset) st ->
  Forall (fun idxs =>
            idxs <> [] /\
            Forall (fun i => (i < length dset)%nat) idxs /\
            forall i j, i ∈ idxs -> j ∈ idxs ->
              exists ln,
                map (fun smp => len (s_input_ids smp)) dset !! i = Some ln /\
                map (fun smp => len (s_input_ids smp)) dset !! j = Some ln)
         batches ->
  exists ws st' d_log',
    loop_batches get_substr_indices lower tkzer generate labels dset n_bch
      batch_size st d_log step batches = (ws, inr (st', d_log')).
Proof.
  intros Hidem Hgen Hlbs Hst Hbatches. revert st d_log step Hst.
  induction Hbatches as [|idxs batches (Hne & Hidxs & Hsame) _ IH];
    intros st d_log step Hst.
  - by exists [], st, d_log.
  - destruct (eval_batch_returns labels dset n_bch batch_size st d_log step idxs)
      as (ws1 & st1 & d1 & Hbatch & Hst1); try done.
    destruct (IH st1 (Some d1) (S step) Hst1) as (ws2 & st2 & d2 & Hrest).
    eexists _, st2, d2. cbn [loop_batches].
    eapply bind_returns_to; [exact Hbatch|]. lazy beta iota. exact Hrest.
Qed.

(** For a positive batch size, a dataset whose samples all have a label and
    a model whose generations hold one answer token each, the evaluation
    of the dataset raises nothing and writes its report. *)
Lemma evaluate_dataset_returns batch_size path_dir dnm d fs :
  0 < batch_size ->
  (forall s, lower (lower s) = lower s) ->
  generations_ok get_substr_indices tkzer generate ->
  Forall (fun smp => s_labels smp <> [])
    (get_dset (if multi_label d then dnm +:+ "-label-grouped" else dnm)) ->
  exists ws fs', evaluate_dataset' batch_size path_dir dnm d fs = (ws, inr fs').
Proof.
  intros Hb Hidem Hgen Hlbs. unfold evaluate_dataset.
  set (dset := get_dset _) in *.
  set (len_ids := map (fun smp => len (s_input_ids smp)) dset).
  unfold idxs_batches.
  destruct (sum_groups_spec batch_size
              (map (np_where_eq len_ids) (np_unique len_ids)) Hb)
    as (batches & Hbatches & Hconcat & _ & Hsub).
  pose proof (sum_groups_nonempty _ _ _ Hb (groups_nonempty len_ids) Hbatches)
    as Hne.
  rewrite Hbatches. unfold lift at 1.
  rewrite bind_silent with (a := batches) by done. cbn zeta.
  destruct (loop_batches_returns (ds_labels d) dset (len batches) batch_size
              (mkState (lb2id_of lower (ds_labels d))
                 (np_empty uninit_preds (length dset))
                 (np_empty uninit_trues (length dset)))
              None 0%nat batches) as (ws & st & d_log & Hloop); try done.
  { split; [apply lb2id_of_ok|]. cbn. unfold np_empty.
    by rewrite !length_map, !length_seq. }
  { apply Forall_forall. intros idxs Hidxs.
    split; [by eapply Forall_forall in Hne|].
    eapply Forall_forall in Hsub as (g & Hg & Hsubset); [|exact Hidxs].
    apply list_elem_of_fmap in Hg as (ln & -> & _).
    split.
    - apply Forall_forall. intros i Hi%Hsubset.
      apply elem_of_np_where_eq, lookup_lt_Some in Hi.
      unfold len_ids in Hi. by rewrite length_map in Hi.
    - intros i j Hi%Hsubset Hj%Hsubset. exists ln.
      split; by apply elem_of_np_where_eq. }
  eexists _, _.
  eapply bind_returns_to; [exact Hloop|]. lazy beta iota. reflexivity.
Qed.

(** What an evaluation that raises nothing leaves on disk: the report over
    the arrays [trues] and [preds] as the loop over the batches has filled
    them. *)
Lemma evaluate_dataset_report batch_size path_dir dnm d fs ws fs' :
  evaluate_dataset' batch_size path_dir dnm d fs = (ws, inr fs') ->
  let dset := get_dset (if multi_label d then dnm +:+ "-label-grouped" else dnm) in
  exists batches st d_log,
    idxs_batches (map (fun smp => len (s_input_ids smp)) dset) batch_size
      = inr batches /\
    loop_batches get_substr_indices lower tkzer generate (ds_labels d) dset
      (len batches) batch_size
      (mkState (lb2id_of lower (ds_labels d))
         (np_empty uninit_preds (length dset))
         (np_empty uninit_trues (length dset)))
      None 0 batches = (ws, inr (st, d_log)) /\
    fs' = <[os_path_join path_dir (dnm +:+ ".csv") :=
              DataFrame_T
                (classification_report (trues st) (preds st)
                   (-1 :: range (len (ds_labels d)))
                   ("Label not in dataset" :: ds_labels d))]> fs.
Proof.
  unfold evaluate_dataset. intros Hrun. cbn zeta.
  apply bind_inr_inv in Hrun as (w1 & batches & w2 & Hb & Hrun & ->).
  apply bind_inr_inv in Hrun as (w3 & [st d_log] & w4 & Hloop & Hret & ->).
  unfold lift in Hb. injection Hb as <- Hb.
  unfold ret in Hret. injection Hret as <- <-.
  exists batches, st, d_log. rewrite app_nil_r. cbn [app]. by repeat split.
Qed.

End EvaluationLoop.

(** C7.  The failing case: the loop passes over every dataset that is not
    named ['multi_eurlex'] and the run exits after the first dataset it
    evaluates.  With no dataset of that name the run evaluates nothing,
    writes nothing and returns; with one, what follows it in the
    configuration is never looked at; and a run that raises nothing has
    written no file, or the file of ['multi_eurlex'] alone. *)
Theorem evaluate_trained_leaves_datasets_out
    {report frame : Type}
    (get_substr_indices : string -> string -> list nat)
    (lower : string -> string) (tkzer : Tokenizer.t)
    (generate : list (list Z) -> list string)
    (classification_report : list Z -> list Z -> list Z -> list string -> report)
    (DataFrame_T : report -> frame)
    (get_dset : string -> list Evaluate.sample)
    (uninit_trues uninit_preds : nat -> Z)
    (in_domain : bool) (batch_size : Z) (path_dir : string)
    (fs : gmap string frame) :
  let run :=
    Evaluate.evaluate_trained get_substr_indices lower tkzer generate
      classification_report DataFrame_T get_dset uninit_trues uninit_preds
      in_domain batch_size path_dir in
  (forall datasets,
     Forall (fun entry => entry.1 <> "multi_eurlex") datasets ->
     run datasets fs = ([], inr (fs, Evaluate.Returned))) /\
  (forall pre d post post',
     Forall (skipped in_domain) pre ->
     Evaluate.out_of_domain d = negb in_domain ->
     run (pre ++ ("multi_eurlex", d) :: post) fs =
     run (pre ++ ("multi_eurlex", d) :: post') fs) /\
  (forall datasets ws fs' c,
     run datasets fs = (ws, inr (fs', c)) ->
     (c = Evaluate.Returned /\ fs' = fs) \/
     (c = Evaluate.Exited 1 /\
      exists df,
        fs' = <[Evaluate.os_path_join path_dir ("multi_eurlex" +:+ ".csv")
                  := df]> fs)).
Proof.
  cbn zeta. split; [|split].
  - intros datasets Hnone.
    rewrite <- (app_nil_r datasets), evaluate_trained_skips; [done|].
    eapply Forall_impl; [exact Hnone|]. intros entry Hne. by right.
  - intros pre d post post' Hpre Hdom.
    rewrite !evaluate_trained_skips by done.
    unfold Evaluate.evaluate_trained. cbn [Evaluate.evaluate_loop].
    by rewrite Hdom, Bool.eqb_reflx.
  - intros datasets ws fs' c Hrun.
    apply evaluate_trained_outcome in Hrun
      as [(-> & -> & _)|(-> & pre & dnm & d & post & _ & _ & _ & -> & Hrun)].
    + by left.
    + right. split; [done|].
      apply evaluate_dataset_writes in Hrun as (y_true & y_pred & ->).
      by eexists.
Qed.

Lemma evaluate_trained_leaves_datasets_out_witness :
  Evaluate.evaluate_trained substr_indices ascii_lower (toy_tokenizer 1024)
    toy_generate toy_classification_report (fun r => r) toy_dset
    (fun _ => 0) (fun _ => 0) true 2 "evaluations"
    [("ag_news", Evaluate.mkInfo false false ["World"; "Sports"]);
     ("emotion", Evaluate.mkInfo false false ["joy"; "anger"])] ∅
  = ([], inr (∅, Evaluate.Returned)).
Proof.
  apply (proj1 (evaluate_trained_leaves_datasets_out substr_indices ascii_lower
                  (toy_tokenizer 1024) toy_generate toy_classification_report
                  (fun r => r) toy_dset (fun _ => 0) (fun _ => 0) true 2
                  "evaluations" ∅)).
  repeat constructor; discriminate.
Defined.

(** Where the loop does reach ['multi_eurlex'], and the evaluation of that
    dataset raises nothing, the run writes its file and exits: the file
    holds the classification report over the arrays that the loop over the
    batches has filled, for the label -1 followed by the indices of the
    labels of the dataset. *)
Lemma evaluate_trained_writes_multi_eurlex
    {report frame : Type}
    (get_substr_indices : string -> string -> list nat)
    (lower : string -> string) (tkzer : Tokenizer.t)
    (generate : list (list Z) -> list string)
    (classification_report : list Z -> list Z -> list Z -> list string -> report)
    (DataFrame_T : report -> frame)
    (get_dset : string -> list Evaluate.sample)
    (uninit_trues uninit_preds : nat -> Z)
    (in_domain : bool) (batch_size : Z) (path_dir : string)
    (pre post : list (string * Evaluate.dataset_info))
    (d : Evaluate.dataset_info)
    (fs fs' : gmap string frame) (ws : list warning) :
  Forall (skipped in_domain) pre ->
  Evaluate.out_of_domain d = negb in_domain ->
  Evaluate.evaluate_dataset get_substr_indices lower tkzer generate
    classification_report DataFrame_T get_dset uninit_trues uninit_preds
    batch_size path_dir "multi_eurlex" d fs = (ws, inr fs') ->
  Evaluate.evaluate_trained get_substr_indices lower tkzer generate
    classification_report DataFrame_T get_dset uninit_trues uninit_preds
    in_domain batch_size path_dir (pre ++ ("multi_eurlex", d) :: post) fs
    = (ws, inr (fs', Evaluate.Exited 1)) /\
  let dset :=
    get_dset (if Evaluate.multi_label d
              then "multi_eurlex" +:+ "-label-grouped" else "multi_eurlex") in
  exists batches st d_log,
    Evaluate.idxs_batches
      (map (fun smp => len (Evaluate.s_input_ids smp)) dset) batch_size
      = inr batches /\
    Evaluate.loop_batches get_substr_indices lower tkzer generate
      (Evaluate.ds_labels d) dset (len batches) batch_size
      (Evaluate.mkState (Evaluate.lb2id_of lower (Evaluate.ds_labels d))
         (Evaluate.np_empty uninit_preds (length dset))
         (Evaluate.np_empty uninit_trues (length dset)))
      None 0 batches = (ws, inr (st, d_log)) /\
    fs' !! Evaluate.os_path_join path_dir ("multi_eurlex" +:+ ".csv") =
    Some (DataFrame_T
            (classification_report (Evaluate.trues st) (Evaluate.preds st)
               (-1 :: range (len (Evaluate.ds_labels d)))
               ("Label not in dataset" :: Evaluate.ds_labels d))).
Proof.
  intros Hpre Hdom Hrun. split.
  - rewrite evaluate_trained_skips by done.
    unfold Evaluate.evaluate_trained. cbn [Evaluate.evaluate_loop].
    rewrite Hdom, Bool.eqb_reflx.
    change ("multi_eurlex" =? "multi_eurlex")%string with true. cbn [negb].
    rewrite (bind_returns _ _ _ _ Hrun). cbn. by rewrite app_nil_r.
  - intros dset.
    apply evaluate_dataset_report in Hrun
      as (batches & st & d_log & Hb & Hloop & ->).
    exists batches, st, d_log. split; [done|]. split; [done|].
    apply lookup_insert_eq.
Qed.

Example evaluate_trained_multi_eurlex :
  Evaluate.evaluate_trained substr_indices ascii_lower (toy_tokenizer 1024)
    toy_generate toy_classification_report (fun r => r) toy_dset
    (fun _ => 0) (fun _ => 0) true 2 "evaluations" toy_datasets ∅
  = ([], inr (<["evaluations/multi_eurlex.csv" :=
                  ([1; 0; 1], [1; 1; 1], [-1; 0; 1],
                   ["Label not in dataset"; "World"; "Sports"])]> ∅,
              Evaluate.Exited 1)).
Proof. vm_compute. reflexivity. Qed.

(** ** Warnings *)





Example no_eos_warns :
  Evaluate.set_pred_n_true substr_indices ascii_lower (toy_tokenizer 1024)
    ["World"; "Sports"] (toy_dset "multi_eurlex-label-grouped") None
    (Evaluate.mkState (Evaluate.lb2id_of ascii_lower ["World"; "Sports"])
       [7; 7; 7] [7; 7; 7])
    "<|question|>q<|endoftext|><|text|>t<|endoftext|><|answer|>Spor" 1
  = ([WarnNoEos "Spor"],
     inr (Evaluate.mkState (Evaluate.lb2id_of ascii_lower ["World"; "Sports"])
            [7; -1; 7] [7; 0; 7],
          (-1, 0))).
Proof. vm_compute. reflexivity. Qed.

(** * Further properties of the code *)

(** ** The pair maps and [map_label], [map_text] *)

Lemma comprehension_ext {A B : Type} (f g : A -> exn + B) (l : list A) :
  (forall x, f x = g x) -> Util.comprehension f l = Util.comprehension g l.
Proof.
  intros Hfg. induction l as [|x l IH]; cbn; [done|]. by rewrite Hfg, IH.
Qed.

(** X1.  For a given aspect, the query function that [__call__] returns
    pairs [map_text] of the text with [map_label] of each label, in the order
    of the labels, and raises what they raise. *)
Theorem query_agrees_with_maps
    (cfg : Util.strategy_config) (self : Util.TrainStrategy2PairMap.t)
    (a : string) (query : Util.TrainStrategy2PairMap.query)
    (txt : string) (lbs : list string) :
  Util.TrainStrategy2PairMap.call cfg self (Some a) = inr query ->
  query txt lbs =
  Util.comprehension
    (fun lb =>
       match Util.TrainStrategy2PairMap.map_text cfg self txt (Some a) with
       | inl e => inl e
       | inr text =>
           match Util.TrainStrategy2PairMap.map_label self lb (Some a) with
           | inl e => inl e
           | inr label => inr [text; label]
           end
       end) lbs.
Proof.
  unfold Util.TrainStrategy2PairMap.call, Util.TrainStrategy2PairMap.map_text,
    Util.TrainStrategy2PairMap.map_label.
  destruct self as [s]. cbn [Util.TrainStrategy2PairMap.train_strategy].
  case_bool_decide as Hplain.
  { intros [= <-].
    assert (s <> "implicit-on-text-encode-aspect" /\
            s <> "implicit-on-text-encode-sep" /\ s <> "implicit")
      as (Ha & Hs & Hi).
    { repeat (apply elem_of_cons in Hplain as [->|Hplain]);
        [..|by apply elem_of_nil in Hplain]; by repeat split. }
    rewrite bool_decide_eq_false_2
      by (intros [?|[?|[]%elem_of_nil]%elem_of_cons]%elem_of_cons; congruence).
    destruct (String.eqb_spec s "implicit"); [done|].
    symmetry; apply (comprehension_total (fun lb => [txt; lb])). }
  destruct (String.eqb_spec s "implicit") as [->|Himp].
  { intros [= <-].
    rewrite bool_decide_eq_false_2
      by (intros [?|[?|[]%elem_of_nil]%elem_of_cons]%elem_of_cons; congruence).
    symmetry. apply (comprehension_total (fun lb => [txt; lb +:+ " " +:+ a])). }
  destruct (String.eqb_spec s "implicit-on-text-encode-aspect") as [->|Henc].
  { intros [= <-].
    rewrite bool_decide_eq_true_2 by (apply elem_of_cons; by left).
    apply comprehension_ext. intros lb.
    unfold Util.aspect_token. by destruct (Util.aspect2aspect_token cfg !! a). }
  destruct (String.eqb_spec s "implicit-on-text-encode-sep") as [->|_];
    [|discriminate].
  intros [= <-].
  rewrite bool_decide_eq_true_2
    by (apply elem_of_cons; right; apply elem_of_cons; by left).
  symmetry.
  apply (comprehension_total
           (fun lb => [a +:+ " " +:+ Util.sep_token cfg +:+ " " +:+ txt; lb])).
Qed.

Lemma query_agrees_with_maps_witness :
  exists query,
    Util.TrainStrategy2PairMap.call toy_strategy_config
      (Util.TrainStrategy2PairMap.mk "implicit-on-text-encode-sep")
      (Some "topic") = inr query /\
    query "a text" ["sports"; "world"] =
    inr [["topic <|ASPECT-SEP|> a text"; "sports"];
         ["topic <|ASPECT-SEP|> a text"; "world"]].
Proof.
  eexists. split; [reflexivity|].
  exact (query_agrees_with_maps toy_strategy_config
           (Util.TrainStrategy2PairMap.mk "implicit-on-text-encode-sep")
           "topic" _ "a text" ["sports"; "world"] eq_refl).
Defined.

(** X2.  With the default aspect ([None]) the query functions of
    ['implicit'] and ['implicit-on-text-encode-sep'] write the word
    [None] into every pair, where [map_label] and [map_text] refuse the
    same arguments with an [AssertionError]. *)
Theorem query_without_aspect
    (cfg : Util.strategy_config) (txt : string) (lbs : list string)
    (label : string) :
  (exists query,
     Util.TrainStrategy2PairMap.call cfg
       (Util.TrainStrategy2PairMap.mk "implicit") None = inr query /\
     query txt lbs = inr (map (fun lb => [txt; lb +:+ " None"]) lbs)) /\
  Util.TrainStrategy2PairMap.map_label
    (Util.TrainStrategy2PairMap.mk "implicit") label None
    = inl AssertionError /\
  (exists query,
     Util.TrainStrategy2PairMap.call cfg
       (Util.TrainStrategy2PairMap.mk "implicit-on-text-encode-sep") None
       = inr query /\
     query txt lbs =
     inr (map (fun lb => ["None " +:+ Util.sep_token cfg +:+ " " +:+ txt; lb])
              lbs)) /\
  Util.TrainStrategy2PairMap.map_text cfg
    (Util.TrainStrategy2PairMap.mk "implicit-on-text-encode-sep") txt None
    = inl AssertionError.
Proof.
  split; [eexists; split; reflexivity|].
  split; [reflexivity|].
  split; [eexists; split; reflexivity|].
  reflexivity.
Qed.

(** ** What [eval_res2df] does with a report that has no accuracy *)

(** X3.  [eval_res2df] raises [KeyError] on a report with neither an
    ['accuracy'] nor a ['micro avg'] entry, and [IndexError] when the
    ['micro avg'] row holds nothing but ['support'] (the assertion over no
    value passes, the first value is missing).  Whenever it returns, the
    frame is that of the whole report, whatever [pretty] is. *)
Theorem eval_res2df_without_accuracy
    {float frame report_args : Type}
    (isclose : float -> float -> float -> bool) (tol_1e_8 : float)
    (round_py : float -> Z -> float)
    (classification_report :
       list Z -> list Z -> report_args -> @Util.report float)
    (DataFrame_T : @Util.report float -> frame)
    (labels preds : list Z) (args : report_args) (pretty : bool) :
  let rep := classification_report labels preds args in
  let result :=
    Util.eval_res2df isclose tol_1e_8 round_py classification_report
      DataFrame_T labels preds args pretty in
  (Util.dict_get rep "accuracy" = None ->
   Util.dict_get rep "micro avg" = None ->
   result = inl KeyError) /\
  (forall metrics,
     Util.dict_get rep "accuracy" = None ->
     Util.dict_get rep "micro avg" = Some (Util.Row metrics) ->
     Forall (fun kv => kv.1 = "support") metrics ->
     result = inl IndexError) /\
  (forall df acc, result = inr (df, acc) -> df = DataFrame_T rep).
Proof.
  cbn zeta. unfold Util.eval_res2df, Util.report_accuracy.
  split; [by intros -> ->|]. split.
  - intros metrics -> -> Hall.
    assert (filter (fun kv : string * float => kv.1 <> "support") metrics = [])
      as ->; [|done].
    induction Hall as [|kv metrics Hkv _ IH]; [done|].
    rewrite filter_cons. by destruct (decide (kv.1 <> "support")).
  - intros df acc.
    destruct (Util.dict_get _ "accuracy") as [v|].
    + destruct (Util.rounded round_py v pretty); [done|]. by intros [= <- _].
    + destruct (Util.dict_get _ "micro avg") as [[x|metrics]|]; try done.
      destruct (map snd _) as [|v0 vals]; [done|].
      destruct (forallb _ _); [|done].
      destruct (Util.rounded round_py (Util.Num v0) pretty); [done|].
      by intros [= <- _].
Qed.

(** ** [ZsGPT2LMHeadModel.from_pretrained] besides the doubled copy *)

Lemma assign_rows_length {row : Type} (target src rows : list row) :
  Model.assign_rows target src = Some rows -> length rows = length target.
Proof.
  unfold Model.assign_rows.
  destruct (Z.eqb_spec (len src) (len target)) as [Hlen|_].
  - intros [= <-]. unfold len in Hlen. lia.
  - destruct src as [|r [|? ?]]; try done. intros [= <-]. apply length_replicate.
Qed.

Lemma length_slices {A : Type} (w : list A) (n : Z) :
  (length (slice_to w n) + length (slice_from w n) = length w)%nat.
Proof.
  unfold slice_to, slice_from.
  destruct (n <? 0); rewrite length_take, length_drop; lia.
Qed.

(** X4.  [from_pretrained] with [is_zs_gpt2] returns the loaded checkpoint
    as it is and warns about nothing.  Without it, a positional embedding
    of any size but 2048 rows is left as loaded, with the one warning that
    the positional weights are not loaded.  Whatever the call returns has
    the other weights and the number of positional rows of the loaded
    checkpoint. *)
Theorem from_pretrained_keeps_checkpoint
    {row rest : Type} (init_row : Z -> nat -> row)
    (init_others : Model.config -> rest)
    (load_checkpoint : @Model.model row rest -> @Model.model row rest)
    (is_zs_gpt2 : bool) (config_ : Model.config) :
  let md_ :=
    load_checkpoint (Model.ZsGPT2Model_init init_row init_others config_) in
  Model.from_pretrained init_row init_others load_checkpoint true config_
    = ([], inr md_) /\
  (len (Model.wpe md_) <> 2048 ->
   Model.from_pretrained init_row init_others load_checkpoint false config_
     = ([WarnPositionalNotLoaded], inr md_)) /\
  (forall ws md,
     Model.from_pretrained init_row init_others load_checkpoint is_zs_gpt2
       config_ = (ws, inr md) ->
     Model.others md = Model.others md_ /\
     length (Model.wpe md) = length (Model.wpe md_)).
Proof.
  intros md_. split; [reflexivity|]. split.
  - intros Hne. unfold Model.from_pretrained. fold md_.
    destruct (Z.eqb_spec (len (Model.wpe md_)) (1024 * 2)) as [Heq|_];
      [by destruct Hne|]. reflexivity.
  - intros ws md. unfold Model.from_pretrained. fold md_.
    destruct is_zs_gpt2; [by intros [= <- <-]|].
    destruct (len (Model.wpe md_) =? 1024 * 2); [|by intros [= <- <-]].
    unfold Model.setitem_rows_to.
    destruct (Model.assign_rows (slice_to (Model.wpe md_) 1024) _)
      as [rows1|] eqn:H1; [|done].
    unfold lift at 1. rewrite bind_silent with (a := rows1 ++ slice_from (Model.wpe md_) 1024) by done.
    unfold Model.setitem_rows_from.
    destruct (Model.assign_rows (slice_from _ 1024) _) as [rows2|] eqn:H2;
      [|done].
    unfold lift. rewrite bind_silent with (a := slice_to (rows1 ++ slice_from (Model.wpe md_) 1024) 1024 ++ rows2) by done.
    intros [= <- <-]. split; [done|]. cbn [Model.wpe].
    apply assign_rows_length in H1, H2.
    rewrite length_app, H2, length_slices, length_app, H1.
    apply length_slices.
Qed.

(** ** The tokenizer on short models and explicit lengths *)

Lemma max_py_nonneg (l : list Z) (m : Z) :
  Forall (fun x => 0 <= x) l -> max_py l = inr m -> 0 <= m.
Proof.
  intros Hall Hmax. destruct l as [|x l]; [discriminate|].
  apply Forall_cons in Hall as [Hx _].
  pose proof (max_py_ge (x :: l) m x Hmax) as Hge.
  etransitivity; [exact Hx|]. apply Hge. by apply elem_of_cons; left.
Qed.

(** X5.  A tokenizer whose [model_max_length] is 5 or less (the ['debug']
    model has 4) tokenizes no sample at all: in training mode and in
    prediction mode the cropping assertion fails on every question, text
    and answer, and nothing is returned; the one other outcome is the
    [ValueError] of [max] for a dataset without labels in prediction
    mode. *)
Theorem call_single_short_model
    tk kw fp dset_nm names did question text answer :
  Tokenizer.model_max_length tk <= 5 ->
  exists e,
    Tokenizer.call_single tk kw fp dset_nm names did question text answer
      = ([], inl e) /\
    (e = AssertionError \/ (fp = true /\ names = [] /\ e = ValueError)).
Proof.
  intros Hmml.
  set (q := Tokenizer.call_paren tk kw question).
  set (t := Tokenizer.call_paren tk kw text).
  set (a := Tokenizer.call_paren tk kw answer).
  pose proof (len_nonneg q) as Hq. pose proof (len_nonneg t) as Ht.
  pose proof (len_nonneg a) as Ha.
  destruct (text_budget tk fp names q a) as [e|b] eqn:Hb.
  - exists e. split.
    + unfold Tokenizer.call_single. fold q t a.
      by rewrite (crop_text_error _ _ _ _ _ _ _ _ Hb).
    + right. unfold text_budget in Hb. destruct fp; [|discriminate].
      destruct names as [|lb names]; [|discriminate].
      cbn in Hb. injection Hb as <-. by repeat split.
  - exists AssertionError. split; [|by left].
    assert (b < 0) as Hneg.
    { unfold text_budget, Tokenizer.max_len_single_sentence in Hb.
      destruct fp.
      - destruct (max_py _) as [e|m] eqn:Hmax; [discriminate|].
        injection Hb as <-.
        assert (0 <= m); [|lia].
        apply (max_py_nonneg _ _) in Hmax; [done|].
        apply Forall_forall. intros x Hx.
        apply list_elem_of_In, in_map_iff in Hx as (lb & <- & _).
        apply len_nonneg.
      - injection Hb as <-. lia. }
    apply (call_single_raises _ _ _ _ _ _ _ _ _ b); [exact Hb | fold t; lia | lia].
Qed.

Lemma call_single_short_model_witness :
  Tokenizer.model_max_length (toy_tokenizer 4) <= 5 /\
  Tokenizer.call_single (toy_tokenizer 4) None false "d" ["a"; "bb"] 7 "" "" ""
    = ([], inl AssertionError).
Proof.
  assert (Tokenizer.model_max_length (toy_tokenizer 4) <= 5) as Hmml
    by (cbn; lia).
  split; [exact Hmml|].
  destruct (call_single_short_model (toy_tokenizer 4) None false "d"
              ["a"; "bb"] 7 "" "" "" Hmml) as (e & Hcall & [->|(Hfp & _)]).
  - exact Hcall.
  - discriminate Hfp.
Defined.

Lemma len_pad_with (m p : Z) (l : list Z) :
  0 <= m -> len (Tokenizer.pad_with m p l) = m.
Proof.
  intros Hm. unfold Tokenizer.pad_with.
  destruct (Z.gtb_spec (len l) m).
  - rewrite len_slice_to_pos by done. lia.
  - rewrite len_app, len_replicate_py. lia.
Qed.

(** X6.  In training mode every sequence that [call_single] returns has
    exactly [max_length] entries (the keyword of the call, or
    [model_max_length] without one), whatever the sample: the inner [pad]
    fills a shorter sequence and cuts a longer one. *)
Theorem call_single_training_length
    tk kw dset_nm names did question text answer ws out :
  well_formed tk ->
  0 <= default (Tokenizer.model_max_length tk) kw ->
  Tokenizer.call_single tk kw false dset_nm names did question text answer
    = (ws, inr out) ->
  let max_length := default (Tokenizer.model_max_length tk) kw in
  len (Tokenizer.input_ids out) = max_length /\
  len (Tokenizer.attention_mask out) = max_length /\
  len (Tokenizer.token_type_ids out) = max_length /\
  len (Tokenizer.position_ids out) = max_length.
Proof.
  intros Hwf Hpos Hcall.
  destruct (call_single_returned _ _ _ _ _ _ _ _ _ _ _ Hwf Hcall)
    as (b & _ & _ & _ & ->).
  cbn zeta. unfold built, padded.
  cbn [Tokenizer.input_ids Tokenizer.attention_mask Tokenizer.token_type_ids
       Tokenizer.position_ids].
  by rewrite !len_pad_with.
Qed.

Lemma call_single_training_length_witness :
  well_formed (toy_tokenizer 12) /\
  0 <= default (Tokenizer.model_max_length (toy_tokenizer 12)) (Some 8) /\
  exists ws out,
    Tokenizer.call_single (toy_tokenizer 12) (Some 8) false "d" ["a"; "bb"] 7
      "q" "abcde" "z" = (ws, inr out) /\
    len (Tokenizer.input_ids out) = 8 /\
    len (Tokenizer.position_ids out) = 8.
Proof.
  split; [apply toy_tokenizer_well_formed|].
  split; [cbn; lia|].
  eexists _, _. split; [reflexivity|].
  destruct (call_single_training_length (toy_tokenizer 12) (Some 8) "d"
              ["a"; "bb"] 7 "q" "abcde" "z" _ _
              (toy_tokenizer_well_formed 12) ltac:(cbn; lia) eq_refl)
    as (Hi & _ & _ & Hp).
  split; [exact Hi | exact Hp].
Defined.

(** ** The true label that [set_pred_n_true] picks *)

Section TrueLabel.

Import Evaluate.

Variable get_substr_indices : string -> string -> list nat.
Variable lower : string -> string.
Variable tkzer : Tokenizer.t.

(** The last steps of [set_pred_n_true], from the lookup of the sample on. *)
Lemma set_pred_n_true_tail labels dset d_log st generated i_sample
    ws st' id_pred id_true :
  set_pred_n_true get_substr_indices lower tkzer labels dset d_log st
    generated i_sample = (ws, inr (st', (id_pred, id_true))) ->
  exists smp,
    dset !! i_sample = Some smp /\
    (if existsb (Z.eqb id_pred) (s_labels smp)
     then find (fun lb_id => lb_id =? id_pred) (s_labels smp) = Some id_true
     else s_labels smp !! 0%nat = Some id_true).
Proof.
  unfold set_pred_n_true.
  destruct (get_substr_indices generated (Tokenizer.boa_token tkzer))
    as [|i0 rest]; [discriminate|].
  unfold getitem at 1. cbn [lookup list_lookup]. unfold lift at 1.
  rewrite bind_silent with (a := i0) by done.
  intros Hrun.
  apply bind_inr_inv in Hrun as (w1 & [p m] & w2 & _ & Htail & _).
  apply bind_inr_inv in Htail as (? & smp & ? & Hsmp & Htail & _).
  apply bind_inr_inv in Htail as (? & t0 & ? & Htrue & Htail & _).
  apply bind_inr_inv in Htail as (? & ps & ? & Hps & Htail & _).
  apply bind_inr_inv in Htail as (? & ts & ? & Hts & Htail & _).
  unfold ret in Htail. injection Htail as _ _ -> ->.
  exists smp. split.
  - unfold lift, getitem in Hsmp. destruct (dset !! i_sample); by simplify_eq.
  - destruct (existsb _ _).
    + destruct (find _ _); [|discriminate]. unfold ret in Htrue. by simplify_eq.
    + unfold lift, getitem in Htrue.
      destruct (s_labels smp !! 0%nat); by simplify_eq.
Qed.

End TrueLabel.

(** X7.  The true label that [set_pred_n_true] records for a sample is one
    of the sample's labels: the predicted id when that is among them, so
    that the sample counts as correct exactly when the prediction is one of
    its true labels, and the sample's first label otherwise. *)
Theorem set_pred_n_true_picks_true_label
    get_substr_indices lower tkzer labels dset d_log st generated i_sample
    ws st' id_pred id_true smp :
  Evaluate.set_pred_n_true get_substr_indices lower tkzer labels dset d_log st
    generated i_sample = (ws, inr (st', (id_pred, id_true))) ->
  dset !! i_sample = Some smp ->
  id_true ∈ Evaluate.s_labels smp /\
  (id_pred = id_true <-> id_pred ∈ Evaluate.s_labels smp) /\
  (id_pred ∉ Evaluate.s_labels smp ->
   Evaluate.s_labels smp !! 0%nat = Some id_true) /\
  Evaluate.trues st' !! i_sample = Some id_true.
Proof.
  intros Hrun Hsmp.
  destruct (set_pred_n_true_tail _ _ _ _ _ _ _ _ _ _ _ _ _ Hrun)
    as (smp' & Hsmp' & Htrue).
  assert (smp' = smp) as -> by congruence.
  destruct (set_pred_n_true_state _ _ _ _ _ _ _ _ _ _ _ _ _ Hrun)
    as (_ & Htrues & _ & Hlt).
  assert (Evaluate.trues st' !! i_sample = Some id_true) as Hwritten.
  { rewrite Htrues. by apply list_lookup_insert_eq. }
  destruct (existsb (Z.eqb id_pred) (Evaluate.s_labels smp)) eqn:Hex.
  - rewrite (find_of_existsb _ _ Hex) in Htrue. injection Htrue as <-.
    apply existsb_exists in Hex as (x & Hin%list_elem_of_In & ->%Z.eqb_eq).
    by repeat split.
  - assert (id_pred ∉ Evaluate.s_labels smp) as Hnot.
    { intros Hin%list_elem_of_In.
      assert (existsb (Z.eqb id_pred) (Evaluate.s_labels smp) = true);
        [|congruence].
      apply existsb_exists. exists id_pred. split; [done | apply Z.eqb_refl]. }
    assert (id_true ∈ Evaluate.s_labels smp) as Hin
      by (by eapply list_elem_of_lookup_2).
    split; [done|]. split; [|by split].
    split; [by intros -> | done].
Qed.

Lemma set_pred_n_true_picks_true_label_witness :
  exists ws st',
    Evaluate.set_pred_n_true substr_indices ascii_lower (toy_tokenizer 1024)
      ["World"; "Sports"] (toy_dset "d") None
      (Evaluate.mkState (Evaluate.lb2id_of ascii_lower ["World"; "Sports"])
         [7; 7; 7] [7; 7; 7])
      "<|question|>q<|endoftext|><|text|>t<|endoftext|><|answer|>Sports<|endoftext|>"
      2 = (ws, inr (st', (1, 1))) /\
    toy_dset "d" !! 2%nat = Some (Evaluate.mkSample [50258; 2; 50260] [0; 1]) /\
    1 ∈ [0; 1] /\ Evaluate.trues st' !! 2%nat = Some 1.
Proof.
  eexists _, _. split; [vm_compute; reflexivity|]. split; [reflexivity|].
  destruct (set_pred_n_true_picks_true_label substr_indices ascii_lower
              (toy_tokenizer 1024) ["World"; "Sports"] (toy_dset "d") None
              (Evaluate.mkState (Evaluate.lb2id_of ascii_lower ["World"; "Sports"])
                 [7; 7; 7] [7; 7; 7])
              "<|question|>q<|endoftext|><|text|>t<|endoftext|><|answer|>Sports<|endoftext|>"
              2%nat _ _ 1 1 (Evaluate.mkSample [50258; 2; 50260] [0; 1])
              ltac:(vm_compute; reflexivity) eq_refl) as (Hin & _ & _ & Hwritten).
  split; [exact Hin | exact Hwritten].
Defined.

(** X8.  A sample without a true label makes [set_pred_n_true] raise on
    every generation: with no label to pick, nothing is recorded for it. *)
Theorem set_pred_n_true_needs_a_label
    get_substr_indices lower tkzer labels dset d_log st generated i_sample smp :
  dset !! i_sample = Some smp ->
  Evaluate.s_labels smp = [] ->
  exists ws e,
    Evaluate.set_pred_n_true get_substr_indices lower tkzer labels dset d_log
      st generated i_sample = (ws, inl e).
Proof.
  intros Hsmp Hnone.
  destruct (Evaluate.set_pred_n_true get_substr_indices lower tkzer labels dset
              d_log st generated i_sample) as [ws [e|[st' [p t]]]] eqn:Hrun;
    [by exists ws, e|].
  exfalso.
  destruct (set_pred_n_true_tail _ _ _ _ _ _ _ _ _ _ _ _ _ Hrun)
    as (smp' & Hsmp' & Htrue).
  assert (smp' = smp) as -> by congruence.
  rewrite Hnone in Htrue. discriminate Htrue.
Qed.

Lemma set_pred_n_true_needs_a_label_witness :
  [Evaluate.mkSample [50258; 50260] []] !! 0%nat
    = Some (Evaluate.mkSample [50258; 50260] []) /\
  Evaluate.s_labels (Evaluate.mkSample [50258; 50260] []) = [] /\
  Evaluate.set_pred_n_true substr_indices ascii_lower (toy_tokenizer 1024)
    ["World"; "Sports"] [Evaluate.mkSample [50258; 50260] []] None
    (Evaluate.mkState (Evaluate.lb2id_of ascii_lower ["World"; "Sports"]) [7] [7])
    "<|question|>q<|endoftext|><|text|>t<|endoftext|><|answer|>Sports<|endoftext|>"
    0 = ([], inl IndexError).
Proof.
  split; [reflexivity|]. split; [reflexivity|].
  destruct (set_pred_n_true_needs_a_label substr_indices ascii_lower
              (toy_tokenizer 1024) ["World"; "Sports"]
              [Evaluate.mkSample [50258; 50260] []] None
              (Evaluate.mkState (Evaluate.lb2id_of ascii_lower ["World"; "Sports"])
                 [7] [7])
              "<|question|>q<|endoftext|><|text|>t<|endoftext|><|answer|>Sports<|endoftext|>"
              0%nat (Evaluate.mkSample [50258; 50260] []) eq_refl eq_refl)
    as (ws & e & Hrun).
  vm_compute in Hrun. injection Hrun as <- <-. vm_compute. reflexivity.
Defined.

(** ** The dictionary from lower-case labels to ids *)

Section LabelIds.

Import Evaluate.

Variable lower : string -> string.

Local Abbreviation put :=
  (fun (m : gmap string Z) '((i, lb) : nat * string) =>
     <[lower lb := Z.of_nat i]> m).

(** A key that none of the pairs has keeps its entry. *)
Lemma lb2id_fold_untouched (ps : list (nat * string)) (m : gmap string Z)
    (k : string) :
  (forall j lb, (j, lb) ∈ ps -> lower lb <> k) ->
  fold_left put ps m !! k = m !! k.
Proof.
  revert m. induction ps as [|[j lb] ps IH]; intros m Hps; [done|].
  cbn [fold_left]. rewrite IH.
  - apply lookup_insert_ne. apply (Hps j). by apply elem_of_cons; left.
  - intros j' lb' Hin. apply (Hps j'). by apply elem_of_cons; right.
Qed.

(** An entry after the fold was there before, or comes from one of the
    pairs. *)
Lemma lb2id_fold_origin (ps : list (nat * string)) (m : gmap string Z)
    (k : string) (v : Z) :
  fold_left put ps m !! k = Some v ->
  m !! k = Some v \/ exists j lb, (j, lb) ∈ ps /\ v = Z.of_nat j /\ lower lb = k.
Proof.
  revert m. induction ps as [|[j lb] ps IH]; intros m; [by left|].
  cbn [fold_left]. intros [Hm|(j' & lb' & Hin & Hv & Hk)]%IH.
  - destruct (decide (lower lb = k)) as [<-|Hne].
    + rewrite lookup_insert_eq in Hm. injection Hm as <-.
      right. exists j, lb. split; [by apply elem_of_cons; left | done].
    + rewrite lookup_insert_ne in Hm by done. by left.
  - right. exists j', lb'. split; [by apply elem_of_cons; right | done].
Qed.

(** The enumerated labels, split at position [i]. *)
Lemma imap_pair_split (labels : list string) (i : nat) (lb : string) :
  labels !! i = Some lb ->
  imap pair labels =
  imap pair (take i labels) ++
  (i, lb) :: imap (fun n => pair (S i + n)%nat) (drop (S i) labels).
Proof.
  intros Hi.
  rewrite <- (take_drop_middle labels i lb Hi) at 1.
  rewrite imap_app, imap_cons.
  assert (length (take i labels) = i) as Hlen.
  { rewrite length_take. apply lookup_lt_Some in Hi. lia. }
  rewrite Hlen. f_equal. f_equal; [f_equal; lia|].
  apply imap_ext. intros n x _. cbn. f_equal. lia.
Qed.

Lemma elem_of_imap_pair_take (labels : list string) (i j : nat) (lb : string) :
  (j, lb) ∈ imap pair (take i labels) -> (j < i)%nat /\ labels !! j = Some lb.
Proof.
  intros (j' & lb' & [= -> ->] & Hlb)%elem_of_lookup_imap.
  apply lookup_take_Some in Hlb as [? ?]. by split.
Qed.

Lemma elem_of_imap_pair_drop (labels : list string) (i j : nat) (lb : string) :
  (j, lb) ∈ imap (fun n => pair (S i + n)%nat) (drop (S i) labels) ->
  (i < j)%nat /\ labels !! j = Some lb.
Proof.
  intros (n & lb' & [= -> ->] & Hlb)%elem_of_lookup_imap.
  rewrite lookup_drop in Hlb. split; [lia | done].
Qed.

End LabelIds.

(** X9.  [lb2id] maps the lower-case form of a label to the position of
    the last label with that lower-case form: to the label's own position
    when no later label collides with it. *)
Theorem lb2id_of_last_wins
    (lower : string -> string) (labels : list string) (i : nat) (lb : string) :
  labels !! i = Some lb ->
  (forall j lb', (i < j)%nat -> labels !! j = Some lb' -> lower lb' <> lower lb) ->
  Evaluate.lb2id_of lower labels !! lower lb = Some (Z.of_nat i).
Proof.
  intros Hi Hlast. unfold Evaluate.lb2id_of.
  rewrite (imap_pair_split labels i lb Hi), fold_left_app. cbn [fold_left].
  rewrite lb2id_fold_untouched.
  - apply lookup_insert_eq.
  - intros j lb' [Hlt Hj]%elem_of_imap_pair_drop. by apply (Hlast j).
Qed.

Lemma lb2id_of_last_wins_witness :
  ["World"; "Sports"; "WORLD"] !! 2%nat = Some "WORLD" /\
  Evaluate.lb2id_of ascii_lower ["World"; "Sports"; "WORLD"] !! "world" = Some 2.
Proof.
  split; [reflexivity|].
  apply (lb2id_of_last_wins ascii_lower ["World"; "Sports"; "WORLD"] 2 "WORLD");
    [reflexivity|].
  intros j lb' Hlt Hj. apply lookup_lt_Some in Hj. cbn in Hj. lia.
Defined.

(** X10.  A label that a later label repeats up to case is never the
    prediction: no key of [lb2id] holds its position. *)
Theorem lb2id_of_shadowed
    (lower : string -> string) (labels : list string) (i j : nat)
    (lb lb' : string) (k : string) :
  (i < j)%nat ->
  labels !! i = Some lb ->
  labels !! j = Some lb' ->
  lower lb = lower lb' ->
  Evaluate.lb2id_of lower labels !! k <> Some (Z.of_nat i).
Proof.
  intros Hlt Hi Hj Hsame. unfold Evaluate.lb2id_of.
  rewrite (imap_pair_split labels j lb' Hj), fold_left_app. cbn [fold_left].
  intros [Hm|(j2 & lb2 & Hin & Hv & _)]%lb2id_fold_origin.
  - destruct (decide (lower lb' = k)) as [<-|Hne].
    + rewrite lookup_insert_eq in Hm. injection Hm as Hm. lia.
    + rewrite lookup_insert_ne in Hm by done.
      apply lb2id_fold_origin in Hm as [Hm|(i' & lb2 & Hin & Hv & Hk)];
        [by rewrite lookup_empty in Hm|].
      apply elem_of_imap_pair_take in Hin as [_ Hi'].
      assert (i' = i) as -> by lia.
      assert (lb2 = lb) as -> by congruence. congruence.
  - apply elem_of_imap_pair_drop in Hin as [Hgt _]. lia.
Qed.

Lemma lb2id_of_shadowed_witness :
  (0 < 2)%nat /\
  ["World"; "Sports"; "WORLD"] !! 0%nat = Some "World" /\
  ["World"; "Sports"; "WORLD"] !! 2%nat = Some "WORLD" /\
  ascii_lower "World" = ascii_lower "WORLD" /\
  Evaluate.lb2id_of ascii_lower ["World"; "Sports"; "WORLD"] !! "world"
    <> Some 0.
Proof.
  split; [lia|]. do 3 (split; [reflexivity|]).
  exact (lb2id_of_shadowed ascii_lower ["World"; "Sports"; "WORLD"] 0 2
           "World" "WORLD" "world" ltac:(lia) eq_refl eq_refl eq_refl).
Defined.

(** ** The sanity checks of [set_pred_n_true] *)

Lemma outcome_of_bind {A B : Type} (m : M A) (f : A -> M B) :
  outcome_of (m ≫= f) =
  match outcome_of m with
  | inl e => inl e
  | inr a => outcome_of (f a)
  end.
Proof.
  rewrite bind_unfold. destruct m as [w [e|a]]; [done|].
  unfold bind. cbn [outcome_of snd]. by destruct (f a).
Qed.

Section SanityChecks.

Import Evaluate.

Variable get_substr_indices : string -> string -> list nat.
Variable lower : string -> string.
Variable tkzer : Tokenizer.t.

(** The steps from the lookup of the sample on raise [IndexError] or
    nothing. *)
Lemma set_pred_n_true_tail_outcome (dset : list sample) (st : state)
    (i_sample : nat) (id_pred : Z) (lb2id' : gmap string Z) :
  outcome_of
    (smp ← lift (getitem dset i_sample);
     let lbs_true := s_labels smp in
     id_true ←
       (if existsb (Z.eqb id_pred) lbs_true then
          match find (fun lb_id => lb_id =? id_pred) lbs_true with
          | Some lb_id => ret lb_id
          | None => raise StopIteration
          end
        else lift (getitem lbs_true 0));
     preds' ← lift (setitem (preds st) i_sample id_pred);
     trues' ← lift (setitem (trues st) i_sample id_true);
     ret (mkState lb2id' preds' trues', (id_pred, id_true)))
  <> inl AssertionError.
Proof.
  rewrite outcome_of_bind. unfold getitem at 1.
  destruct (dset !! i_sample) as [smp|]; [|done].
  cbn [lift outcome_of snd]. rewrite outcome_of_bind.
  assert (forall id_true,
    outcome_of
      (preds' ← lift (setitem (preds st) i_sample id_pred);
       trues' ← lift (setitem (trues st) i_sample id_true);
       ret (mkState lb2id' preds' trues', (id_pred, id_true)))
    <> inl AssertionError) as Hset.
  { intros id_true. rewrite outcome_of_bind. unfold setitem.
    case_bool_decide; [|done]. cbn [lift outcome_of snd].
    rewrite outcome_of_bind. by case_bool_decide. }
  destruct (existsb _ _) eqn:Hex.
  - rewrite (find_of_existsb _ _ Hex). cbn [ret outcome_of snd]. apply Hset.
  - unfold getitem. destruct (s_labels smp !! 0%nat); [|done].
    cbn [lift outcome_of snd]. apply Hset.
Qed.

End SanityChecks.

(** X11.  The two assertions of [set_pred_n_true] never fail while [lb2id]
    agrees with the labels and lower-casing twice is lower-casing once:
    the branch that asserts a single answer token is reached with exactly
    one, and an answer that [lb2id] maps to -1 is the lower-case form of no
    label.  The call raises [AssertionError] on no input. *)
Theorem set_pred_n_true_assertions_hold
    get_substr_indices lower tkzer labels dset d_log st generated i_sample ws :
  (forall s, lower (lower s) = lower s) ->
  lb2id_ok lower labels (Evaluate.lb2id st) ->
  Evaluate.set_pred_n_true get_substr_indices lower tkzer labels dset d_log st
    generated i_sample <> (ws, inl AssertionError).
Proof.
  intros Hidem Hok Hrun. apply (f_equal outcome_of) in Hrun.
  cbn [outcome_of snd] in Hrun. revert Hrun.
  unfold Evaluate.set_pred_n_true.
  destruct (get_substr_indices generated (Tokenizer.boa_token tkzer))
    as [|i0 rest] eqn:Hboa; [done|].
  unfold Evaluate.getitem at 1. cbn [lookup list_lookup]. unfold lift at 1.
  rewrite bind_silent with (a := i0) by done.
  set (awe := str_drop (i0 + String.length (Tokenizer.boa_token tkzer)) generated).
  rewrite outcome_of_bind.
  destruct (Z.gtb_spec (len (i0 :: rest)) 1) as [Hgt|Hle].
  - destruct d_log as [d|]; [|done].
    cbn [outcome_of snd]. apply set_pred_n_true_tail_outcome.
  - assert (rest = []) as ->.
    { destruct rest; [done|]. unfold len in Hle. cbn in Hle. lia. }
    change (len [i0] =? 1) with true. rewrite assert_py_true by done.
    destruct (get_substr_indices awe (Tokenizer.eos_token tkzer))
      as [|e0 eots] eqn:Heot.
    + cbn [outcome_of snd]. apply set_pred_n_true_tail_outcome.
    + destruct (Evaluate.lb2id_getitem (Evaluate.lb2id st) (lower (str_take e0 awe)))
        as [v m'] eqn:Hget.
      destruct (lb2id_getitem_ok _ _ _ _ _ _ Hok Hget) as [_ Hv].
      assert ((if v =? -1
               then assert_py (forallb
                      (fun lb => negb (String.eqb (lower lb)
                                         (lower (lower (str_take e0 awe)))))
                      labels)
               else ret tt) = ret tt) as Hcheck.
      { destruct (Z.eqb_spec v (-1)) as [->|_]; [|done].
        destruct Hv as [[_ Hnone]|[Hpos _]]; [|lia].
        assert (forallb (fun lb => negb (String.eqb (lower lb)
                                           (lower (lower (str_take e0 awe)))))
                  labels = true) as ->; [|done].
        apply forallb_forall. intros lb Hlb%list_elem_of_In.
        rewrite Hidem. apply negb_true_iff, String.eqb_neq. by apply Hnone. }
      rewrite Hcheck, bind_ret. cbn [ret outcome_of snd].
      apply set_pred_n_true_tail_outcome.
Qed.

Lemma set_pred_n_true_assertions_hold_witness :
  (forall s, ascii_lower (ascii_lower s) = ascii_lower s) /\
  lb2id_ok ascii_lower ["World"; "Sports"]
    (Evaluate.lb2id_of ascii_lower ["World"; "Sports"]) /\
  Evaluate.set_pred_n_true substr_indices ascii_lower (toy_tokenizer 1024)
    ["World"; "Sports"] (toy_dset "d") None
    (Evaluate.mkState (Evaluate.lb2id_of ascii_lower ["World"; "Sports"])
       [7; 7; 7] [7; 7; 7])
    "<|question|>q<|endoftext|><|text|>t<|endoftext|><|answer|>Politics<|endoftext|>"
    0 <> ([], inl AssertionError).
Proof.
  assert (forall s, ascii_lower (ascii_lower s) = ascii_lower s) as Hidem.
  { induction s as [|c s IH]; [done|]. cbn [ascii_lower]. f_equal; [|exact IH].
    unfold ascii_lower_char.
    destruct ((65 <=? nat_of_ascii c)%nat && (nat_of_ascii c <=? 90)%nat) eqn:Hc.
    - apply andb_true_iff in Hc as [H1%Nat.leb_le H2%Nat.leb_le].
      rewrite nat_ascii_embedding by lia.
      destruct ((65 <=? nat_of_ascii c + 32)%nat &&
                (nat_of_ascii c + 32 <=? 90)%nat) eqn:Hc'; [|done].
      apply andb_true_iff in Hc' as [_ H3%Nat.leb_le]. lia.
    - by rewrite Hc. }
  pose proof (lb2id_of_ok ascii_lower ["World"; "Sports"]) as Hok.
  split; [exact Hidem|]. split; [exact Hok|].
  exact (set_pred_n_true_assertions_hold substr_indices ascii_lower
           (toy_tokenizer 1024) ["World"; "Sports"] (toy_dset "d") None
           (Evaluate.mkState (Evaluate.lb2id_of ascii_lower ["World"; "Sports"])
              [7; 7; 7] [7; 7; 7]) _ 0%nat [] Hidem Hok).
Defined.

(** ** The arrays of [np.empty] *)

Lemma same_run_refl {A : Type} (m : M A) : same_run eq m m.
Proof. split; [done|]. by destruct (outcome_of m). Qed.

Lemma same_run_eq {A : Type} (m1 m2 : M A) : same_run eq m1 m2 -> m1 = m2.
Proof.
  destruct m1 as [w1 [e1|a1]], m2 as [w2 [e2|a2]]; intros [Hw Ho];
    cbn in Hw, Ho; by simplify_eq.
Qed.

Lemma same_run_ret {A : Type} (R : A -> A -> Prop) (a1 a2 : A) :
  R a1 a2 -> same_run R (ret a1) (ret a2).
Proof. by split. Qed.

Lemma same_run_bind {A B : Type} (R : A -> A -> Prop) (S : B -> B -> Prop)
    (m1 m2 : M A) (f1 f2 : A -> M B) :
  same_run R m1 m2 ->
  (forall a1 a2, R a1 a2 -> outcome_of m1 = inr a1 -> outcome_of m2 = inr a2 ->
     same_run S (f1 a1) (f2 a2)) ->
  same_run S (m1 ≫= f1) (m2 ≫= f2).
Proof.
  intros [Hw Ho] Hf. split.
  - rewrite !warnings_of_bind, Hw.
    destruct (outcome_of m1) as [e1|a1] eqn:H1,
             (outcome_of m2) as [e2|a2] eqn:H2; try done.
    f_equal. by apply Hf.
  - rewrite !outcome_of_bind.
    destruct (outcome_of m1) as [e1|a1] eqn:H1,
             (outcome_of m2) as [e2|a2] eqn:H2; try done.
    by apply Hf.
Qed.

Lemma same_run_mono {A : Type} (R S : A -> A -> Prop) (m1 m2 : M A) :
  (forall a1 a2, R a1 a2 -> S a1 a2) -> same_run R m1 m2 -> same_run S m1 m2.
Proof.
  intros HRS [Hw Ho]. split; [done|].
  destruct (outcome_of m1), (outcome_of m2); try done. by apply HRS.
Qed.

Lemma agree_on_mono (n : nat) (W W' : nat -> Prop) (st1 st2 : Evaluate.state) :
  (forall i, W' i -> W i) -> agree_on n W st1 st2 -> agree_on n W' st1 st2.
Proof.
  intros Hsub (Hlb & Hp & Ht & Hag).
  split; [done|]. split; [done|]. split; [done|].
  intros i Hi. by apply Hag, Hsub.
Qed.

Lemma select_length (dset : list Evaluate.sample) (idxs : list nat) rows :
  Evaluate.select dset idxs = inr rows -> length rows = length idxs.
Proof.
  revert rows. induction idxs as [|i idxs IH]; intros rows; cbn.
  - by intros [= <-].
  - destruct (Evaluate.getitem dset i); [done|].
    destruct (Evaluate.select dset idxs); [done|].
    intros [= <-]. cbn. f_equal. by apply IH.
Qed.

Lemma torch_tensor_inv (rows rows' : list (list Z)) :
  Evaluate.torch_tensor rows = inr rows' -> rows' = rows.
Proof.
  unfold Evaluate.torch_tensor. destruct rows as [|r rows]; [by intros [= <-]|].
  destruct (forallb _ _); [by intros [= <-] | done].
Qed.

Section Uninitialised.

Import Evaluate.

Variable get_substr_indices : string -> string -> list nat.
Variable lower : string -> string.
Variable tkzer : Tokenizer.t.
Variable generate : list (list Z) -> list string.
Hypothesis generate_length : forall inputs, length (generate inputs) = length inputs.

(** Writing one entry of two arrays that agree on [W]. *)
Lemma setitem_agree (n : nat) (W : nat -> Prop) (l1 l2 : list Z) (i : nat) (x : Z) :
  length l1 = n -> length l2 = n ->
  (forall j, W j -> l1 !! j = l2 !! j) ->
  same_run (fun l1' l2' =>
              length l1' = n /\ length l2' = n /\
              forall j, j = i \/ W j -> l1' !! j = l2' !! j)
    (lift (setitem l1 i x)) (lift (setitem l2 i x)).
Proof.
  intros H1 H2 Hag. unfold setitem. rewrite H1, H2.
  case_bool_decide as Hi; [|by split].
  split; [done|]. cbn. rewrite !length_insert. split; [done|]. split; [done|].
  intros j [->|Hj].
  - rewrite !list_lookup_insert_eq by lia. done.
  - destruct (decide (j = i)) as [->|Hne].
    + rewrite !list_lookup_insert_eq by lia. done.
    + rewrite !list_lookup_insert_ne by done. by apply Hag.
Qed.

Lemma set_pred_n_true_agree labels dset d_log n W st1 st2 generated i_sample :
  agree_on n W st1 st2 ->
  same_run (fun a1 a2 =>
              agree_on n (fun j => j = i_sample \/ W j) a1.1 a2.1 /\ a1.2 = a2.2)
    (set_pred_n_true get_substr_indices lower tkzer labels dset d_log st1
       generated i_sample)
    (set_pred_n_true get_substr_indices lower tkzer labels dset d_log st2
       generated i_sample).
Proof.
  intros (Hlb & [Hp1 Hp2] & [Ht1 Ht2] & Hag).
  unfold set_pred_n_true. rewrite Hlb.
  apply (same_run_bind eq); [apply same_run_refl|]. intros i0 ? <- _ _.
  apply (same_run_bind eq); [apply same_run_refl|]. intros [p m'] ? <- _ _.
  apply (same_run_bind eq); [apply same_run_refl|]. intros smp ? <- _ _.
  cbn zeta.
  apply (same_run_bind eq); [apply same_run_refl|]. intros t ? <- _ _.
  eapply same_run_bind.
  { apply (setitem_agree n W); [done | done |]. intros j Hj. by apply Hag. }
  intros ps1 ps2 (Hl1 & Hl2 & Hps) _ _.
  eapply same_run_bind.
  { apply (setitem_agree n W); [done | done |]. intros j Hj. by apply Hag. }
  intros ts1 ts2 (Hl1' & Hl2' & Hts) _ _.
  apply same_run_ret. cbn. split; [|done].
  repeat split; try done; [by apply Hps | by apply Hts].
Qed.

Lemma run_batch_agree labels dset d_log n pairs :
  forall W st1 st2,
  agree_on n W st1 st2 ->
  same_run (fun a1 a2 =>
              agree_on n (fun j => j ∈ pairs.*2 \/ W j) a1.1 a2.1 /\ a1.2 = a2.2)
    (run_batch get_substr_indices lower tkzer labels dset d_log st1 pairs)
    (run_batch get_substr_indices lower tkzer labels dset d_log st2 pairs).
Proof.
  induction pairs as [|[out i] pairs IH]; intros W st1 st2 Hag; cbn [run_batch].
  - apply same_run_ret. split; [|done].
    eapply agree_on_mono; [|exact Hag]. intros j [[]%elem_of_nil|Hj]. exact Hj.
  - eapply same_run_bind; [by apply set_pred_n_true_agree|].
    intros [s1 r1] [s2 r2] [Hag' Hr] _ _. cbn in Hag', Hr. subst r2.
    eapply same_run_bind; [by apply IH|].
    intros [s1' rs1] [s2' rs2] [Hag'' Hrs] _ _. cbn in Hag'', Hrs. subst rs2.
    apply same_run_ret. split; [|done]. cbn [fst].
    eapply agree_on_mono; [|exact Hag'']. cbn.
    intros j [[->|Hj]%elem_of_cons|Hj]; [right; by left | by left | right; by right].
Qed.

Lemma eval_batch_agree labels dset n_bch batch_size d_log step idxs n W st1 st2 :
  agree_on n W st1 st2 ->
  same_run (fun a1 a2 =>
              agree_on n (fun j => j ∈ idxs \/ W j) a1.1 a2.1 /\ a1.2 = a2.2)
    (eval_batch get_substr_indices lower tkzer generate labels dset n_bch
       batch_size st1 d_log step idxs)
    (eval_batch get_substr_indices lower tkzer generate labels dset n_bch
       batch_size st2 d_log step idxs).
Proof.
  intros Hag. unfold eval_batch.
  apply (same_run_bind eq); [apply same_run_refl|].
  intros rows ? <- Hrows _. cbn in Hrows. apply select_length in Hrows.
  apply (same_run_bind eq); [apply same_run_refl|].
  intros inputs ? <- Hinputs _. cbn in Hinputs. apply torch_tensor_inv in Hinputs.
  assert ((zip (generate inputs) idxs).*2 = idxs) as Hzip.
  { apply snd_zip. rewrite generate_length, Hinputs, length_map. lia. }
  eapply same_run_bind; [by apply run_batch_agree|].
  intros [s1 res1] [s2 res2] [Hag' Hres] _ _. cbn in Hag', Hres. subst res2.
  rewrite Hzip in Hag'.
  destruct res1 as [|r res]; [by split|].
  apply (same_run_bind eq); [apply same_run_refl|]. intros row0 ? <- _ _.
  apply same_run_ret. by split.
Qed.

Lemma loop_batches_agree labels dset n_bch batch_size n batches :
  forall W st1 st2 d_log step,
  agree_on n W st1 st2 ->
  same_run (fun a1 a2 =>
              agree_on n (fun j => j ∈ concat batches \/ W j) a1.1 a2.1 /\
              a1.2 = a2.2)
    (loop_batches get_substr_indices lower tkzer generate labels dset n_bch
       batch_size st1 d_log step batches)
    (loop_batches get_substr_indices lower tkzer generate labels dset n_bch
       batch_size st2 d_log step batches).
Proof.
  induction batches as [|idxs batches IH]; intros W st1 st2 d_log step Hag;
    cbn [loop_batches].
  - apply same_run_ret. split; [|done].
    eapply agree_on_mono; [|exact Hag]. intros j [[]%elem_of_nil|Hj]. exact Hj.
  - eapply same_run_bind; [by apply eval_batch_agree|].
    intros [s1 d1] [s2 d2] [Hag' Hd] _ _. cbn in Hag', Hd. subst d2.
    eapply same_run_mono; [|by apply IH].
    intros [s1' d1'] [s2' d2'] [Hag'' Hd']. split; [|done].
    eapply agree_on_mono; [|exact Hag'']. cbn.
    intros j [[Hj|Hj]%elem_of_app|Hj]; [right; by left | by left | right; by right].
Qed.

End Uninitialised.

(** X12.  The evaluation of a dataset does not depend on what the arrays
    of [np.empty] hold: with a positive batch size and a model that
    generates one output per input, every entry of [trues] and [preds] is
    written before the report is computed, so two runs that differ only in
    the uninitialised content emit the same warnings and end with the same
    exception or the same files. *)
Theorem evaluate_dataset_ignores_uninitialised
    get_substr_indices lower tkzer generate
    {report frame : Type}
    (classification_report : list Z -> list Z -> list Z -> list string -> report)
    (DataFrame_T : report -> frame) get_dset
    (uninit_trues uninit_preds uninit_trues' uninit_preds' : nat -> Z)
    batch_size path_dir dnm_ d fs :
  (forall inputs, length (generate inputs) = length inputs) ->
  0 < batch_size ->
  Evaluate.evaluate_dataset get_substr_indices lower tkzer generate
    classification_report DataFrame_T get_dset uninit_trues uninit_preds
    batch_size path_dir dnm_ d fs =
  Evaluate.evaluate_dataset get_substr_indices lower tkzer generate
    classification_report DataFrame_T get_dset uninit_trues' uninit_preds'
    batch_size path_dir dnm_ d fs.
Proof.
  intros Hgen Hb. apply same_run_eq. unfold Evaluate.evaluate_dataset.
  set (dset := get_dset (if Evaluate.multi_label d
                         then dnm_ +:+ "-label-grouped" else dnm_)).
  set (len_ids := map (fun smp => len (Evaluate.s_input_ids smp)) dset).
  apply (same_run_bind eq); [apply same_run_refl|].
  intros batches ? <- Hbatches _. cbn in Hbatches.
  unfold Evaluate.idxs_batches in Hbatches.
  destruct (sum_groups_spec batch_size
              (map (Evaluate.np_where_eq len_ids) (Evaluate.np_unique len_ids)) Hb)
    as (batches' & Hsum & Hconcat & _).
  assert (batches' = batches) as -> by congruence.
  assert (forall i, (i < length dset)%nat -> i ∈ concat batches) as Hall.
  { intros i Hi. rewrite Hconcat, groups_permutation. apply elem_of_seq.
    subst len_ids. rewrite length_map. lia. }
  eapply same_run_bind.
  { apply (loop_batches_agree get_substr_indices lower tkzer generate Hgen
             _ _ _ _ (length dset) batches (fun _ => False)).
    unfold Evaluate.np_empty, agree_on.
    cbn [Evaluate.lb2id Evaluate.preds Evaluate.trues].
    rewrite !length_map, !length_seq. by repeat split. }
  intros [s1 d1] [s2 d2] [Hag _] _ _. cbn in Hag.
  destruct Hag as (_ & [Hp1 Hp2] & [Ht1 Ht2] & Hag).
  assert (Evaluate.preds s1 = Evaluate.preds s2) as ->.
  { apply list_eq. intros i. destruct (decide (i < length dset)%nat).
    - apply Hag. left. by apply Hall.
    - rewrite !lookup_ge_None_2 by lia. done. }
  assert (Evaluate.trues s1 = Evaluate.trues s2) as ->.
  { apply list_eq. intros i. destruct (decide (i < length dset)%nat).
    - apply Hag. left. by apply Hall.
    - rewrite !lookup_ge_None_2 by lia. done. }
  apply same_run_refl.
Qed.

Lemma evaluate_dataset_ignores_uninitialised_witness :
  (forall inputs, length (toy_generate inputs) = length inputs) /\
  0 < 2 /\
  Evaluate.evaluate_dataset substr_indices ascii_lower (toy_tokenizer 1024)
    toy_generate toy_classification_report (fun r => r) toy_dset
    (fun _ => 7) (fun _ => 7) 2 "out" "multi_eurlex"
    (Evaluate.mkInfo false true ["World"; "Sports"]) ∅ =
  Evaluate.evaluate_dataset substr_indices ascii_lower (toy_tokenizer 1024)
    toy_generate toy_classification_report (fun r => r) toy_dset
    (fun i => Z.of_nat i) (fun _ => -5) 2 "out" "multi_eurlex"
    (Evaluate.mkInfo false true ["World"; "Sports"]) ∅.
Proof.
  assert (forall inputs, length (toy_generate inputs) = length inputs) as Hgen
    by (intros inputs; apply length_map).
  split; [exact Hgen|]. split; [lia|].
  apply evaluate_dataset_ignores_uninitialised; [exact Hgen | lia].
Defined.

(** ** [group_texts] *)

Lemma dict_get_map {V W : Type} (f : V -> W) (d : list (string * V)) (k : string) :
  Util.dict_get (map (fun '(k, v) => (k, f v)) d) k = f <$> Util.dict_get d k.
Proof.
  unfold Util.dict_get.
  induction d as [|[k' v] d IH]; [done|]. cbn.
  destruct (String.eqb k' k); [done | exact IH].
Qed.

Lemma dict_get_dict_set {V : Type} (d : list (string * V)) (k k' : string) (v : V) :
  Util.dict_get (dict_set d k v) k' =
  if String.eqb k k' then Some v else Util.dict_get d k'.
Proof.
  unfold Util.dict_get.
  induction d as [|[k0 v0] d IH]; cbn.
  - by destruct (String.eqb k k').
  - destruct (String.eqb_spec k0 k) as [->|Hne]; cbn.
    + by destruct (String.eqb k k').
    + destruct (String.eqb_spec k0 k') as [->|Hne'].
      * destruct (String.eqb_spec k k'); [congruence | done].
      * exact IH.
Qed.

Lemma dict_get_cons {V : Type} (d : list (string * V)) (k0 k : string) (v : V) :
  Util.dict_get ((k0, v) :: d) k =
  if String.eqb k0 k then Some v else Util.dict_get d k.
Proof. unfold Util.dict_get. cbn. by destruct (String.eqb k0 k). Qed.

(** The start positions of the blocks. *)
Lemma range3_blocks (q : Z) :
  0 <= q ->
  range3 0 (q * 512) 512 =
  inr (map (fun k => Z.of_nat k * 512) (seq 0 (Z.to_nat q))).
Proof.
  intros Hq. unfold range3. cbn [Z.eqb Z.ltb Z.compare].
  replace ((q * 512 - 0 + 512 - 1) / 512) with q
    by (apply Z.div_unique with (r := 511); lia).
  f_equal.
Qed.

(** Cutting the first [q] blocks of [b] elements out of a list that has
    them. *)
Lemma concat_blocks {A : Type} (b q : nat) (t : list A) :
  (q * b <= length t)%nat ->
  concat (map (fun k => take b (drop (k * b) t)) (seq 0 q)) = take (q * b) t /\
  Forall (fun block => length block = b)
    (map (fun k => take b (drop (k * b) t)) (seq 0 q)).
Proof.
  induction q as [|q IH]; intros Hlen; [by split; [|constructor]|].
  destruct IH as [Hc Hall]; [lia|].
  rewrite seq_S, map_app, concat_app, Hc. cbn [map concat plus].
  rewrite app_nil_r. split.
  - rewrite take_take_drop. f_equal. lia.
  - apply Forall_app. split; [done|]. constructor; [|constructor].
    rewrite length_take, length_drop. lia.
Qed.

Lemma blocks_of_slices (t : list Z) (q : nat) :
  map (fun i => slice t i (i + 512)) (map (fun k => Z.of_nat k * 512) (seq 0 q)) =
  map (fun k => take 512 (drop (k * 512) t)) (seq 0 q).
Proof.
  rewrite map_map. apply map_ext. intros k. unfold slice.
  replace (Z.to_nat (Z.of_nat k * 512 + 512) - Z.to_nat (Z.of_nat k * 512))%nat
    with 512%nat by lia.
  do 2 f_equal. lia.
Qed.

(** X13.  [group_texts] cuts the concatenated ids of a batch into blocks of
    exactly 512: under every key of the tokenizer output that holds as many
    ids as the first one, the blocks, put together again, are the leading
    ids of the concatenation, in order; what is left over, fewer than 512
    ids, is dropped (all of them when the batch holds fewer than 512). *)
Theorem group_texts_blocks
    (tokenizer_ : list string -> list (string * list (list Z)))
    (examples : list (string * list string))
    (result : list (string * list (list Z))) :
  Training.group_texts tokenizer_ examples = inr result ->
  exists texts k0 v0 rest,
    Util.dict_get examples "text" = Some texts /\
    tokenizer_ texts = (k0, v0) :: rest /\
    let n := len (concat v0) / 512 in
    512 * n <= len (concat v0) < 512 * n + 512 /\
    forall k v,
      Util.dict_get (tokenizer_ texts) k = Some v ->
      k <> "labels" ->
      512 * n <= len (concat v) ->
      exists blocks,
        Util.dict_get result k = Some blocks /\
        len blocks = n /\
        Forall (fun block => len block = 512) blocks /\
        concat blocks = slice_to (concat v) (512 * n).
Proof.
  unfold Training.group_texts.
  destruct (Util.dict_get examples "text") as [texts|]; [|done].
  destruct (tokenizer_ texts) as [|[k0 v0] rest] eqn:Htok; [done|].
  cbn [map].
  set (q := len (concat v0) / 512).
  pose proof (len_nonneg (concat v0)) as Hnn.
  assert (0 <= q) as Hq by (apply Z.div_pos; lia).
  rewrite (range3_blocks q Hq).
  set (starts := map (fun k => Z.of_nat k * 512) (seq 0 (Z.to_nat q))).
  match goal with
  | |- context [Util.dict_get ?r "input_ids"] =>
      remember r as result0 eqn:Hresult0
  end.
  destruct (Util.dict_get result0 "input_ids") as [ids|] eqn:Hids; [|done].
  intros [= <-]. exists texts, k0, v0, rest. split; [done|]. split; [done|].
  cbn zeta. fold q. split.
  { pose proof (Z.mod_pos_bound (len (concat v0)) 512 ltac:(lia)) as Hmod.
    pose proof (Z.div_mod (len (concat v0)) 512 ltac:(lia)) as Hdiv.
    fold q in Hdiv. lia. }
  intros k v Hk Hne Hlen.
  rewrite dict_get_dict_set.
  destruct (String.eqb_spec "labels" k) as [<-|_]; [done|].
  assert (Util.dict_get result0 k =
          Some (map (fun i => slice (concat v) i (i + 512)) starts)) as ->.
  { rewrite Hresult0. rewrite Htok in Hk. rewrite dict_get_cons in Hk |- *.
    destruct (String.eqb k0 k); [by injection Hk as <-|].
    by rewrite !dict_get_map, Hk. }
  eexists. split; [reflexivity|].
  subst starts. rewrite blocks_of_slices.
  destruct (concat_blocks 512 (Z.to_nat q) (concat v)) as [Hc Hall].
  { unfold len in Hlen. lia. }
  split; [unfold len; rewrite length_map, length_seq; lia|].
  split.
  - eapply Forall_impl; [exact Hall|]. cbn. intros block Hb. unfold len. lia.
  - rewrite Hc, slice_to_pos by lia. f_equal. lia.
Qed.

Lemma group_texts_blocks_witness :
  exists result blocks,
    Training.group_texts toy_plain_tokenizer [("text", [toy_long_text; "bc"])]
      = inr result /\
    Util.dict_get result "input_ids" = Some blocks /\
    len blocks = 1 /\
    Forall (fun block => len block = 512) blocks.
Proof.
  destruct (Training.group_texts toy_plain_tokenizer
              [("text", [toy_long_text; "bc"])]) as [e|result] eqn:Hrun;
    [vm_compute in Hrun; discriminate Hrun|].
  destruct (group_texts_blocks _ _ _ Hrun)
    as (texts & k0 & v0 & rest & Htext & Htok & _ & Hblocks).
  injection Htext as <-. injection Htok as <- <- <-.
  destruct (Hblocks "input_ids" (map toy_encode [toy_long_text; "bc"]))
    as (blocks & Hget & Hlen & Hall & _);
    [reflexivity | discriminate | by vm_compute |].
  exists result, blocks. split; [reflexivity|]. split; [exact Hget|].
  split; [exact Hlen | exact Hall].
Defined.

(** X14.  [group_texts] needs a ['text'] column and a tokenizer output with
    an ['input_ids'] key ([KeyError] without them, [IndexError] when the
    tokenizer returns no key at all); what it returns holds under
    ['labels'] the same blocks as under ['input_ids']. *)
Theorem group_texts_labels
    (tokenizer_ : list string -> list (string * list (list Z)))
    (examples : list (string * list string)) :
  (Util.dict_get examples "text" = None ->
   Training.group_texts tokenizer_ examples = inl KeyError) /\
  (forall texts,
     Util.dict_get examples "text" = Some texts ->
     (tokenizer_ texts = [] ->
      Training.group_texts tokenizer_ examples = inl IndexError) /\
     (tokenizer_ texts <> [] ->
      Util.dict_get (tokenizer_ texts) "input_ids" = None ->
      Training.group_texts tokenizer_ examples = inl KeyError)) /\
  (forall result,
     Training.group_texts tokenizer_ examples = inr result ->
     exists ids,
       Util.dict_get result "labels" = Some ids /\
       Util.dict_get result "input_ids" = Some ids).
Proof.
  unfold Training.group_texts. split; [by intros ->|]. split.
  - intros texts ->. split; [by intros ->|].
    intros Hne Hnone.
    destruct (tokenizer_ texts) as [|[k0 v0] rest] eqn:Htok; [done|].
    cbn [map].
    pose proof (len_nonneg (concat v0)) as Hnn.
    rewrite (range3_blocks (len (concat v0) / 512)) by (apply Z.div_pos; lia).
    match goal with
    | |- context [Util.dict_get ?r "input_ids"] =>
        assert (Util.dict_get r "input_ids" = None) as ->; [|done]
    end.
    rewrite dict_get_cons in Hnone |- *.
    destruct (String.eqb k0 "input_ids"); [done|].
    by rewrite !dict_get_map, Hnone.
  - intros result.
    destruct (Util.dict_get examples "text") as [texts|]; [|done].
    destruct (map _ (tokenizer_ texts)) as [|[k0 t0] rest]; [done|].
    destruct (range3 _ _ _) as [e|starts]; [done|].
    match goal with
    | |- context [Util.dict_get ?r "input_ids"] =>
        remember r as result0 eqn:Hresult0
    end.
    destruct (Util.dict_get result0 "input_ids") as [ids|] eqn:Hids; [|done].
    intros [= <-]. exists ids. by rewrite !dict_get_dict_set.
Qed.

(** ** [get_train_setup] *)

Lemma d_train_args_lookup (name_ : string) (conf : Training.entry) :
  Training.d_train_args !! name_ = Some conf ->
  name_ ∈ ["debug"; "debug-large"; "gpt2"; "gpt2-medium"].
Proof.
  unfold Training.d_train_args. intros H.
  repeat (apply lookup_insert_Some in H as [[<- _]|[_ H]];
          [repeat first [by apply elem_of_cons; left | apply elem_of_cons; right]|]).
  by rewrite lookup_empty in H.
Qed.

Lemma d_train_args_unknown (name_ : string) :
  name_ ∉ ["debug"; "debug-large"; "gpt2"; "gpt2-medium"] ->
  Training.d_train_args !! name_ = None.
Proof.
  intros Hnot. destruct (Training.d_train_args !! name_) as [conf|] eqn:H; [|done].
  by apply d_train_args_lookup in H.
Qed.

(** X15.  [get_train_setup] knows five model names, ['debug-gpt-ori']
    standing for ['gpt2']; any other name raises [KeyError].  With CUDA the
    training batch size of the model is divided among the devices and must
    divide evenly ([AssertionError] otherwise), the evaluation batch size is
    passed on undivided; unless [train_args] overrides them these are the
    per-device batch sizes handed to [TrainingArguments]. *)
Theorem get_train_setup_batch_sizes
    (cuda_is_available : bool) (cuda_device_count : positive)
    (output_dir : string -> string) (model_name : string) (do_eval : bool)
    (train_args : option (gmap string Training.value)) (save_gpu_memory : bool) :
  let result :=
    Training.get_train_setup cuda_is_available cuda_device_count output_dir
      model_name do_eval train_args save_gpu_memory in
  let bsz_tr :=
    if bool_decide (model_name ∈ ["debug"; "debug-large"]) then 4
    else if String.eqb model_name "gpt2-medium" then 16 else 32 in
  let bsz_vl := if String.eqb model_name "gpt2-medium" then 40 else bsz_tr in
  (model_name ∉ ["debug"; "debug-large"; "gpt2"; "gpt2-medium"; "debug-gpt-ori"] ->
   result = inl KeyError) /\
  (model_name ∈ ["debug"; "debug-large"; "gpt2"; "gpt2-medium"; "debug-gpt-ori"] ->
   if cuda_is_available && negb (bsz_tr mod Z.pos cuda_device_count =? 0)
   then result = inl AssertionError
   else
     exists args,
       result = inr args /\
       (default ∅ train_args !! "per_device_train_batch_size" = None ->
        args !! "per_device_train_batch_size" =
        Some (Training.VInt (if cuda_is_available
                             then bsz_tr / Z.pos cuda_device_count
                             else bsz_tr))) /\
       (default ∅ train_args !! "per_device_eval_batch_size" = None ->
        args !! "per_device_eval_batch_size" = Some (Training.VInt bsz_vl))).
Proof.
  cbn zeta. split.
  - intros Hnot. unfold Training.get_train_setup.
    destruct (String.eqb_spec model_name "debug-gpt-ori") as [->|Hne].
    { exfalso. apply Hnot.
      repeat first [by apply elem_of_cons; left | apply elem_of_cons; right]. }
    rewrite d_train_args_unknown; [done|].
    intros Hin. apply Hnot.
    repeat (apply elem_of_cons in Hin as [->|Hin];
            [repeat first [by apply elem_of_cons; left | apply elem_of_cons; right]|]).
    by apply elem_of_nil in Hin.
  - intros Hin.
    repeat (apply elem_of_cons in Hin as [->|Hin]);
      [..|by apply elem_of_nil in Hin];
      unfold Training.get_train_setup, Training.distribute;
      repeat match goal with
        | |- context [bool_decide ?P] =>
            let b := eval vm_compute in (bool_decide P) in
            change (bool_decide P) with b
        | |- context [Training.d_train_args !! ?k] =>
            let r := eval vm_compute in (Training.d_train_args !! k) in
            change (Training.d_train_args !! k) with r
        end;
      cbn [String.eqb Ascii.eqb Bool.eqb Training.batch_size
           Training.train_batch_size Training.eval_batch_size];
      (destruct cuda_is_available;
       [destruct (_ mod Z.pos cuda_device_count =? 0) eqn:Hdiv|]);
      cbn [andb negb]; try reflexivity;
      (eexists; split; [reflexivity|]; split; intros Hnone;
       (rewrite lookup_union_r by exact Hnone); by vm_compute).
Qed.


Lemma d_train_args_entries (name_ : string) (conf : Training.entry) :
  Training.d_train_args !! name_ = Some conf ->
  Some conf = Training.d_train_args !! "debug" /\ name_ = "debug" \/
  Some conf = Training.d_train_args !! "debug-large" /\ name_ = "debug-large" \/
  Some conf = Training.d_train_args !! "gpt2" /\ name_ = "gpt2" \/
  Some conf = Training.d_train_args !! "gpt2-medium" /\ name_ = "gpt2-medium".
Proof.
  intros H. pose proof (d_train_args_lookup _ _ H) as Hin.
  apply elem_of_cons in Hin as [->|Hin]; [left; by split|].
  apply elem_of_cons in Hin as [->|Hin]; [right; left; by split|].
  apply elem_of_cons in Hin as [->|Hin]; [right; right; left; by split|].
  apply elem_of_cons in Hin as [->|Hin]; [right; right; right; by split|].
  by apply elem_of_nil in Hin.
Qed.

(** Without CUDA [get_train_setup] returns for each of the model names it
    knows. *)
Lemma get_train_setup_returns
    (cuda_device_count : positive) (output_dir : string -> string)
    (model_name : string) (do_eval : bool)
    (train_args : option (gmap string Training.value)) (save_gpu_memory : bool) :
  model_name ∈ ["debug"; "debug-large"; "gpt2"; "gpt2-medium"; "debug-gpt-ori"] ->
  exists args,
    Training.get_train_setup false cuda_device_count output_dir model_name
      do_eval train_args save_gpu_memory = inr args.
Proof.
  intros Hin.
  repeat (apply elem_of_cons in Hin as [->|Hin]);
    [..|by apply elem_of_nil in Hin];
    unfold Training.get_train_setup, Training.distribute;
    repeat match goal with
      | |- context [Training.d_train_args !! ?k] =>
          let r := eval vm_compute in (Training.d_train_args !! k) in
          change (Training.d_train_args !! k) with r
      end;
    cbn [String.eqb Ascii.eqb Bool.eqb Training.batch_size
         Training.train_batch_size Training.eval_batch_size];
    by eexists.
Qed.

(** X16.  What [get_train_setup] returns holds every entry of
    [train_args], whatever the default for its key, and no key with the
    value [None]: [gradient_accumulation_steps] is passed on for
    ['gpt2-medium'] only, unless [train_args] sets it. *)
Theorem get_train_setup_overrides
    (cuda_is_available : bool) (cuda_device_count : positive)
    (output_dir : string -> string) (model_name : string) (do_eval : bool)
    (train_args : option (gmap string Training.value)) (save_gpu_memory : bool)
    (args : gmap string Training.value) :
  Training.get_train_setup cuda_is_available cuda_device_count output_dir
    model_name do_eval train_args save_gpu_memory = inr args ->
  (forall k v, default ∅ train_args !! k = Some v -> args !! k = Some v) /\
  (default ∅ train_args !! "gradient_accumulation_steps" = None ->
   args !! "gradient_accumulation_steps" =
   if String.eqb model_name "gpt2-medium" then Some (Training.VInt 8) else None).
Proof.
  unfold Training.get_train_setup.
  set (name_ := if String.eqb model_name "debug-gpt-ori" then "gpt2"
                else model_name).
  destruct (Training.d_train_args !! name_) as [conf|] eqn:Hconf; [|done].
  assert (String.eqb model_name "gpt2-medium" = String.eqb name_ "gpt2-medium")
    as ->.
  { subst name_. by destruct (String.eqb_spec model_name "debug-gpt-ori") as [->|]. }
  clearbody name_.
  destruct (d_train_args_entries _ _ Hconf)
    as [[Hc ->]|[[Hc ->]|[[Hc ->]|[Hc ->]]]].
  all: vm_compute in Hc; injection Hc as ->.
  all: cbn [Training.batch_size Training.train_batch_size Training.eval_batch_size].
  all: destruct (Training.distribute _ _ _) as [e|bsz_tr]; [done|].
  all: intros Hargs; apply (inj inr) in Hargs; rewrite <- Hargs; clear Hargs.
  all: split; [intros k v Hk; by apply lookup_union_Some_l|].
  all: intros Hnone; rewrite lookup_union_r by exact Hnone.
  all: by vm_compute.
Qed.

Lemma get_train_setup_overrides_witness :
  exists args,
    Training.get_train_setup false 2 (fun nm => "models/" +:+ nm) "gpt2-medium"
      true (Some {["learning_rate" := Training.VFloat 1 (-3)]}) true = inr args /\
    args !! "learning_rate" = Some (Training.VFloat 1 (-3)) /\
    args !! "gradient_accumulation_steps" = Some (Training.VInt 8).
Proof.
  destruct (get_train_setup_returns 2 (fun nm => "models/" +:+ nm) "gpt2-medium"
              true (Some {["learning_rate" := Training.VFloat 1 (-3)]}) true)
    as (args & Hrun).
  { repeat first [by apply elem_of_cons; left | apply elem_of_cons; right]. }
  destruct (get_train_setup_overrides _ _ _ _ _ _ _ _ Hrun) as [Hover Hgas].
  exists args. split; [exact Hrun|]. split.
  - apply Hover. by vm_compute.
  - apply Hgas. by vm_compute.
Defined.

(** ** The output path of a model *)

Lemma split_nonempty (sep : ascii) (s : string) : split sep s <> [].
Proof.
  destruct s as [|c s]; cbn; [done|].
  destruct (Ascii.eqb c sep); [done|]. by destruct (split sep s).
Qed.

Lemma os_path_join_empty (b : string) : Evaluate.os_path_join "" b = b.
Proof. unfold Evaluate.os_path_join. by destruct (String.prefix "/" b). Qed.

(** X17.  [map_model_output_path] ignores a leading slash of
    [output_path]: an absolute path gives the result of the same path
    without the slash, a relative path, because the empty first component of
    the split path is lost in [os.path.join]. *)
Theorem map_model_output_path_drops_root
    (get_hostname BASE_PATH proj_dir model_dir now_for_path : string)
    (model_name mode sampling : option string) (normalize_aspect : bool)
    (output_path : string) :
  output_path <> "" ->
  Paths.map_model_output_path get_hostname BASE_PATH proj_dir model_dir
    now_for_path model_name (Some ("/" +:+ output_path)) mode sampling
    normalize_aspect =
  Paths.map_model_output_path get_hostname BASE_PATH proj_dir model_dir
    now_for_path model_name (Some output_path) mode sampling normalize_aspect.
Proof.
  intros Hne. unfold Paths.map_model_output_path.
  change ("/" +:+ output_path) with (String "/" output_path).
  cbn [String.eqb negb split Ascii.eqb Bool.eqb].
  destruct (String.eqb_spec output_path "") as [->|_]; [done|]. cbn [negb].
  destruct (split "/" output_path) as [|x l] eqn:Hsplit;
    [by destruct (split_nonempty "/" output_path)|].
  change (last ("" :: x :: l)) with (last (x :: l)).
  destruct (last (x :: l)) as [dir_nm|]; [|done].
  assert (slice_to ("" :: x :: l) (-1) = "" :: slice_to (x :: l) (-1)) as ->.
  { rewrite !slice_to_neg by lia. rewrite !len_cons.
    pose proof (len_nonneg l).
    replace (Z.to_nat (1 + (1 + len l) + -1))
      with (S (Z.to_nat (1 + len l + -1))) by lia.
    done. }
  unfold Paths.os_join.
  destruct (slice_to (x :: l) (-1)) as [|a p]; cbn [fold_left app];
    by rewrite os_path_join_empty.
Qed.

Lemma map_model_output_path_drops_root_witness :
  "data/models/run1" <> "" /\
  Paths.map_model_output_path "host" "/home/user" "project" "models"
    "2022-03-04_21-33-12" (Some "gpt2") (Some "/data/models/run1")
    (Some "vanilla") (Some "rand") false
  = inr "data/models/2022-03-04_21-33-12_gpt2-run1-vanilla-rand".
Proof.
  split; [discriminate|].
  change "/data/models/run1" with ("/" +:+ "data/models/run1").
  rewrite (map_model_output_path_drops_root "host" "/home/user" "project"
             "models" "2022-03-04_21-33-12" (Some "gpt2") (Some "vanilla")
             (Some "rand") false "data/models/run1" ltac:(discriminate)).
  reflexivity.
Defined.

(** ** The label cache of the tokenizer *)

Lemma tpl_grouped_match_inv (s group : string) :
  Cache.tpl_grouped_match s = Some group ->
  (String.length group <= 1)%nat /\
  (s = group +:+ "-label-grouped" \/
   s = group +:+ "-label-grouped" +:+ Cache.newline).
Proof.
  unfold Cache.tpl_grouped_match. destruct s as [|c s']; [done|].
  destruct (negb (Ascii.eqb c (ascii_of_nat 10)) &&
            (String.eqb s' "-label-grouped" ||
             String.eqb s' ("-label-grouped" +:+ Cache.newline))) eqn:Hone.
  - intros [= <-]. split; [cbn; lia|].
    apply andb_true_iff in Hone as [_ Hs'].
    apply orb_true_iff in Hs' as [->%String.eqb_eq | ->%String.eqb_eq];
      [by left | by right].
  - destruct (String.eqb (String c s') "-label-grouped" ||
              String.eqb (String c s') ("-label-grouped" +:+ Cache.newline))
      eqn:Hnone; [|done].
    intros [= <-]. split; [cbn; lia|].
    apply orb_true_iff in Hnone as [->%String.eqb_eq | ->%String.eqb_eq];
      [by left | by right].
Qed.

(** X18.  For a multi-label dataset the first access of the cache raises
    [AttributeError] unless the name of the dataset is at most one character
    followed by ['-label-grouped']: the pattern of [tpl_grouped] allows a
    single character for the name, so no match is found for a name such as
    ['multi_eurlex-label-grouped']. *)
Theorem cache_getitem_grouped_name
    (tokenizer : Tokenizer.t)
    (load_from_disk : string -> string -> exn + Cache.features)
    (config_labels : string -> string -> exn + list string)
    (self : gmap string Cache.entry) (dataset_name split : string)
    (feats : Cache.features) :
  self !! (dataset_name +:+ "-" +:+ split) = None ->
  load_from_disk dataset_name split = inr feats ->
  Cache.is_multi_label feats = true ->
  (forall group,
     (String.length group <= 1)%nat ->
     dataset_name <> group +:+ "-label-grouped" /\
     dataset_name <> group +:+ "-label-grouped" +:+ Cache.newline) ->
  Cache.getitem tokenizer load_from_disk config_labels self dataset_name split
    = inl AttributeError.
Proof.
  intros Hmiss Hload Hmulti Hname. unfold Cache.getitem.
  rewrite Hmiss, Hload, Hmulti.
  destruct (Cache.tpl_grouped_match dataset_name) as [group|] eqn:Hmatch;
    [|done].
  apply tpl_grouped_match_inv in Hmatch as [Hlen Hform].
  destruct (Hname group Hlen) as [H1 H2]. by destruct Hform.
Qed.

Lemma cache_getitem_grouped_name_witness :
  Cache.getitem (toy_tokenizer 1024)
    (fun _ _ => inr (Cache.mkFeatures true 2 ["World"; "Sports"]))
    (fun _ _ => inr ["World"; "Sports"]) ∅ "multi_eurlex-label-grouped" "test"
  = inl AttributeError.
Proof.
  apply (cache_getitem_grouped_name _ _ _ _ _ _
           (Cache.mkFeatures true 2 ["World"; "Sports"]));
    [reflexivity | reflexivity | reflexivity |].
  intros [|c [|c' group]] Hlen; [split; discriminate | split; discriminate |].
  cbn in Hlen. lia.
Defined.

(** X19.  Once [__getitem__] has returned the entry of a dataset and
    split, every later access of that key returns the same entry and leaves
    the cache as it is, without reading the disk or the configuration
    again. *)
Theorem cache_getitem_cached
    (tokenizer tokenizer' : Tokenizer.t)
    (load_from_disk load_from_disk' : string -> string -> exn + Cache.features)
    (config_labels config_labels' : string -> string -> exn + list string)
    (self self' : gmap string Cache.entry) (dataset_name split : string)
    (e : Cache.entry) :
  Cache.getitem tokenizer load_from_disk config_labels self dataset_name split
    = inr (e, self') ->
  Cache.getitem tokenizer' load_from_disk' config_labels' self' dataset_name
    split = inr (e, self').
Proof.
  unfold Cache.getitem.
  destruct (self !! (dataset_name +:+ "-" +:+ split)) as [e0|] eqn:Hkey.
  - intros Heq. apply (inj inr) in Heq. injection Heq as <- <-. by rewrite Hkey.
  - destruct (load_from_disk dataset_name split) as [?|feats]; [done|].
    destruct (if Cache.is_multi_label feats then _ else _) as [?|nm]; [done|].
    destruct (config_labels nm split) as [?|labels]; [done|].
    case_bool_decide; [|done].
    destruct (max_py _) as [?|max_len]; [done|].
    intros Heq. apply (inj inr) in Heq. injection Heq as <- <-.
    by rewrite lookup_insert_eq.
Qed.

Lemma cache_getitem_cached_witness :
  exists e self',
    Cache.getitem (toy_tokenizer 1024)
      (fun _ _ => inr (Cache.mkFeatures false 2 ["World"; "Sports"]))
      (fun _ _ => inr ["World"; "Sports"]) ∅ "ag_news" "test" = inr (e, self') /\
    Cache.max_label_id_length e = 6 /\
    Cache.getitem (toy_tokenizer 1024) (fun _ _ => inl RuntimeError)
      (fun _ _ => inl KeyError) self' "ag_news" "test" = inr (e, self').
Proof.
  eexists _, _. split; [reflexivity|]. split; [reflexivity|].
  exact (cache_getitem_cached (toy_tokenizer 1024) (toy_tokenizer 1024)
           (fun _ _ => inr (Cache.mkFeatures false 2 ["World"; "Sports"]))
           (fun _ _ => inl RuntimeError)
           (fun _ _ => inr ["World"; "Sports"]) (fun _ _ => inl KeyError)
           ∅ _ "ag_news" "test" _ eq_refl).
Defined.

(** ** The question of a sample *)





